(** * RSVP worker: a shallow embedding of [worker/src/index.ts]

    The worker is a single [fetch] handler over two tables ([invites],
    [rsvps]), a password login that issues an HMAC-signed expiring token,
    and a handful of string helpers.  This file embeds those functions and
    states properties of them.

    Conventions of the embedding.
    - A JavaScript string is a [string]: a sequence of code units, each an
      [ascii], so the embedding covers the code units [0x00..0xFF] (Basic
      Latin and Latin-1 Supplement).  On that repertoire [trim],
      [toLowerCase] and the character classes of the regular expressions
      are given exactly.
    - A [Uint8Array] is a [list ascii].
    - A JavaScript number is an integer ([Z]): the values covered are
      those of JSON text whose numbers are integers.  How an integer of
      magnitude [1e21] or more is printed is left to the runtime.
    - What the runtime provides and the repository does not define
      (digests, the text decoder, the JSON parser, clock formatting) is a
      field of the class [Platform]. *)

From Stdlib Require Import ZArith List Ascii String Bool Lia.
From stdpp Require Import gmap strings pretty sorting.
Import ListNotations.

Local Open Scope string_scope.
Local Open Scope Z_scope.

(** * Part I: the embedding *)

(** ** Code units *)

Definition code (c : ascii) : Z := Z.of_N (N_of_ascii c).

Definition chr (z : Z) : ascii := ascii_of_N (Z.to_N z).

(** [s.charCodeAt(i)] as the bitwise operators see it: the code unit at
    [i], and [NaN], which [ToInt32] turns into [0], out of range. *)
Definition charCodeAt (s : string) (i : nat) : Z :=
  match String.get i s with
  | Some c => code c
  | None => 0
  end.

(** [ToInt32]: the 32-bit two's complement wrap-around every bitwise
    operator applies to its result. *)
Definition ToInt32 (z : Z) : Z := (z + 2 ^ 31) mod 2 ^ 32 - 2 ^ 31.

Definition js_xor (x y : Z) : Z := ToInt32 (Z.lxor x y).
Definition js_or (x y : Z) : Z := ToInt32 (Z.lor x y).

Definition between (lo hi n : Z) : bool := (lo <=? n) && (n <=? hi).

(** ** String.prototype helpers *)

(** WhiteSpace and LineTerminator code units below [0x100]: TAB, LF, VT,
    FF, CR, SP and NBSP.  [trim] and the class [\s] use the same set. *)
Definition isWhiteSpace (c : ascii) : bool :=
  let n := code c in
  between 9 13 n || (n =? 32) || (n =? 160).

(** [\p{L}] below [0x100]. *)
Definition isLetter (c : ascii) : bool :=
  let n := code c in
  between 65 90 n || between 97 122 n || (n =? 170) || (n =? 181) || (n =? 186)
  || between 192 214 n || between 216 246 n || between 248 255 n.

(** [\p{N}] below [0x100]: the digits, the superscripts and the vulgar
    fractions. *)
Definition isNumber (c : ascii) : bool :=
  let n := code c in
  between 48 57 n || (n =? 178) || (n =? 179) || (n =? 185) || between 188 190 n.

Fixpoint trimStart (s : string) : string :=
  match s with
  | EmptyString => EmptyString
  | String c s' => if isWhiteSpace c then trimStart s' else s
  end.

Definition trimEnd (s : string) : string := String.rev (trimStart (String.rev s)).

Definition trim (s : string) : string := trimEnd (trimStart s).

Definition lowerChar (c : ascii) : ascii :=
  let n := code c in
  if between 65 90 n || between 192 214 n || between 216 222 n then chr (n + 32) else c.

Fixpoint toLowerCase (s : string) : string :=
  match s with
  | EmptyString => EmptyString
  | String c s' => String (lowerChar c) (toLowerCase s')
  end.

(** [s.replace(re, "")] for a global one-character class: the code units
    matching are dropped. *)
Fixpoint removeAll (matches : ascii -> bool) (s : string) : string :=
  match s with
  | EmptyString => EmptyString
  | String c s' => if matches c then removeAll matches s' else String c (removeAll matches s')
  end.

(** [s.replace(/\s+/g, " ")]: every maximal run of white space becomes one
    space.  [inRun] records that the previous code unit was white space. *)
Fixpoint collapseRuns (inRun : bool) (s : string) : string :=
  match s with
  | EmptyString => EmptyString
  | String c s' =>
      if isWhiteSpace c
      then (if inRun then collapseRuns true s' else String " " (collapseRuns true s'))
      else String c (collapseRuns false s')
  end.

(** [s.replaceAll(x, y)] for a one-character pattern [x]. *)
Fixpoint replaceAll (x : ascii) (y : string) (s : string) : string :=
  match s with
  | EmptyString => EmptyString
  | String c s' => if Ascii.eqb c x then y +:+ replaceAll x y s' else String c (replaceAll x y s')
  end.

(** [s.split(sep)] for a one-character separator: the pieces between the
    separators, of which there is always at least one. *)
Fixpoint split (sep : ascii) (s : string) : list string :=
  match s with
  | EmptyString => [EmptyString]
  | String c s' =>
      if Ascii.eqb c sep then EmptyString :: split sep s'
      else
        match split sep s' with
        | piece :: pieces => String c piece :: pieces
        | [] => [String c EmptyString]
        end
  end.

Fixpoint join (sep : string) (l : list string) : string :=
  match l with
  | [] => ""
  | [x] => x
  | x :: l' => x +:+ sep +:+ join sep l'
  end.

(** A string is falsy exactly when it is empty. *)
Definition nonEmpty (s : string) : bool :=
  match s with EmptyString => false | _ => true end.

(** ** normalizeName *)

Definition normalizeName (input : string) : string :=
  collapseRuns false
    (removeAll (fun c => negb (isLetter c || isNumber c || isWhiteSpace c))
       (toLowerCase (trim input))).

(** ** timingSafeEqual *)

(** [for (let i = 0; i < a.length; i++) out |= a.charCodeAt(i) ^ b.charCodeAt(i)] *)
Definition timingSafeEqual_loop (a b : string) (n : nat) (out0 : Z) : Z :=
  fold_left (fun out i => js_or out (js_xor (charCodeAt a i) (charCodeAt b i)))
            (seq 0 n) out0.

(** One turn of the loop, on the code units themselves. *)
Definition mix (out : Z) (c d : ascii) : Z := js_or out (js_xor (code c) (code d)).

Definition timingSafeEqual (a b : string) : bool :=
  if negb (Nat.eqb (String.length a) (String.length b)) then false
  else Z.eqb (timingSafeEqual_loop a b (String.length a) 0) 0.

(** ** JSON values and the coercions applied to them *)

(** What [JSON.parse] returns and [JSON.stringify] takes.  A number is an
    integer; an object is the list of its properties in property order. *)
#[warnings="-register-all"] Inductive json : Type :=
| JNull
| JBool (b : bool)
| JNum (n : Z)
| JStr (s : string)
| JArr (items : list json)
| JObj (fields : list (string * json)).

Fixpoint assoc {A : Type} (k : string) (l : list (string * A)) : option A :=
  match l with
  | [] => None
  | (k', v) :: l' => if String.eqb k k' then Some v else assoc k l'
  end.

(** [o[k] = v] on a property list: an existing property keeps its place,
    a new one goes last. *)
Fixpoint setProp {A : Type} (k : string) (v : A) (l : list (string * A)) : list (string * A) :=
  match l with
  | [] => [(k, v)]
  | (k', v') :: l' => if String.eqb k k' then (k, v) :: l' else (k', v') :: setProp k v l'
  end.

(** [v?.k] for the property names the worker reads: [undefined] ([None])
    on [null], on primitives and on arrays. *)
Definition optGet (v : json) (k : string) : option json :=
  match v with
  | JObj fields => assoc k fields
  | _ => None
  end.

Definition truthy (v : json) : bool :=
  match v with
  | JNull => false
  | JBool b => b
  | JNum n => negb (n =? 0)
  | JStr s => nonEmpty s
  | JArr _ | JObj _ => true
  end.

(** [Boolean(x)] where [x] may be [undefined]. *)
Definition toBoolean (x : option json) : bool :=
  match x with
  | Some v => truthy v
  | None => false
  end.

(** [x || ""] *)
Definition orEmpty (x : option json) : json :=
  match x with
  | Some v => if truthy v then v else JStr ""
  | None => JStr ""
  end.

(** A nullable string as a JSON value. *)
Definition jsonOfOption (o : option string) : json :=
  match o with
  | Some s => JStr s
  | None => JNull
  end.

(** ** Thrown values *)

(** What a [catch] clause receives: the worker only ever reads
    [e?.message]. *)
Record Exn : Type := mkExn {
  exn_name : string;
  exn_message : string;
  exn_stack : string
}.

(** A computation that may throw. *)
Definition result (A : Type) : Type := Exn + A.

Definition ret {A : Type} (a : A) : result A := inr a.
Definition throw {A : Type} (e : Exn) : result A := inl e.
Definition bind {A B : Type} (m : result A) (k : A -> result B) : result B :=
  match m with
  | inl e => inl e
  | inr a => k a
  end.

Notation "'do' x <- m ; k" := (bind m (fun x => k))
  (at level 10, x name, m at level 100, k at level 200).

(** ** The runtime *)

Class Platform : Type := {
  (** [crypto.subtle.digest("SHA-256", bytes)] *)
  sha256 : list ascii -> list ascii;
  (** [crypto.subtle.sign("HMAC", key, bytes)] with a SHA-256 key made
      from the key bytes *)
  hmac : list ascii -> list ascii -> list ascii;
  (** [new TextDecoder().decode(bytes)] *)
  TextDecoder_decode : list ascii -> string;
  (** [JSON.parse(text)]: a value, or the [SyntaxError] thrown *)
  JSON_parse : string -> result json;
  (** [Number(s)] on a string when the result is an integer; [None] when
      it is [NaN] or has a fraction *)
  StringToNumber : string -> option Z;
  (** [new Date(ms).toISOString()] *)
  toISOString : Z -> string;
  (** the [DOMException] of [atob] on input that is not base64 *)
  atob_error : Exn;
  (** the [TypeError] of reading property [k] of [null] *)
  null_property_error : string -> Exn;
  (** the error of the database on a second row with primary key [k] *)
  unique_constraint_error : string -> Exn;
  (** [Number::toString] on an integer of magnitude [1e21] or more, which
      is printed with an exponent *)
  exponential : Z -> string;
  (** the [TypeError] of [ToPrimitive] on an object that neither
      [toString] nor [valueOf] turns into a primitive *)
  to_primitive_error : Exn
}.

(** ** Conversions to a string *)

(** [xs.map(f)] for an [f] that may throw: the first exception ends it. *)
Definition mapM {A B : Type} (f : A -> result B) : list A -> result (list B) :=
  fix go (l : list A) : result (list B) :=
    match l with
    | [] => ret []
    | x :: l' => do y <- f x; do ys <- go l'; ret (y :: ys)
    end.

Section WithPlatform.
Context `{rt : Platform}.

(** [Number::toString] on an integer, also what a template literal and
    [JSON.stringify] print for it: the decimal digits below [1e21]. *)
Definition NumberToString (n : Z) : string :=
  if Z.abs n <? 10 ^ 21 then pretty n else exponential n.

(** What [String(v)] returns when it returns.  An array prints its
    elements separated by commas, with [null] printed as nothing; an
    object prints as [[object Object]]. *)
Fixpoint toString (v : json) : string :=
  match v with
  | JNull => "null"
  | JBool true => "true"
  | JBool false => "false"
  | JNum n => NumberToString n
  | JStr s => s
  | JArr items =>
      join "," (map (fun e => match e with JNull => "" | _ => toString e end) items)
  | JObj _ => "[object Object]"
  end.

(** [String(v)].  On an object [ToPrimitive] calls [toString] when that
    is callable: [Object.prototype.toString] for an object read from JSON
    text, unless the object has a property of its own under that name,
    which is then no function; [valueOf], tried next, gives no primitive,
    and the conversion throws.  An array is joined by
    [Array.prototype.toString], which converts each element other than
    [null] the same way. *)
Fixpoint JS_String (v : json) : result string :=
  match v with
  | JNull => ret "null"
  | JBool true => ret "true"
  | JBool false => ret "false"
  | JNum n => ret (NumberToString n)
  | JStr s => ret s
  | JArr items =>
      do parts <- mapM (fun e => match e with JNull => ret "" | _ => JS_String e end) items;
      ret (join "," parts)
  | JObj fields =>
      match assoc "toString" fields with
      | Some _ => throw to_primitive_error
      | None => ret "[object Object]"
      end
  end.

End WithPlatform.

(** *** JSON.stringify *)

Definition dquote : ascii := "034"%char.
Definition backslash : ascii := "092"%char.

Definition hexDigit (n : Z) : ascii :=
  if n <? 10 then chr (48 + n) else chr (87 + n).

(** One code unit inside a JSON string literal. *)
Definition quoteChar (c : ascii) : string :=
  let n := code c in
  if n =? 34 then String backslash (String dquote "")
  else if n =? 92 then String backslash (String backslash "")
  else if n =? 8 then String backslash "b"
  else if n =? 12 then String backslash "f"
  else if n =? 10 then String backslash "n"
  else if n =? 13 then String backslash "r"
  else if n =? 9 then String backslash "t"
  else if n <? 32 then
    String backslash ("u00" +:+ String (hexDigit (n / 16)) (String (hexDigit (n mod 16)) ""))
  else String c "".

Fixpoint quoteBody (s : string) : string :=
  match s with
  | EmptyString => EmptyString
  | String c s' => quoteChar c +:+ quoteBody s'
  end.

Definition quote (s : string) : string :=
  String dquote (quoteBody s +:+ String dquote "").

Section WithPlatform.
Context `{rt : Platform}.

Fixpoint JSON_stringify (v : json) : string :=
  match v with
  | JNull => "null"
  | JBool true => "true"
  | JBool false => "false"
  | JNum n => NumberToString n
  | JStr s => quote s
  | JArr items => "[" +:+ join "," (map JSON_stringify items) +:+ "]"
  | JObj fields =>
      "{" +:+ join "," (map (fun kv => quote (fst kv) +:+ ":" +:+ JSON_stringify (snd kv)) fields)
          +:+ "}"
  end.

End WithPlatform.
(** ** Bytes and text *)

(** [new TextEncoder().encode(s)]: UTF-8.  A code unit below [0x80] is one
    byte, one in [0x80..0xFF] two. *)
Definition utf8_char (c : ascii) : list ascii :=
  let n := code c in
  if n <? 128 then [c] else [chr (192 + n / 64); chr (128 + n mod 64)].

Fixpoint utf8_encode (s : string) : list ascii :=
  match s with
  | EmptyString => []
  | String c s' => utf8_char c ++ utf8_encode s'
  end.

(** [b.toString(16).padStart(2, "0")] *)
Definition hexByte (b : ascii) : string :=
  let n := code b in
  String (hexDigit (n / 16)) (String (hexDigit (n mod 16)) "").

Fixpoint hexString (bytes : list ascii) : string :=
  match bytes with
  | [] => ""
  | b :: bytes' => hexByte b +:+ hexString bytes'
  end.

(** ** Base64: btoa and atob *)

Definition b64char (v : Z) : ascii :=
  if v <? 26 then chr (65 + v)
  else if v <? 52 then chr (71 + v)
  else if v <? 62 then chr (v - 4)
  else if v =? 62 then "+"%char
  else "/"%char.

Definition b64val (c : ascii) : option Z :=
  let n := code c in
  if between 65 90 n then Some (n - 65)
  else if between 97 122 n then Some (n - 71)
  else if between 48 57 n then Some (n + 4)
  else if n =? 43 then Some 62
  else if n =? 47 then Some 63
  else None.

(** [btoa(String.fromCharCode(...bytes))]: three bytes make four digits;
    one or two trailing bytes make two or three digits and padding. *)
Fixpoint btoa (bytes : list ascii) : string :=
  match bytes with
  | [] => ""
  | [a] =>
      let n := code a * 16 in
      String (b64char (n / 64)) (String (b64char (n mod 64)) "==")
  | [a; b] =>
      let n := (code a * 256 + code b) * 4 in
      String (b64char (n / 4096)) (String (b64char (n / 64 mod 64))
        (String (b64char (n mod 64)) "="))
  | a :: b :: c :: rest =>
      let n := (code a * 256 + code b) * 256 + code c in
      String (b64char (n / 262144)) (String (b64char (n / 4096 mod 64))
        (String (b64char (n / 64 mod 64)) (String (b64char (n mod 64)) (btoa rest))))
  end.

(** TAB, LF, FF, CR and SP: what [atob] skips. *)
Definition isAsciiWhitespace (c : ascii) : bool :=
  let n := code c in
  (n =? 9) || (n =? 10) || (n =? 12) || (n =? 13) || (n =? 32).

(** One or two [=] at the very end are dropped. *)
Fixpoint dropFinalEquals (s : string) : string :=
  match s with
  | EmptyString => EmptyString
  | String c s' =>
      if Ascii.eqb c "=" && (String.eqb s' "" || String.eqb s' "=") then EmptyString
      else String c (dropFinalEquals s')
  end.

(** They are dropped only when the length is a multiple of four. *)
Definition stripPadding (s : string) : string :=
  if (Z.of_nat (String.length s) mod 4 =? 0) then dropFinalEquals s else s.

Fixpoint b64vals (s : string) : option (list Z) :=
  match s with
  | EmptyString => Some []
  | String c s' =>
      match b64val c, b64vals s' with
      | Some v, Some vs => Some (v :: vs)
      | _, _ => None
      end
  end.

(** Four digits make three bytes; three trailing digits make two bytes
    and two make one, the spare low bits being dropped. *)
Fixpoint b64bytes (vs : list Z) : list ascii :=
  match vs with
  | v0 :: v1 :: v2 :: v3 :: rest =>
      let n := ((v0 * 64 + v1) * 64 + v2) * 64 + v3 in
      chr (n / 65536) :: chr (n / 256 mod 256) :: chr (n mod 256) :: b64bytes rest
  | [v0; v1; v2] =>
      let n := ((v0 * 64 + v1) * 64 + v2) / 4 in
      [chr (n / 256); chr (n mod 256)]
  | [v0; v1] =>
      let n := (v0 * 64 + v1) / 16 in
      [chr n]
  | _ => []
  end.

Section WithPlatform.
Context `{rt : Platform}.

(** [Uint8Array.from(atob(s), c => c.charCodeAt(0))]: the forgiving
    base64 decoding of the HTML standard. *)
Definition atob (s : string) : result (list ascii) :=
  let data := stripPadding (removeAll isAsciiWhitespace s) in
  if (Z.of_nat (String.length data) mod 4 =? 1) then throw atob_error
  else
    match b64vals data with
    | Some vs => ret (b64bytes vs)
    | None => throw atob_error
    end.

(** ** Digests *)

Definition sha256Hex (input : string) : string :=
  hexString (sha256 (utf8_encode input)).

Definition hmacSha256 (secret data : string) : list ascii :=
  hmac (utf8_encode secret) (utf8_encode data).

(** ** Minimal JWT (HMAC SHA-256) *)

Definition b64url (bytes : list ascii) : string :=
  replaceAll "=" "" (replaceAll "/" "_" (replaceAll "+" "-" (btoa bytes))).

Definition b64urlJson (obj : json) : string :=
  b64url (utf8_encode (JSON_stringify obj)).

(** The own enumerable properties an object spread [{...v}] copies. *)
Definition indexed {A : Type} (l : list A) : list (string * A) :=
  imap (fun i x => (pretty (Z.of_nat i), x)) l.

Definition spreadProps (v : json) : list (string * json) :=
  match v with
  | JObj fields => fields
  | JArr items => indexed items
  | JStr s => indexed (map (fun c => JStr (String c "")) (list_ascii_of_string s))
  | _ => []
  end.

(** [Math.floor(Date.now() / 1000)] *)
Definition nowSeconds (now_ms : Z) : Z := now_ms / 1000.

Definition fullPayload (now_ms : Z) (payload : json) (expiresSeconds : Z) : json :=
  let now := nowSeconds now_ms in
  JObj (setProp "exp" (JNum (now + expiresSeconds))
         (setProp "iat" (JNum now) (spreadProps payload))).

Definition jwtHeader : json := JObj [("alg", JStr "HS256"); ("typ", JStr "JWT")].

Definition signJWT (now_ms : Z) (secret : string) (payload : json) (expiresSeconds : Z)
  : string :=
  let part1 := b64urlJson jwtHeader in
  let part2 := b64urlJson (fullPayload now_ms payload expiresSeconds) in
  let toSign := part1 +:+ "." +:+ part2 in
  let sig := hmacSha256 secret toSign in
  toSign +:+ "." +:+ b64url sig.

(** [payload.k]: throws on [null]. *)
Definition getMember (v : json) (k : string) : result (option json) :=
  match v with
  | JNull => throw (null_property_error k)
  | _ => ret (optGet v k)
  end.

(** [null] is [None]. *)
Definition verifyJWT (now_ms : Z) (secret token : string) : result (option json) :=
  match split "." token with
  | [p1; p2; sig] =>
      let toVerify := p1 +:+ "." +:+ p2 in
      let expected := b64url (hmacSha256 secret toVerify) in
      if negb (timingSafeEqual expected sig) then ret None
      else
        do bytes <- atob (replaceAll "_" "/" (replaceAll "-" "+" p2));
        do payload <- JSON_parse (TextDecoder_decode bytes);
        let now := nowSeconds now_ms in
        do exp <- getMember payload "exp";
        match exp with
        | Some (JNum e) => if e <? now then ret None else ret (Some payload)
        | _ => ret None
        end
  | _ => ret None
  end.

End WithPlatform.

(** ** The database *)

(** A row of [invites], keyed by its [id]. *)
Record InviteRow : Type := mkInvite {
  display_name : string;
  norm_name : string;
  allowed_guests : Z;
  message : option string;
  created_at : string
}.

(** A row of [rsvps], keyed by its [invite_id].  [attending] is [1] or
    [0]; [extra_guest_names] is the JSON text of the list of names. *)
Record RsvpRow : Type := mkRsvp {
  primary_name : string;
  attending : Z;
  extra_guest_names : string;
  notes : option string;
  submitted_at : string;
  ip : option string
}.

(** Both tables have their key column as [PRIMARY KEY]: a table is a
    finite map from the key to the other columns. *)
Record DB : Type := mkDB {
  invites : gmap string InviteRow;
  rsvps : gmap string RsvpRow
}.

(** [SELECT ... FROM invites WHERE norm_name = ? LIMIT 1]: one of the rows
    with that normalized name when there is one.  The statement gives no
    order, so which of several rows comes back is the database's choice;
    here it is the first in the order of the map, and the properties
    below only use that it is one of them. *)
Definition selectInviteByNormName (db : DB) (norm : string)
  : option (string * InviteRow) :=
  find (fun kv => String.eqb (norm_name (snd kv)) norm) (map_to_list (invites db)).

(** [SELECT ... FROM invites WHERE id = ? LIMIT 1] *)
Definition selectInviteById (db : DB) (id : string) : option InviteRow :=
  invites db !! id.

(** [INSERT INTO rsvps ... ON CONFLICT(invite_id) DO UPDATE SET] every
    other column to the new value. *)
Definition upsertRsvp (db : DB) (invite_id : string) (row : RsvpRow) : DB :=
  mkDB (invites db) (<[invite_id := row]> (rsvps db)).

Section WithPlatform.
Context `{rt : Platform}.

(** [INSERT INTO invites ...]: fails on an [id] already present. *)
Definition insertInvite (db : DB) (id : string) (row : InviteRow) : result DB :=
  match invites db !! id with
  | Some _ => throw (unique_constraint_error "invites.id")
  | None => ret (mkDB (<[id := row]> (invites db)) (rsvps db))
  end.

End WithPlatform.

(** [DELETE FROM invites WHERE id = ?] then
    [DELETE FROM rsvps WHERE invite_id = ?] *)
Definition deleteInvite (db : DB) (id : string) : DB :=
  mkDB (delete id (invites db)) (delete id (rsvps db)).

(** [ORDER BY i.created_at DESC] *)
Definition newerFirst (a b : string * InviteRow) : Prop :=
  String.le (created_at (snd b)) (created_at (snd a)).

#[export] Instance newerFirst_dec : RelDecision newerFirst.
Proof. intros a b. unfold newerFirst. apply _. Defined.

(** [invites i LEFT JOIN rsvps r ON r.invite_id = i.id ORDER BY i.created_at DESC] *)
Definition selectInvitesWithRsvp (db : DB) : list (string * InviteRow * option RsvpRow) :=
  map (fun kv => (kv, rsvps db !! fst kv)) (merge_sort newerFirst (map_to_list (invites db))).

(** ** Requests and responses *)

Record Env : Type := mkEnv {
  SITE_ORIGIN : string;
  RSVP_TO_EMAIL : string;
  RSVP_FROM_EMAIL : string;
  ADMIN_PASSWORD_SALT : string;
  ADMIN_PASSWORD_HASH : string;
  JWT_SECRET : string;
  RESEND_API_KEY : string
}.

(** The request as the handler reads it: method, [url.pathname],
    [url.searchParams], the three headers it looks at, and the body
    text. *)
Record Request : Type := mkRequest {
  method : string;
  pathname : string;
  searchParams : list (string * string);
  header_Origin : option string;
  header_Authorization : option string;
  header_CF_Connecting_IP : option string;
  body : string
}.

(** What the handler reads from outside the request: [Date.now()] and
    [crypto.randomUUID()]. *)
Record Ambient : Type := mkAmbient {
  now_ms : Z;
  randomUUID : string
}.

Record Response : Type := mkResponse {
  status : Z;
  headers : gmap string string;
  responseBody : option string
}.

(** The values the notification e-mail is rendered from; its subject,
    text and HTML are fixed templates over them.  [mail_additional] is the
    number printed after "Additional guests:", [mail_guest_names] the text
    printed after "Guest names:" when there is one. *)
Record Notification : Type := mkNotification {
  mail_invite : string;
  mail_attending : bool;
  mail_total : Z;
  mail_primary_name : string;
  mail_additional : Z;
  mail_guest_names : option string;
  mail_notes : option string;
  mail_submitted : string;
  mail_ip : option string
}.

(** What one call of [fetch] leaves behind: the response, the database,
    and the tasks handed to [ctx.waitUntil]. *)
Record Outcome : Type := mkOutcome {
  response : Response;
  database : DB;
  background : list Notification
}.

Definition corsHeaders (origin : string) : gmap string string :=
  <["Access-Control-Allow-Origin" := origin]>
    (<["Access-Control-Allow-Methods" := "GET,POST,DELETE,OPTIONS"]>
      (<["Access-Control-Allow-Headers" := "Content-Type, Authorization"]> ∅)).

(** [json(data, { status })]; [json(data)] is [jsonResponse data 200]. *)
Definition jsonResponse `{rt : Platform} (data : json) (st : Z) : Response :=
  mkResponse (if st =? 0 then 200 else st)
             (<["Content-Type" := "application/json"]> ∅)
             (Some (JSON_stringify data)).

Definition errorBody (msg : string) : json := JObj [("error", JStr msg)].

(** [withCors]: every CORS header is set on a copy of the headers. *)
Definition withCors (allowedOrigin : string) (resp : Response) : Response :=
  mkResponse (status resp) (corsHeaders allowedOrigin ∪ headers resp) (responseBody resp).

(** [origin && origin === env.SITE_ORIGIN ? origin : env.SITE_ORIGIN] *)
Definition allowedOriginOf (req : Request) (env : Env) : string :=
  match header_Origin req with
  | Some origin =>
      if nonEmpty origin && String.eqb origin (SITE_ORIGIN env) then origin
      else SITE_ORIGIN env
  | None => SITE_ORIGIN env
  end.

(** ** getBearer *)

Definition isLineTerminator (c : ascii) : bool :=
  let n := code c in (n =? 10) || (n =? 13).

Fixpoint dropStr (n : nat) (s : string) : string :=
  match n, s with
  | O, _ => s
  | S n', String _ s' => dropStr n' s'
  | S _, EmptyString => EmptyString
  end.

Fixpoint existsStr (p : ascii -> bool) (s : string) : bool :=
  match s with
  | EmptyString => false
  | String c s' => p c || existsStr p s'
  end.

(** The white space a string starts with, last code unit first. *)
Fixpoint leadingSpace (acc : list ascii) (s : string) : list ascii :=
  match s with
  | EmptyString => acc
  | String c s' => if isWhiteSpace c then leadingSpace (c :: acc) s' else acc
  end.

(** [h.match(/^Bearer\s+(.+)$/i)]: group 1 when the pattern matches.
    [\s+] takes all the white space after the word; when nothing follows
    it, it gives the last white-space code unit back to the group.  [.]
    matches no line terminator, so one in what is left fails the match. *)
Definition matchBearer (h : string) : option string :=
  if String.eqb (toLowerCase (substring 0 6 h)) "bearer" then
    let rest := dropStr 6 h in
    let tail := trimStart rest in
    match leadingSpace [] rest with
    | [] => None
    | lastSpace :: before =>
        if existsStr isLineTerminator tail then None
        else if nonEmpty tail then Some tail
        else
          match before with
          | [] => None
          | _ :: _ => if isLineTerminator lastSpace then None else Some (String lastSpace "")
          end
    end
  else None.

Definition getBearer (req : Request) : option string :=
  matchBearer (default "" (header_Authorization req)).

(** ** Request fields *)

Section WithPlatform.
Context `{rt : Platform}.

(** What [String(v?.k || "")] returns when it returns. *)
Definition stringField (v : json) (k : string) : string :=
  toString (orEmpty (optGet v k)).

(** What
    [Array.isArray(body?.extraGuestNames)
      ? body.extraGuestNames.map(x => String(x || "").trim()).filter(Boolean) : []]
    returns when it returns. *)
Definition guestNamesField (v : json) : list string :=
  match optGet v "extraGuestNames" with
  | Some (JArr items) =>
      List.filter nonEmpty (map (fun x => trim (toString (orEmpty (Some x)))) items)
  | _ => []
  end.

(** [Array.isArray(body?.extraGuestNames)
      ? body.extraGuestNames.map(x => String(x || "").trim()).filter(Boolean) : []] *)
Definition extraGuestNamesOf (v : json) : result (list string) :=
  match optGet v "extraGuestNames" with
  | Some (JArr items) =>
      do names <- mapM (fun x => do s <- JS_String (orEmpty (Some x)); ret (trim s)) items;
      ret (List.filter nonEmpty names)
  | _ => ret []
  end.

End WithPlatform.

(** [s || null] *)
Definition orNull (s : string) : option string :=
  if nonEmpty s then Some s else None.

(** [req.headers.get("CF-Connecting-IP") || null] *)
Definition clientIp (req : Request) : option string :=
  match header_CF_Connecting_IP req with
  | Some a => orNull a
  | None => None
  end.

(** [url.searchParams.get(k)] *)
Definition searchGet (req : Request) (k : string) : option string :=
  assoc k (searchParams req).

Definition inviteJson (id : string) (row : InviteRow) : json :=
  JObj [("id", JStr id);
        ("displayName", JStr (display_name row));
        ("allowedGuests", JNum (allowed_guests row));
        ("message", jsonOfOption (message row))].

(** ** Routes *)

Section WithPlatform.
Context `{rt : Platform}.

Variable env : Env.
Variable amb : Ambient.
Variable req : Request.

(** [await req.json<any>()] *)
Definition requestJson : result json := JSON_parse (body req).

Definition allowedOrigin : string := allowedOriginOf req env.

(** A handler's normal return. *)
Definition respond (db : DB) (tasks : list Notification) (data : json) (st : Z)
  : result Outcome :=
  ret (mkOutcome (withCors allowedOrigin (jsonResponse data st)) db tasks).

(** *** POST /public/find *)
Definition publicFind (db : DB) : result Outcome :=
  do body <- requestJson;
  do name <- JS_String (orEmpty (optGet body "name"));
  let norm := normalizeName name in
  if negb (nonEmpty norm) then respond db [] (errorBody "Name is required.") 400
  else
    match selectInviteByNormName db norm with
    | None => respond db [] (errorBody "Invite not found. Please check spelling.") 404
    | Some (id, row) => respond db [] (JObj [("invite", inviteJson id row)]) 200
    end.

(** *** GET /public/invite?id=... *)
Definition publicInvite (db : DB) : result Outcome :=
  match searchGet req "id" with
  | Some id =>
      if negb (nonEmpty id) then respond db [] (errorBody "Missing id") 400
      else
        match selectInviteById db id with
        | None => respond db [] (errorBody "Invite not found.") 404
        | Some row => respond db [] (JObj [("invite", inviteJson id row)]) 200
        end
  | None => respond db [] (errorBody "Missing id") 400
  end.

(** *** POST /public/rsvp *)

(** The row written for a submission. *)
Definition rsvpRow (primaryName : string) (attending : bool) (extraGuestNames : list string)
    (notes : option string) (submittedAt : string) (ip : option string) : RsvpRow :=
  mkRsvp primaryName (if attending then 1 else 0)
         (JSON_stringify (JArr (map JStr extraGuestNames))) notes submittedAt ip.

Definition rsvpNotification (inv : InviteRow) (primaryName : string) (attending : bool)
    (extraGuestNames : list string) (notes : option string) (submittedAt : string)
    (ip : option string) : Notification :=
  let n := Z.of_nat (length extraGuestNames) in
  let attendingCount := if attending then 1 + n else 0 in
  mkNotification (display_name inv) attending attendingCount primaryName
    (if attending then n else 0)
    (if attending && negb (n =? 0) then Some (join ", " extraGuestNames) else None)
    notes submittedAt ip.

Definition tooManyGuests (allowed : Z) : string :=
  "This invite allows up to " +:+ NumberToString allowed +:+ " additional guest(s).".

Definition publicRsvp (db : DB) : result Outcome :=
  do body <- requestJson;
  do inviteId <- JS_String (orEmpty (optGet body "inviteId"));
  do primaryName <- JS_String (orEmpty (optGet body "primaryName"));
  let primaryName := trim primaryName in
  let attending := toBoolean (optGet body "attending") in
  do extraGuestNames <- extraGuestNamesOf body;
  do notes <- JS_String (orEmpty (optGet body "notes"));
  let notes := orNull (trim notes) in
  if negb (nonEmpty inviteId) || negb (nonEmpty primaryName)
  then respond db [] (errorBody "Missing required fields.") 400
  else
    match selectInviteById db inviteId with
    | None => respond db [] (errorBody "Invite not found.") 404
    | Some inv =>
        if attending && (allowed_guests inv <? Z.of_nat (length extraGuestNames))
        then respond db [] (errorBody (tooManyGuests (allowed_guests inv))) 400
        else
          let ip := clientIp req in
          let submittedAt := toISOString (now_ms amb) in
          let db' := upsertRsvp db inviteId
                       (rsvpRow primaryName attending extraGuestNames notes submittedAt ip) in
          respond db'
            [rsvpNotification inv primaryName attending extraGuestNames notes submittedAt ip]
            (JObj [("ok", JBool true)]) 200
    end.

(** *** POST /admin/login *)
Definition adminLogin (db : DB) : result Outcome :=
  do body <- requestJson;
  do password <- JS_String (orEmpty (optGet body "password"));
  if negb (nonEmpty password) then respond db [] (errorBody "Password required.") 400
  else
    let computed := sha256Hex (ADMIN_PASSWORD_SALT env +:+ password) in
    if negb (timingSafeEqual computed (ADMIN_PASSWORD_HASH env))
    then respond db [] (errorBody "Invalid password.") 401
    else
      let token := signJWT (now_ms amb) (JWT_SECRET env)
                           (JObj [("role", JStr "admin")]) (60 * 60 * 6) in
      respond db [] (JObj [("token", JStr token)]) 200.

(** *** The auth middleware *)

(** [payload.role !== "admin"] *)
Definition roleIsAdmin (payload : json) : bool :=
  match optGet payload "role" with
  | Some (JStr r) => String.eqb r "admin"
  | _ => false
  end.

Definition requireAdmin : result (option json) :=
  match getBearer req with
  | None => ret None
  | Some tok =>
      if negb (nonEmpty tok) then ret None
      else
        do payload <- verifyJWT (now_ms amb) (JWT_SECRET env) tok;
        match payload with
        | Some p => if negb (truthy p) || negb (roleIsAdmin p) then ret None else ret (Some p)
        | None => ret None
        end
  end.

Definition unauthorized (db : DB) : result Outcome :=
  respond db [] (errorBody "Unauthorized") 401.

(** *** GET /admin/invites *)
Definition listedInvite (r : string * InviteRow * option RsvpRow) : json :=
  let '(id, inv, rsvp) := r in
  JObj [("id", JStr id);
        ("displayName", JStr (display_name inv));
        ("allowedGuests", JNum (allowed_guests inv));
        ("message", jsonOfOption (message inv));
        ("rsvpAttending",
          match rsvp with
          | None => JNull
          | Some row => JNum (if attending row =? 0 then 0 else 1)
          end);
        ("rsvpUpdatedAt",
          match rsvp with
          | None => JNull
          | Some row => jsonOfOption (orNull (submitted_at row))
          end)].

Definition adminListInvites (db : DB) : result Outcome :=
  do admin <- requireAdmin;
  match admin with
  | None => unauthorized db
  | Some _ =>
      respond db [] (JObj [("invites", JArr (map listedInvite (selectInvitesWithRsvp db)))]) 200
  end.

(** *** POST /admin/invites *)

(** [Number(x ?? 0)]: the number when it is an integer, [None] when it
    is [NaN] or has a fraction.  An array or an object is first made a
    primitive, which is its string or throws as for [String]. *)
Definition numberField (x : option json) : result (option Z) :=
  match x with
  | None | Some JNull => ret (Some 0)
  | Some (JNum n) => ret (Some n)
  | Some (JBool b) => ret (Some (if b then 1 else 0))
  | Some (JStr s) => ret (StringToNumber s)
  | Some v => do s <- JS_String v; ret (StringToNumber s)
  end.

(** [x != null ? String(x).trim() : null] *)
Definition messageField (x : option json) : result (option string) :=
  match x with
  | None | Some JNull => ret None
  | Some v => do s <- JS_String v; ret (Some (trim s))
  end.

Definition adminCreateInvite (db : DB) : result Outcome :=
  do admin <- requireAdmin;
  match admin with
  | None => unauthorized db
  | Some _ =>
      do body <- requestJson;
      do displayName <- JS_String (orEmpty (optGet body "displayName"));
      let displayName := trim displayName in
      do allowedGuests <- numberField (optGet body "allowedGuests");
      do message <- messageField (optGet body "message");
      if negb (nonEmpty displayName) then respond db [] (errorBody "displayName required") 400
      else
        match allowedGuests with
        | Some n =>
            if (n <? 0) || (10 <? n)
            then respond db []
                   (errorBody "allowedGuests must be an integer between 0 and 10.") 400
            else
              let id := randomUUID amb in
              let createdAt := toISOString (now_ms amb) in
              let norm := normalizeName displayName in
              do db' <- insertInvite db id (mkInvite displayName norm n message createdAt);
              respond db' []
                (JObj [("invite", JObj [("id", JStr id);
                                        ("displayName", JStr displayName);
                                        ("allowedGuests", JNum n);
                                        ("message", jsonOfOption message)])]) 200
        | None =>
            respond db [] (errorBody "allowedGuests must be an integer between 0 and 10.") 400
        end
  end.

(** *** DELETE /admin/invites?id=... *)
Definition adminDeleteInvite (db : DB) : result Outcome :=
  do admin <- requireAdmin;
  match admin with
  | None => unauthorized db
  | Some _ =>
      match searchGet req "id" with
      | Some id =>
          if negb (nonEmpty id) then respond db [] (errorBody "Missing id") 400
          else respond (deleteInvite db id) [] (JObj [("ok", JBool true)]) 200
      | None => respond db [] (errorBody "Missing id") 400
      end
  end.

(** *** The dispatch inside [try] *)
Definition route (db : DB) : result Outcome :=
  let m := method req in
  let path := pathname req in
  if String.eqb m "POST" && String.eqb path "/public/find" then publicFind db
  else if String.eqb m "GET" && String.eqb path "/public/invite" then publicInvite db
  else if String.eqb m "POST" && String.eqb path "/public/rsvp" then publicRsvp db
  else if String.eqb m "POST" && String.eqb path "/admin/login" then adminLogin db
  else if String.eqb m "GET" && String.eqb path "/admin/invites" then adminListInvites db
  else if String.eqb m "POST" && String.eqb path "/admin/invites" then adminCreateInvite db
  else if String.eqb m "DELETE" && String.eqb path "/admin/invites" then adminDeleteInvite db
  else respond db [] (errorBody "Not found") 404.

(** [e?.message || "Server error"] *)
Definition errorMessage (e : Exn) : string :=
  if nonEmpty (exn_message e) then exn_message e else "Server error".

(** The response built in [catch]. *)
Definition serverError (e : Exn) : Response :=
  mkResponse 500
    (corsHeaders (SITE_ORIGIN env) ∪ <["Content-Type" := "application/json"]> ∅)
    (Some (JSON_stringify (errorBody (errorMessage e)))).

(** *** fetch *)
Definition fetch (db : DB) : Outcome :=
  if String.eqb (method req) "OPTIONS"
  then mkOutcome (mkResponse 200 (corsHeaders allowedOrigin) None) db []
  else
    match route db with
    | inr out => out
    | inl e => mkOutcome (serverError e) db []
    end.

End WithPlatform.

(** ** A runtime to run the embedding on

    The theorems below hold for every [Platform].  To evaluate the handler
    on concrete requests one instance is given here: a UTF-8 decoder and a
    JSON parser for the repertoire of the embedding, ISO-8601 formatting,
    and simple byte functions standing in for the two digests (the
    properties proved never depend on which functions the digests are). *)
Module Reference.

(** *** Text decoding *)

(** One- and two-byte sequences for code units below [0x100]; [?] for any
    byte sequence that encodes something else. *)
Fixpoint utf8_decode (bytes : list ascii) : string :=
  match bytes with
  | [] => ""
  | b :: rest =>
      let n := code b in
      if n <? 128 then String b (utf8_decode rest)
      else
        match rest with
        | b2 :: rest' =>
            if between 194 195 n && between 128 191 (code b2)
            then String (chr ((n - 192) * 64 + (code b2 - 128))) (utf8_decode rest')
            else String "?" (utf8_decode rest)
        | [] => "?"
        end
  end.

(** *** JSON parsing *)

Definition isJsonSpace (c : ascii) : bool :=
  let n := code c in (n =? 32) || (n =? 9) || (n =? 10) || (n =? 13).

Fixpoint skipSpace (s : string) : string :=
  match s with
  | String c s' => if isJsonSpace c then skipSpace s' else s
  | EmptyString => EmptyString
  end.

Definition isDigit (c : ascii) : bool := between 48 57 (code c).

Fixpoint parseDigits (acc : Z) (s : string) : Z * string :=
  match s with
  | String c s' => if isDigit c then parseDigits (acc * 10 + (code c - 48)) s' else (acc, s)
  | EmptyString => (acc, s)
  end.

Definition hexVal (c : ascii) : option Z :=
  let n := code c in
  if between 48 57 n then Some (n - 48)
  else if between 97 102 n then Some (n - 87)
  else if between 65 70 n then Some (n - 55)
  else None.

(** The body of a string literal, after the opening quote.  [acc] holds
    the code units read so far, last first. *)
Fixpoint parseStringBody (acc : string) (s : string) : option (string * string) :=
  match s with
  | EmptyString => None
  | String c s' =>
      if Ascii.eqb c dquote then Some (String.rev acc, s')
      else if Ascii.eqb c backslash then
        match s' with
        | String e s'' =>
            if Ascii.eqb e "u" then
              match s'' with
              | String h1 (String h2 (String h3 (String h4 s3))) =>
                  match hexVal h1, hexVal h2, hexVal h3, hexVal h4 with
                  | Some 0, Some 0, Some x, Some y =>
                      parseStringBody (String (chr (x * 16 + y)) acc) s3
                  | _, _, _, _ => None
                  end
              | _ => None
              end
            else
              let unescaped :=
                if Ascii.eqb e dquote then Some dquote
                else if Ascii.eqb e backslash then Some backslash
                else if Ascii.eqb e "/" then Some "/"%char
                else if Ascii.eqb e "b" then Some (chr 8)
                else if Ascii.eqb e "f" then Some (chr 12)
                else if Ascii.eqb e "n" then Some (chr 10)
                else if Ascii.eqb e "r" then Some (chr 13)
                else if Ascii.eqb e "t" then Some (chr 9)
                else None in
              match unescaped with
              | Some u => parseStringBody (String u acc) s''
              | None => None
              end
        | EmptyString => None
        end
      else if code c <? 32 then None
      else parseStringBody (String c acc) s'
  end.

Definition startsWith (p s : string) : option string :=
  if String.prefix p s then Some (dropStr (String.length p) s) else None.

(** A value, then the rest of the text.  [parseElements] reads an array
    after its first element, [parseMembers] an object after its first
    member. *)
Fixpoint parseValue (fuel : nat) (s : string) : option (json * string) :=
  match fuel with
  | O => None
  | S fuel' =>
      match skipSpace s with
      | String "n" _ => option_map (pair JNull) (startsWith "null" (skipSpace s))
      | String "t" _ => option_map (pair (JBool true)) (startsWith "true" (skipSpace s))
      | String "f" _ => option_map (pair (JBool false)) (startsWith "false" (skipSpace s))
      | String "[" r =>
          match skipSpace r with
          | String "]" r' => Some (JArr [], r')
          | _ =>
              match parseValue fuel' r with
              | Some (v, r') => parseElements fuel' [v] r'
              | None => None
              end
          end
      | String "{" r =>
          match skipSpace r with
          | String "}" r' => Some (JObj [], r')
          | _ => parseMembers fuel' [] r
          end
      | String c r =>
          if Ascii.eqb c dquote then
            option_map (fun p => (JStr (fst p), snd p)) (parseStringBody "" r)
          else if Ascii.eqb c "-" then
            match r with
            | String d _ =>
                if isDigit d then let '(n, r') := parseDigits 0 r in Some (JNum (- n), r')
                else None
            | EmptyString => None
            end
          else if isDigit c then
            let '(n, r') := parseDigits 0 (String c r) in Some (JNum n, r')
          else None
      | EmptyString => None
      end
  end
with parseElements (fuel : nat) (acc : list json) (s : string) : option (json * string) :=
  match fuel with
  | O => None
  | S fuel' =>
      match skipSpace s with
      | String "]" r => Some (JArr (rev acc), r)
      | String "," r =>
          match parseValue fuel' r with
          | Some (v, r') => parseElements fuel' (v :: acc) r'
          | None => None
          end
      | _ => None
      end
  end
with parseMembers (fuel : nat) (acc : list (string * json)) (s : string)
  : option (json * string) :=
  match fuel with
  | O => None
  | S fuel' =>
      match skipSpace s with
      | String c r =>
          if Ascii.eqb c dquote then
            match parseStringBody "" r with
            | Some (k, r1) =>
                match skipSpace r1 with
                | String ":" r2 =>
                    match parseValue fuel' r2 with
                    | Some (v, r3) =>
                        match skipSpace r3 with
                        | String "}" r4 => Some (JObj (setProp k v acc), r4)
                        | String "," r4 => parseMembers fuel' (setProp k v acc) r4
                        | _ => None
                        end
                    | None => None
                    end
                | _ => None
                end
            | None => None
            end
          else None
      | EmptyString => None
      end
  end.

Definition syntaxError : Exn :=
  mkExn "SyntaxError" "Unexpected token in JSON" "SyntaxError: Unexpected token in JSON".

Definition parse (text : string) : result json :=
  match parseValue (S (String.length text)) text with
  | Some (v, r) => if nonEmpty (skipSpace r) then throw syntaxError else ret v
  | None => throw syntaxError
  end.

(** *** Number(s) *)

Fixpoint allDigits (s : string) : bool :=
  match s with
  | EmptyString => true
  | String c s' => isDigit c && allDigits s'
  end.

(** Decimal integers, with a sign and surrounding white space; the empty
    string is [0]. *)
Definition stringToNumber (s : string) : option Z :=
  match trim s with
  | EmptyString => Some 0
  | String "-" r => if nonEmpty r && allDigits r then Some (- fst (parseDigits 0 r)) else None
  | String "+" r => if nonEmpty r && allDigits r then Some (fst (parseDigits 0 r)) else None
  | r => if allDigits r then Some (fst (parseDigits 0 r)) else None
  end.

(** *** Date.prototype.toISOString *)

Definition pad (width : nat) (n : Z) : string :=
  let digits := pretty n in
  String.rev (substring 0 width (String.rev digits +:+ "000")).

(** Year, month and day of a day number counted from 1970-01-01. *)
Definition civil (days : Z) : Z * Z * Z :=
  let z := days + 719468 in
  let era := z / 146097 in
  let doe := z - era * 146097 in
  let yoe := (doe - doe / 1460 + doe / 36524 - doe / 146096) / 365 in
  let doy := doe - (365 * yoe + yoe / 4 - yoe / 100) in
  let mp := (5 * doy + 2) / 153 in
  let d := doy - (153 * mp + 2) / 5 + 1 in
  let m := if mp <? 10 then mp + 3 else mp - 9 in
  let y := yoe + era * 400 + (if m <=? 2 then 1 else 0) in
  (y, m, d).

(** For the years 0000 to 9999. *)
Definition isoString (ms : Z) : string :=
  let days := ms / 86400000 in
  let r := ms mod 86400000 in
  let '(y, m, d) := civil days in
  pad 4 y +:+ "-" +:+ pad 2 m +:+ "-" +:+ pad 2 d +:+ "T"
    +:+ pad 2 (r / 3600000) +:+ ":" +:+ pad 2 (r / 60000 mod 60) +:+ ":"
    +:+ pad 2 (r / 1000 mod 60) +:+ "." +:+ pad 3 (r mod 1000) +:+ "Z".

(** *** Numbers printed with an exponent *)

Fixpoint dropZeros (s : string) : string :=
  match s with
  | String "0" s' => dropZeros s'
  | _ => s
  end.

(** The digits of the integer without its final zeros, a point after the
    first, and the exponent: [1e+21] for [10 ^ 21].  These are the digits
    JavaScript prints when the integer has at most seventeen significant
    ones. *)
Definition exponentForm (n : Z) : string :=
  let digits := pretty (Z.abs n) in
  let significant := String.rev (dropZeros (String.rev digits)) in
  let exponent := Z.of_nat (String.length digits) - 1 in
  (if n <? 0 then "-" else "")
    +:+ match significant with
        | String d EmptyString => String d ""
        | String d rest => String d ("." +:+ rest)
        | EmptyString => "0"
        end
    +:+ "e+" +:+ pretty exponent.

(** *** Digest stand-ins *)

(** Thirty-two bytes computed from the input; not SHA-256. *)
Definition digest (bytes : list ascii) : list ascii :=
  let sum := fold_left (fun acc b => (acc * 31 + code b + 7) mod 4294967296) bytes 1 in
  map (fun i => chr ((sum / (Z.of_nat i + 1) + Z.of_nat i * 37) mod 256)) (seq 0 32).

Definition keyedDigest (key data : list ascii) : list ascii :=
  digest (key ++ chr 0 :: data).

#[export] Instance platform : Platform := {|
  sha256 := digest;
  hmac := keyedDigest;
  TextDecoder_decode := utf8_decode;
  JSON_parse := parse;
  StringToNumber := stringToNumber;
  toISOString := isoString;
  atob_error :=
    mkExn "InvalidCharacterError" "atob() called with invalid base64-encoded data."
          "InvalidCharacterError: atob() called with invalid base64-encoded data.";
  null_property_error := fun k =>
    mkExn "TypeError" ("Cannot read properties of null (reading '" +:+ k +:+ "')")
          ("TypeError: Cannot read properties of null (reading '" +:+ k +:+ "')");
  unique_constraint_error := fun k =>
    mkExn "Error" ("D1_ERROR: UNIQUE constraint failed: " +:+ k)
          ("Error: D1_ERROR: UNIQUE constraint failed: " +:+ k);
  exponential := exponentForm;
  to_primitive_error :=
    mkExn "TypeError" "Cannot convert object to primitive value"
          "TypeError: Cannot convert object to primitive value"
|}.

End Reference.

(** ** Notions used to state and prove the properties *)

(** The base64 digits of a byte sequence, as numbers below 64 and without
    padding. *)
Fixpoint sextets (bytes : list ascii) : list Z :=
  match bytes with
  | [] => []
  | [a] =>
      let n := code a * 16 in
      [n / 64; n mod 64]
  | [a; b] =>
      let n := (code a * 256 + code b) * 4 in
      [n / 4096; n / 64 mod 64; n mod 64]
  | a :: b :: c :: rest =>
      let n := (code a * 256 + code b) * 256 + code c in
      n / 262144 :: n / 4096 mod 64 :: n / 64 mod 64 :: n mod 64 :: sextets rest
  end.

(** The padding [btoa] ends with. *)
Definition padding (bytes : list ascii) : string :=
  match (length bytes mod 3)%nat with
  | 1%nat => "=="
  | 2%nat => "="
  | _ => ""
  end.

(** The text made of one code unit per digit. *)
Fixpoint digitString (f : Z -> ascii) (vs : list Z) : string :=
  match vs with
  | [] => ""
  | v :: vs' => String (f v) (digitString f vs')
  end.

(** The URL-safe alphabet. *)
Definition urlchar (v : Z) : ascii :=
  if v =? 62 then "-"%char else if v =? 63 then "_"%char else b64char v.

(** What the three replacements of [b64url] make of one code unit. *)
Definition toUrl (c : ascii) : string :=
  if Ascii.eqb c "+" then "-"
  else if Ascii.eqb c "/" then "_"
  else if Ascii.eqb c "=" then ""
  else String c "".

(** What the two replacements of [verifyJWT] make of one code unit. *)
Definition fromUrl (c : ascii) : ascii :=
  if Ascii.eqb c "-" then "+"%char
  else if Ascii.eqb c "_" then "/"%char
  else c.

Definition allSextets : list Z := map Z.of_nat (seq 0 64).

Definition isSextet (v : Z) : Prop := 0 <= v < 64.

Fixpoint allStr (p : ascii -> bool) (s : string) : bool :=
  match s with
  | EmptyString => true
  | String c s' => p c && allStr p s'
  end.

(** A code unit of the URL-safe alphabet. *)
Definition isUrlChar (c : ascii) : bool :=
  let n := code c in
  between 65 90 n || between 97 122 n || between 48 57 n || (n =? 45) || (n =? 95).

(** [String(v)] returns: no object with a [toString] property of its own
    is met on the way. *)
Fixpoint converts (v : json) : bool :=
  match v with
  | JArr items => forallb converts items
  | JObj fields =>
      match assoc "toString" fields with
      | Some _ => false
      | None => true
      end
  | _ => true
  end.

(** Every element of [extraGuestNames] converts. *)
Definition guestNamesConvert (v : json) : bool :=
  match optGet v "extraGuestNames" with
  | Some (JArr items) => forallb (fun x => converts (orEmpty (Some x))) items
  | _ => true
  end.

(** The four conversions [POST /public/rsvp] starts with return. *)
Definition rsvpConverts (v : json) : bool :=
  converts (orEmpty (optGet v "inviteId"))
  && converts (orEmpty (optGet v "primaryName"))
  && guestNamesConvert v
  && converts (orEmpty (optGet v "notes")).

Section WithPlatform.
Context `{rt : Platform}.

(** The row [POST /public/rsvp] writes for a request whose body parsed to
    [parsed]. *)
Definition submittedRow (amb : Ambient) (req : Request) (parsed : json) : RsvpRow :=
  rsvpRow (trim (stringField parsed "primaryName"))
          (toBoolean (optGet parsed "attending"))
          (guestNamesField parsed)
          (orNull (trim (stringField parsed "notes")))
          (toISOString (now_ms amb))
          (clientIp req).

(** An accepted submission for invitation [id]: a [POST /public/rsvp]
    whose body parsed to [parsed], naming [id], answered with status 200. *)
Definition acceptedRsvp (env : Env) (amb : Ambient) (req : Request) (db : DB)
    (id : string) (parsed : json) : Prop :=
  method req = "POST" /\ pathname req = "/public/rsvp"
  /\ JSON_parse (body req) = inr parsed
  /\ stringField parsed "inviteId" = id
  /\ status (response (fetch env amb req db)) = 200.

(** The database after a list of requests served one after the other. *)
Fixpoint serve (env : Env) (steps : list (Ambient * Request)) (db : DB) : DB :=
  match steps with
  | [] => db
  | (amb, req) :: rest => serve env rest (database (fetch env amb req db))
  end.

(** Why the auth middleware turns a request away. *)
Inductive TokenRejected (env : Env) (amb : Ambient) (req : Request) : Prop :=
| token_missing :
    getBearer req = None ->
    TokenRejected env amb req
| token_malformed tok :
    getBearer req = Some tok ->
    length (split "." tok) <> 3%nat ->
    TokenRejected env amb req
| token_tampered tok p1 p2 sig :
    getBearer req = Some tok ->
    split "." tok = [p1; p2; sig] ->
    sig <> b64url (hmacSha256 (JWT_SECRET env) (p1 +:+ "." +:+ p2)) ->
    TokenRejected env amb req
| token_expired tok p1 p2 sig bytes payload e :
    getBearer req = Some tok ->
    split "." tok = [p1; p2; sig] ->
    atob (replaceAll "_" "/" (replaceAll "-" "+" p2)) = inr bytes ->
    JSON_parse (TextDecoder_decode bytes) = inr payload ->
    optGet payload "exp" = Some (JNum e) ->
    e < nowSeconds (now_ms amb) ->
    TokenRejected env amb req.

(** A request for one of the three protected routes. *)
Definition protectedRoute (req : Request) : Prop :=
  pathname req = "/admin/invites"
  /\ (method req = "GET" \/ method req = "POST" \/ method req = "DELETE").

End WithPlatform.


(** The names in the [extra_guest_names] column of a row, when the column
    holds the JSON text of [names]. *)
Definition storesGuestNames `{rt : Platform} (row : RsvpRow) (names : list string) : Prop :=
  extra_guest_names row = JSON_stringify (JArr (map JStr names)).

(** ** Concrete requests

    An environment, a database with two invitations, and the requests the
    evaluations below run, all on the [Reference] runtime. *)
Module Scenario.

Definition rt : Platform := Reference.platform.

#[local] Existing Instance rt.

Definition env : Env := {|
  SITE_ORIGIN := "https://wedding.example";
  RSVP_TO_EMAIL := "couple@wedding.example";
  RSVP_FROM_EMAIL := "rsvp@wedding.example";
  ADMIN_PASSWORD_SALT := "salt";
  ADMIN_PASSWORD_HASH := sha256Hex (rt := rt) "saltcorrect horse";
  JWT_SECRET := "secret";
  RESEND_API_KEY := "re_key"
|}.

Definition amb : Ambient := {|
  now_ms := 1700000000000;
  randomUUID := "7c9e6679-7425-40de-944b-e07fc1f90ae7"
|}.

(** [inv-1] allows two extra guests, [inv-0] none. *)
Definition db : DB := {|
  invites :=
    <["inv-1" := mkInvite "John Smith" "john smith" 2 None "2023-11-01T10:00:00.000Z"]>
      (<["inv-0" := mkInvite "Mary Jones" "mary jones" 0 None "2023-11-02T10:00:00.000Z"]> ∅);
  rsvps := ∅
|}.

Definition post (path : string) (data : json) : Request := {|
  method := "POST";
  pathname := path;
  searchParams := [];
  header_Origin := Some "https://wedding.example";
  header_Authorization := None;
  header_CF_Connecting_IP := Some "203.0.113.7";
  body := JSON_stringify data
|}.

Definition rsvpBody (inviteId primaryName : string) (attending : bool) (names : list string)
  : json :=
  JObj [("inviteId", JStr inviteId);
        ("primaryName", JStr primaryName);
        ("attending", JBool attending);
        ("extraGuestNames", JArr (map JStr names))].

(** A guest declines and still sends a name. *)
Definition declineWithName : Request :=
  post "/public/rsvp" (rsvpBody "inv-1" "John Smith" false ["Jane Smith"]).

(** A guest whose invitation allows nobody else declines and sends a name. *)
Definition declineBeyondAllowance : Request :=
  post "/public/rsvp" (rsvpBody "inv-0" "Mary Jones" false ["Guest One"]).

(** Three names for an invitation that allows two, and a blank primary
    name. *)
Definition threeNamesNoPrimary : Request :=
  post "/public/rsvp" (rsvpBody "inv-1" "   " true ["Jane Smith"; "Joe Smith"; "Jim Smith"]).

(** Three names for an invitation that allows two. *)
Definition threeNames : Request :=
  post "/public/rsvp" (rsvpBody "inv-1" "John Smith" true ["Jane Smith"; "Joe Smith"; "Jim Smith"]).

(** The same three names, and a [notes] object that [String] cannot
    convert. *)
Definition threeNamesObjectNotes : Request :=
  post "/public/rsvp"
    (JObj [("inviteId", JStr "inv-1");
           ("primaryName", JStr "John Smith");
           ("attending", JBool true);
           ("extraGuestNames", JArr [JStr "Jane Smith"; JStr "Joe Smith"; JStr "Jim Smith"]);
           ("notes", JObj [("toString", JNum 1)])]).

(** A first answer, and a later one that changes every field. *)
Definition firstAnswer : Request :=
  post "/public/rsvp" (rsvpBody "inv-1" "John Smith" true ["Jane Smith"; "Joe Smith"]).

Definition secondAnswer : Request := {|
  method := "POST";
  pathname := "/public/rsvp";
  searchParams := [];
  header_Origin := Some "https://wedding.example";
  header_Authorization := None;
  header_CF_Connecting_IP := Some "198.51.100.9";
  body := JSON_stringify
            (JObj [("inviteId", JStr "inv-1");
                   ("primaryName", JStr "Johnny Smith");
                   ("attending", JBool false);
                   ("extraGuestNames", JArr []);
                   ("notes", JStr "Sorry, away that week")])
|}.


(** A search made between the two answers. *)
Definition search : Request := post "/public/find" (JObj [("name", JStr "john   SMITH")]).

Definition later : Ambient := {|
  now_ms := 1700000600000;
  randomUUID := "0f8fad5b-d9cb-469f-a165-70867728950e"
|}.

(** A body that is not JSON. *)
Definition brokenBody : Request := {|
  method := "POST";
  pathname := "/public/find";
  searchParams := [];
  header_Origin := Some "https://wedding.example";
  header_Authorization := None;
  header_CF_Connecting_IP := None;
  body := "{name: John"
|}.

Definition wrongPassword : Request :=
  post "/admin/login" (JObj [("password", JStr "guess")]).

Definition withAuthorization (m : string) (authorization : option string) : Request := {|
  method := m;
  pathname := "/admin/invites";
  searchParams := [];
  header_Origin := Some "https://wedding.example";
  header_Authorization := authorization;
  header_CF_Connecting_IP := None;
  body := ""
|}.

(** No [Authorization] header. *)
Definition listWithoutToken : Request := withAuthorization "GET" None.

(** A token issued ten seconds before it expires. *)
Definition issued_ms : Z := 1700000000000.

Definition adminClaims : json := JObj [("role", JStr "admin")].

Definition token : string := signJWT (rt := rt) issued_ms "secret" adminClaims 10.

(** A token issued long before [amb]. *)
Definition staleToken : string := signJWT (rt := rt) 1600000000000 "secret" adminClaims 21600.

Definition listWithStaleToken : Request :=
  withAuthorization "GET" (Some ("Bearer " +:+ staleToken)).

(** The administrator, with a token issued at [amb]. *)
Definition adminToken : string := signJWT (rt := rt) (now_ms amb) "secret" adminClaims 21600.

Definition asAdmin (m : string) (query : list (string * string)) (data : json) : Request := {|
  method := m;
  pathname := "/admin/invites";
  searchParams := query;
  header_Origin := Some "https://wedding.example";
  header_Authorization := Some ("Bearer " +:+ adminToken);
  header_CF_Connecting_IP := None;
  body := JSON_stringify data
|}.

Definition createInvite (allowedGuests : Z) : Request :=
  asAdmin "POST" [] (JObj [("displayName", JStr "John Smith");
                           ("allowedGuests", JNum allowedGuests)]).

Definition emptyDb : DB := mkDB ∅ ∅.

End Scenario.

(** ** escapeHtml *)

Definition apostrophe : ascii := "039"%char.

Definition escapeHtml (s : string) : string :=
  replaceAll apostrophe "&#039;"
    (replaceAll dquote "&quot;"
       (replaceAll ">" "&gt;"
          (replaceAll "<" "&lt;"
             (replaceAll "&" "&amp;" s)))).

(** ** Further notions used to state the properties *)

(** The code units HTML gives a meaning to, other than [&]. *)
Definition isMarkup (c : ascii) : bool :=
  Ascii.eqb c "<" || Ascii.eqb c ">" || Ascii.eqb c dquote || Ascii.eqb c apostrophe.

Definition isHexDigit (c : ascii) : bool :=
  let n := code c in between 48 57 n || between 97 102 n.

(** A code unit a normalized name is made of: a letter, a number or the
    space. *)
Definition isNameChar (c : ascii) : bool :=
  Ascii.eqb c " " || isLetter c || isNumber c.

(** No space follows a space; [afterSpace] tells that the code unit before
    the string was one. *)
Fixpoint singleSpaced (afterSpace : bool) (s : string) : bool :=
  match s with
  | EmptyString => true
  | String c s' =>
      if Ascii.eqb c " " then negb afterSpace && singleSpaced true s'
      else singleSpaced false s'
  end.

(** The first code unit is not white space. *)
Definition startsBlack (s : string) : bool :=
  match s with
  | EmptyString => false
  | String c _ => negb (isWhiteSpace c)
  end.

(** What the create handler guarantees of a row of [invites]. *)
Definition wellFormedInvite (row : InviteRow) : Prop :=
  nonEmpty (display_name row) = true
  /\ norm_name row = normalizeName (display_name row)
  /\ 0 <= allowed_guests row <= 10.

Definition wellFormedInvites (db : DB) : Prop :=
  forall id row, invites db !! id = Some row -> wellFormedInvite row.

(** Every answer belongs to an invitation. *)
Definition answersHaveInvites (db : DB) : Prop :=
  forall id, is_Some (rsvps db !! id) -> is_Some (invites db !! id).

Section WithPlatform.
Context `{rt : Platform}.

(** The ways one request changes the database and schedules work: not at
    all; an answer written for an existing invitation, with its
    notification; an invitation inserted under a fresh identifier by an
    administrator; an invitation and its answer deleted by an
    administrator. *)
Inductive Change (env : Env) (amb : Ambient) (req : Request) (db : DB)
  : DB -> list Notification -> Prop :=
| change_nothing :
    Change env amb req db db []
| change_answer parsed inv :
    method req = "POST" -> pathname req = "/public/rsvp" ->
    JSON_parse (body req) = inr parsed ->
    rsvpConverts parsed = true ->
    nonEmpty (stringField parsed "inviteId") = true ->
    nonEmpty (trim (stringField parsed "primaryName")) = true ->
    invites db !! stringField parsed "inviteId" = Some inv ->
    (toBoolean (optGet parsed "attending")
     && (allowed_guests inv <? Z.of_nat (length (guestNamesField parsed)))) = false ->
    Change env amb req db
      (upsertRsvp db (stringField parsed "inviteId") (submittedRow amb req parsed))
      [rsvpNotification inv (trim (stringField parsed "primaryName"))
         (toBoolean (optGet parsed "attending")) (guestNamesField parsed)
         (orNull (trim (stringField parsed "notes")))
         (toISOString (now_ms amb)) (clientIp req)]
| change_create admin row :
    method req = "POST" -> pathname req = "/admin/invites" ->
    requireAdmin env amb req = inr (Some admin) ->
    invites db !! randomUUID amb = None ->
    wellFormedInvite row ->
    created_at row = toISOString (now_ms amb) ->
    Change env amb req db
      (mkDB (<[randomUUID amb := row]> (invites db)) (rsvps db)) []
| change_delete admin id :
    method req = "DELETE" -> pathname req = "/admin/invites" ->
    requireAdmin env amb req = inr (Some admin) ->
    searchGet req "id" = Some id ->
    nonEmpty id = true ->
    Change env amb req db (deleteInvite db id) [].

End WithPlatform.

Section WithPlatform.
Context `{rt : Platform}.

(** What a handler that did not throw has done: it answered through
    [json] and [withCors], changed the database in one of the ways of
    [Change], and changed nothing unless the status given was 200. *)
Definition Responded (env : Env) (amb : Ambient) (req : Request) (db : DB)
    (r : result Outcome) : Prop :=
  match r with
  | inl _ => True
  | inr out =>
      exists data st,
        response out = withCors (allowedOrigin env req) (jsonResponse data st)
        /\ Change env amb req db (database out) (background out)
        /\ (st <> 200 -> database out = db /\ background out = [])
  end.

End WithPlatform.

(** The code units [normalizeName] keeps: letters, numbers and white
    space. *)
Definition isKept (c : ascii) : bool := isLetter c || isNumber c || isWhiteSpace c.

(** A code unit [toLowerCase] leaves as it is. *)
Definition isLowered (c : ascii) : bool := Ascii.eqb (lowerChar c) c.

(** [trimEnd] without reversal: a code unit goes when it is white space
    and nothing is left of what follows it. *)
Fixpoint dropEnd (s : string) : string :=
  match s with
  | EmptyString => EmptyString
  | String c s' =>
      match dropEnd s' with
      | EmptyString => if isWhiteSpace c then EmptyString else String c EmptyString
      | r => String c r
      end
  end.

(** The last code unit is not white space. *)
Definition endsBlack (s : string) : bool := nonEmpty s && String.eqb (dropEnd s) s.


(** * Part II: properties *)

(** ** Code units and the 32-bit operators *)

Lemma code_range c : 0 <= code c < 256.
Proof.
  unfold code. pose proof (N_ascii_bounded c). lia.
Qed.

Lemma code_inj c d : code c = code d -> c = d.
Proof.
  unfold code. intros Heq. apply N2Z.inj in Heq.
  rewrite <- (ascii_N_embedding c), <- (ascii_N_embedding d). now f_equal.
Qed.

Lemma ToInt32_small z : 0 <= z < 2 ^ 31 -> ToInt32 z = z.
Proof.
  intros Hz. unfold ToInt32.
  rewrite Z.mod_small; lia.
Qed.

Lemma byte_shiftr x : 0 <= x -> (x < 256 <-> Z.shiftr x 8 = 0).
Proof.
  intros Hx. rewrite Z.shiftr_div_pow2 by lia. change (2 ^ 8) with 256.
  split; intros Hlt.
  - apply Z.div_small. lia.
  - apply Z.div_small_iff in Hlt; lia.
Qed.

Lemma lxor_byte x y : 0 <= x < 256 -> 0 <= y < 256 -> 0 <= Z.lxor x y < 256.
Proof.
  intros Hx Hy.
  assert (H0 : 0 <= Z.lxor x y) by (apply Z.lxor_nonneg; lia).
  split; [exact H0|].
  apply byte_shiftr; [exact H0|].
  rewrite Z.shiftr_lxor.
  rewrite (proj1 (byte_shiftr x ltac:(lia))), (proj1 (byte_shiftr y ltac:(lia))) by lia.
  reflexivity.
Qed.

Lemma lor_byte x y : 0 <= x < 256 -> 0 <= y < 256 -> 0 <= Z.lor x y < 256.
Proof.
  intros Hx Hy.
  assert (H0 : 0 <= Z.lor x y) by (apply Z.lor_nonneg; lia).
  split; [exact H0|].
  apply byte_shiftr; [exact H0|].
  rewrite Z.shiftr_lor.
  rewrite (proj1 (byte_shiftr x ltac:(lia))), (proj1 (byte_shiftr y ltac:(lia))) by lia.
  reflexivity.
Qed.

Lemma js_xor_byte x y :
  0 <= x < 256 -> 0 <= y < 256 -> js_xor x y = Z.lxor x y.
Proof.
  intros Hx Hy. pose proof (lxor_byte x y Hx Hy).
  unfold js_xor. apply ToInt32_small. lia.
Qed.

Lemma js_or_byte x y :
  0 <= x < 256 -> 0 <= y < 256 -> js_or x y = Z.lor x y.
Proof.
  intros Hx Hy. pose proof (lor_byte x y Hx Hy).
  unfold js_or. apply ToInt32_small. lia.
Qed.

(** ** timingSafeEqual *)

Lemma mix_range out c d : 0 <= out < 256 -> 0 <= mix out c d < 256.
Proof.
  intros Hout. unfold mix.
  pose proof (code_range c). pose proof (code_range d).
  rewrite js_xor_byte by assumption.
  pose proof (lxor_byte (code c) (code d)).
  rewrite js_or_byte by auto.
  apply lor_byte; auto.
Qed.

Lemma mix_zero out c d : 0 <= out < 256 -> (mix out c d = 0 <-> out = 0 /\ c = d).
Proof.
  intros Hout. unfold mix.
  pose proof (code_range c). pose proof (code_range d).
  rewrite js_xor_byte by assumption.
  pose proof (lxor_byte (code c) (code d)).
  rewrite js_or_byte by auto.
  rewrite Z.lor_eq_0_iff, Z.lxor_eq_0_iff.
  split; intros [? Hcd]; split; auto.
  - now apply code_inj.
  - now subst.
Qed.

(** The loop moves one code unit down both strings at a time. *)
Lemma timingSafeEqual_loop_step c a d b n out :
  timingSafeEqual_loop (String c a) (String d b) (S n) out
  = timingSafeEqual_loop a b n (mix out c d).
Proof.
  unfold timingSafeEqual_loop.
  rewrite <- cons_seq, <- seq_shift. cbn [fold_left].
  change (js_or out (js_xor (charCodeAt (String c a) 0) (charCodeAt (String d b) 0)))
    with (mix out c d).
  generalize (mix out c d) as acc. generalize (seq 0 n) as l.
  induction l as [|i l IH]; intros acc; [reflexivity|].
  cbn [map fold_left]. apply IH.
Qed.

Lemma timingSafeEqual_loop_zero a : forall b out,
  String.length a = String.length b ->
  0 <= out < 256 ->
  (timingSafeEqual_loop a b (String.length a) out = 0 <-> out = 0 /\ a = b).
Proof.
  induction a as [|c a IH]; intros [|d b] out Hlen Hout; try discriminate.
  - cbn. tauto.
  - cbn [String.length] in *. rewrite timingSafeEqual_loop_step.
    rewrite IH by (try lia; now apply mix_range).
    rewrite mix_zero by assumption.
    split.
    + intros [[-> ->] ->]. auto.
    + intros [-> Heq]. injection Heq as -> ->. auto.
Qed.

Lemma timingSafeEqual_true_iff (a b : string) :
  timingSafeEqual a b = true <-> a = b.
Proof.
  unfold timingSafeEqual.
  destruct (Nat.eqb (String.length a) (String.length b)) eqn:Hlen; cbn [negb].
  - apply Nat.eqb_eq in Hlen.
    rewrite Z.eqb_eq, timingSafeEqual_loop_zero by (auto; lia).
    tauto.
  - apply Nat.eqb_neq in Hlen. split; [discriminate|].
    intros ->. contradiction.
Qed.

Lemma timingSafeEqual_refl a : timingSafeEqual a a = true.
Proof. now apply timingSafeEqual_true_iff. Qed.


(** ** String append and replacement *)

Lemma app_cons c (s t : string) : String c s +:+ t = String c (s +:+ t).
Proof. reflexivity. Qed.

Lemma app_nil_l (t : string) : "" +:+ t = t.
Proof. reflexivity. Qed.

Lemma app_assoc_str (s1 s2 s3 : string) : (s1 +:+ s2) +:+ s3 = s1 +:+ (s2 +:+ s3).
Proof.
  induction s1 as [|c s1 IH]; [reflexivity|].
  rewrite !app_cons. now rewrite IH.
Qed.

Lemma app_empty_r (s : string) : s +:+ "" = s.
Proof.
  induction s as [|c s IH]; [reflexivity|].
  rewrite app_cons. now rewrite IH.
Qed.

Lemma length_app_str (s1 s2 : string) :
  String.length (s1 +:+ s2) = (String.length s1 + String.length s2)%nat.
Proof.
  induction s1 as [|c s1 IH]; [reflexivity|].
  rewrite app_cons. cbn [String.length Nat.add]. now rewrite IH.
Qed.

Lemma replaceAll_app x y s1 s2 :
  replaceAll x y (s1 +:+ s2) = replaceAll x y s1 +:+ replaceAll x y s2.
Proof.
  induction s1 as [|c s1 IH]; [reflexivity|].
  rewrite app_cons. cbn [replaceAll].
  destruct (Ascii.eqb c x); rewrite IH; [now rewrite app_assoc_str | reflexivity].
Qed.

(** ** Base64 *)

Lemma chr_code c : chr (code c) = c.
Proof.
  unfold chr, code. rewrite N2Z.id. apply ascii_N_embedding.
Qed.

Lemma code_chr n : 0 <= n < 256 -> code (chr n) = n.
Proof.
  intros Hn. unfold chr, code.
  rewrite N_ascii_embedding by lia. lia.
Qed.

(** Induction three bytes at a time. *)
Lemma list_ind3 {A : Type} (P : list A -> Prop) :
  P [] ->
  (forall a, P [a]) ->
  (forall a b, P [a; b]) ->
  (forall a b c rest, P rest -> P (a :: b :: c :: rest)) ->
  forall l, P l.
Proof.
  intros H0 H1 H2 H3.
  assert (Hall : forall l, P l /\ (forall a, P (a :: l)) /\ (forall a b, P (a :: b :: l))).
  { induction l as [|x l (IH0 & IH1 & IH2)]; [now auto|].
    repeat split; auto. }
  intros l. apply Hall.
Qed.

(** A property checked on the sixty-four digits holds of every digit. *)
Lemma sextet_forall (p : Z -> bool) :
  forallb p allSextets = true -> forall v, isSextet v -> p v = true.
Proof.
  intros Hall v Hv. rewrite forallb_forall in Hall.
  apply Hall. unfold allSextets. apply in_map_iff.
  exists (Z.to_nat v). split; [unfold isSextet in Hv; lia|].
  apply in_seq. unfold isSextet in Hv. lia.
Qed.

Lemma sextets_range bytes : Forall isSextet (sextets bytes).
Proof.
  induction bytes as [|a|a b|a b c rest IH] using list_ind3; cbn [sextets].
  - constructor.
  - pose proof (code_range a).
    repeat (apply List.Forall_cons; [unfold isSextet|]); try apply List.Forall_nil;
      first [ apply Z.mod_pos_bound; lia
            | split; [apply Z.div_pos; lia | apply Z.div_lt_upper_bound; lia] ].
  - pose proof (code_range a). pose proof (code_range b).
    repeat (apply List.Forall_cons; [unfold isSextet|]); try apply List.Forall_nil;
      first [ apply Z.mod_pos_bound; lia
            | split; [apply Z.div_pos; lia | apply Z.div_lt_upper_bound; lia] ].
  - pose proof (code_range a). pose proof (code_range b). pose proof (code_range c).
    repeat (apply List.Forall_cons; [unfold isSextet|]); try exact IH;
      first [ apply Z.mod_pos_bound; lia
            | split; [apply Z.div_pos; lia | apply Z.div_lt_upper_bound; lia] ].
Qed.

Lemma padding_step {a b c : ascii} rest : padding (a :: b :: c :: rest) = padding rest.
Proof.
  unfold padding. cbn [length].
  replace (S (S (S (length rest)))) with (length rest + 1 * 3)%nat by lia.
  now rewrite Nat.Div0.mod_add.
Qed.

Lemma btoa_digits bytes :
  btoa bytes = digitString b64char (sextets bytes) +:+ padding bytes.
Proof.
  induction bytes as [|a|a b|a b c rest IH] using list_ind3.
  - reflexivity.
  - reflexivity.
  - reflexivity.
  - cbn [btoa sextets digitString]. rewrite IH, !app_cons, padding_step.
    reflexivity.
Qed.

Lemma length_digitString f vs : String.length (digitString f vs) = length vs.
Proof.
  induction vs as [|v vs IH]; cbn; [reflexivity | now rewrite IH].
Qed.

(** *** The three replacements of b64url, one code unit at a time *)

Lemma b64url_replacements_cons c s :
  replaceAll "=" "" (replaceAll "/" "_" (replaceAll "+" "-" (String c s)))
  = toUrl c +:+ replaceAll "=" "" (replaceAll "/" "_" (replaceAll "+" "-" s)).
Proof.
  unfold toUrl. cbn [replaceAll].
  destruct (Ascii.eqb c "+") eqn:Hplus; [reflexivity|].
  cbn [replaceAll].
  destruct (Ascii.eqb c "/") eqn:Hslash; [reflexivity|].
  cbn [replaceAll].
  destruct (Ascii.eqb c "="); reflexivity.
Qed.

Lemma toUrl_b64char v : isSextet v -> toUrl (b64char v) = String (urlchar v) "".
Proof.
  intros Hv. apply String.eqb_eq.
  apply (sextet_forall (fun v => String.eqb (toUrl (b64char v)) (String (urlchar v) ""))); auto.
Qed.

Lemma b64url_replacements_digits vs pad :
  Forall isSextet vs ->
  replaceAll "=" "" (replaceAll "/" "_" (replaceAll "+" "-" (digitString b64char vs +:+ pad)))
  = digitString urlchar vs
    +:+ replaceAll "=" "" (replaceAll "/" "_" (replaceAll "+" "-" pad)).
Proof.
  induction 1 as [|v vs Hv _ IH]; [reflexivity|].
  cbn [digitString]. rewrite app_cons.
  rewrite b64url_replacements_cons, toUrl_b64char, IH by assumption.
  reflexivity.
Qed.

Lemma verify_replacements_cons c s :
  replaceAll "_" "/" (replaceAll "-" "+" (String c s))
  = String (fromUrl c) (replaceAll "_" "/" (replaceAll "-" "+" s)).
Proof.
  unfold fromUrl. cbn [replaceAll].
  destruct (Ascii.eqb c "-") eqn:Hminus; [reflexivity|].
  cbn [replaceAll].
  destruct (Ascii.eqb c "_"); reflexivity.
Qed.

Lemma fromUrl_urlchar v : isSextet v -> fromUrl (urlchar v) = b64char v.
Proof.
  intros Hv. apply Ascii.eqb_eq.
  apply (sextet_forall (fun v => Ascii.eqb (fromUrl (urlchar v)) (b64char v))); auto.
Qed.

Lemma verify_replacements_digits vs :
  Forall isSextet vs ->
  replaceAll "_" "/" (replaceAll "-" "+" (digitString urlchar vs)) = digitString b64char vs.
Proof.
  induction 1 as [|v vs Hv _ IH]; [reflexivity|].
  cbn [digitString].
  now rewrite verify_replacements_cons, fromUrl_urlchar, IH.
Qed.

(** *** atob on unpadded digits *)

Lemma b64char_plain v :
  isSextet v ->
  isAsciiWhitespace (b64char v) = false
  /\ Ascii.eqb (b64char v) "=" = false
  /\ b64val (b64char v) = Some v.
Proof.
  intros Hv.
  pose proof (sextet_forall
    (fun v => negb (isAsciiWhitespace (b64char v))
              && negb (Ascii.eqb (b64char v) "=")
              && match b64val (b64char v) with Some w => w =? v | None => false end)
    eq_refl v Hv) as Hp.
  cbv beta in Hp.
  destruct (isAsciiWhitespace (b64char v)); [discriminate|].
  destruct (Ascii.eqb (b64char v) "="); [discriminate|].
  destruct (b64val (b64char v)) as [w|]; [|discriminate].
  cbn in Hp. apply Z.eqb_eq in Hp. now subst.
Qed.

Lemma removeAll_digits vs :
  Forall isSextet vs ->
  removeAll isAsciiWhitespace (digitString b64char vs) = digitString b64char vs.
Proof.
  induction 1 as [|v vs Hv _ IH]; [reflexivity|].
  cbn [digitString removeAll].
  destruct (b64char_plain v Hv) as (-> & _ & _). now rewrite IH.
Qed.

Lemma dropFinalEquals_digits vs :
  Forall isSextet vs ->
  dropFinalEquals (digitString b64char vs) = digitString b64char vs.
Proof.
  induction 1 as [|v vs Hv _ IH]; [reflexivity|].
  cbn [digitString dropFinalEquals].
  destruct (b64char_plain v Hv) as (_ & -> & _). cbn [andb]. now rewrite IH.
Qed.

Lemma b64vals_digits vs :
  Forall isSextet vs -> b64vals (digitString b64char vs) = Some vs.
Proof.
  induction 1 as [|v vs Hv _ IH]; [reflexivity|].
  cbn [digitString b64vals].
  destruct (b64char_plain v Hv) as (_ & _ & ->). now rewrite IH.
Qed.

Lemma sextets_length bytes : Z.of_nat (length (sextets bytes)) mod 4 <> 1.
Proof.
  induction bytes as [|a|a b|a b c rest IH] using list_ind3; cbn [sextets length];
    try (vm_compute; discriminate).
  replace (Z.of_nat (S (S (S (S (length (sextets rest)))))))
    with (Z.of_nat (length (sextets rest)) + 1 * 4) by lia.
  now rewrite Z.mod_add by lia.
Qed.

Lemma b64bytes_sextets bytes : b64bytes (sextets bytes) = bytes.
Proof.
  induction bytes as [|a|a b|a b c rest IH] using list_ind3.
  - reflexivity.
  - cbn [sextets b64bytes]. pose proof (code_range a).
    replace ((code a * 16 / 64 * 64 + code a * 16 mod 64) / 16) with (code a)
      by (Z.to_euclidean_division_equations; lia).
    now rewrite chr_code.
  - cbn [sextets b64bytes]. pose proof (code_range a). pose proof (code_range b).
    set (n := (code a * 256 + code b) * 4).
    replace (((n / 4096 * 64 + n / 64 mod 64) * 64 + n mod 64) / 4)
      with (code a * 256 + code b)
      by (subst n; Z.to_euclidean_division_equations; lia).
    replace ((code a * 256 + code b) / 256) with (code a)
      by (Z.to_euclidean_division_equations; lia).
    replace ((code a * 256 + code b) mod 256) with (code b)
      by (Z.to_euclidean_division_equations; lia).
    now rewrite !chr_code.
  - cbn [sextets b64bytes]. rewrite IH.
    pose proof (code_range a). pose proof (code_range b). pose proof (code_range c).
    set (n := (code a * 256 + code b) * 256 + code c).
    replace (((n / 262144 * 64 + n / 4096 mod 64) * 64 + n / 64 mod 64) * 64 + n mod 64)
      with n by (Z.to_euclidean_division_equations; lia).
    replace (n / 65536) with (code a) by (subst n; Z.to_euclidean_division_equations; lia).
    replace (n / 256 mod 256) with (code b)
      by (subst n; Z.to_euclidean_division_equations; lia).
    replace (n mod 256) with (code c) by (subst n; Z.to_euclidean_division_equations; lia).
    now rewrite !chr_code.
Qed.

Section Base64RoundTrip.
Context `{rt : Platform}.

Lemma atob_digits vs :
  Forall isSextet vs ->
  Z.of_nat (length vs) mod 4 <> 1 ->
  atob (digitString b64char vs) = inr (b64bytes vs).
Proof.
  intros Hvs Hlen. unfold atob, stripPadding.
  rewrite removeAll_digits by assumption.
  assert (Hstrip : (if Z.of_nat (String.length (digitString b64char vs)) mod 4 =? 0
                    then dropFinalEquals (digitString b64char vs)
                    else digitString b64char vs) = digitString b64char vs).
  { destruct (_ =? 0); [now apply dropFinalEquals_digits | reflexivity]. }
  rewrite Hstrip, length_digitString.
  destruct (Z.eqb_spec (Z.of_nat (length vs) mod 4) 1) as [Heq|_]; [contradiction|].
  now rewrite b64vals_digits.
Qed.

Lemma b64url_digits bytes : b64url bytes = digitString urlchar (sextets bytes).
Proof.
  unfold b64url.
  rewrite btoa_digits, b64url_replacements_digits by apply sextets_range.
  assert (Hpad : replaceAll "=" "" (replaceAll "/" "_" (replaceAll "+" "-" (padding bytes)))
                 = "").
  { unfold padding. destruct (length bytes mod 3)%nat as [|[|[|k]]]; reflexivity. }
  now rewrite Hpad, app_empty_r.
Qed.

(** What [verifyJWT] does to a segment undoes [b64url]. *)
Lemma atob_b64url bytes :
  atob (replaceAll "_" "/" (replaceAll "-" "+" (b64url bytes))) = inr bytes.
Proof.
  rewrite b64url_digits, verify_replacements_digits by apply sextets_range.
  rewrite atob_digits by (apply sextets_range || apply sextets_length).
  now rewrite b64bytes_sextets.
Qed.

End Base64RoundTrip.

(** *** Segments and split *)

Lemma isUrlChar_not_dot c : isUrlChar c = true -> Ascii.eqb c "." = false.
Proof.
  intros Hc. destruct (Ascii.eqb_spec c ".") as [->|_]; [|reflexivity].
  vm_compute in Hc. discriminate.
Qed.

Lemma isUrlChar_urlchar v : isSextet v -> isUrlChar (urlchar v) = true.
Proof.
  apply (sextet_forall (fun v => isUrlChar (urlchar v))). reflexivity.
Qed.

Lemma b64url_alphabet `{rt : Platform} bytes : allStr isUrlChar (b64url bytes) = true.
Proof.
  rewrite b64url_digits.
  pose proof (sextets_range bytes) as Hvs.
  induction Hvs as [|v vs Hv _ IH]; [reflexivity|].
  cbn [digitString allStr]. now rewrite isUrlChar_urlchar, IH.
Qed.

Lemma split_segment s :
  allStr isUrlChar s = true -> split "." s = [s].
Proof.
  induction s as [|c s IH]; [reflexivity|].
  cbn [allStr split]. intros [Hc Hs]%andb_prop.
  now rewrite (isUrlChar_not_dot c Hc), IH.
Qed.

Lemma split_segment_dot s rest :
  allStr isUrlChar s = true ->
  split "." (s +:+ String "." rest) = s :: split "." rest.
Proof.
  induction s as [|c s IH]; [reflexivity|].
  cbn [allStr]. intros [Hc Hs]%andb_prop.
  rewrite app_cons. cbn [split].
  now rewrite (isUrlChar_not_dot c Hc), IH.
Qed.

Lemma split_three a b c :
  allStr isUrlChar a = true -> allStr isUrlChar b = true -> allStr isUrlChar c = true ->
  split "." ((a +:+ "." +:+ b) +:+ "." +:+ c) = [a; b; c].
Proof.
  intros Ha Hb Hc.
  replace ((a +:+ "." +:+ b) +:+ "." +:+ c) with (a +:+ String "." (b +:+ String "." c))
    by (now rewrite app_assoc_str).
  now rewrite !split_segment_dot, split_segment.
Qed.

(** ** Property lists *)

Lemma assoc_setProp_eq {A : Type} k (v : A) l : assoc k (setProp k v l) = Some v.
Proof.
  induction l as [|[k' v'] l IH]; cbn.
  - now rewrite String.eqb_refl.
  - destruct (String.eqb k k') eqn:Hk; cbn; rewrite ?String.eqb_refl, ?Hk; auto.
Qed.

Lemma assoc_setProp_ne {A : Type} k k' (v : A) l :
  k <> k' -> assoc k' (setProp k v l) = assoc k' l.
Proof.
  intros Hne. induction l as [|[k0 v0] l IH]; cbn.
  - destruct (String.eqb_spec k' k); [congruence | reflexivity].
  - destruct (String.eqb_spec k k0) as [->|Hk0]; cbn.
    + destruct (String.eqb_spec k' k0); [congruence | reflexivity].
    + destruct (String.eqb_spec k' k0); [reflexivity | exact IH].
Qed.

(** ** The token *)

Section Token.
Context `{rt : Platform}.

Lemma nowSeconds_add ms k : nowSeconds (ms + k * 1000) = nowSeconds ms + k.
Proof.
  unfold nowSeconds. now rewrite Z.div_add by lia.
Qed.

Lemma fullPayload_exp now claims ttl :
  optGet (fullPayload now claims ttl) "exp" = Some (JNum (nowSeconds now + ttl)).
Proof. apply assoc_setProp_eq. Qed.

Lemma fullPayload_iat now claims ttl :
  optGet (fullPayload now claims ttl) "iat" = Some (JNum (nowSeconds now)).
Proof.
  cbn [fullPayload optGet].
  rewrite assoc_setProp_ne by discriminate. apply assoc_setProp_eq.
Qed.

Lemma fullPayload_other now claims ttl k :
  k <> "iat" -> k <> "exp" ->
  optGet (fullPayload now claims ttl) k = assoc k (spreadProps claims).
Proof.
  intros Hiat Hexp. cbn [fullPayload optGet].
  now rewrite !assoc_setProp_ne by congruence.
Qed.

(** The token is three segments of the URL-safe alphabet. *)
Lemma signJWT_segments now secret claims ttl :
  split "." (signJWT now secret claims ttl)
  = [ b64urlJson jwtHeader;
      b64urlJson (fullPayload now claims ttl);
      b64url (hmacSha256 secret
                (b64urlJson jwtHeader +:+ "." +:+ b64urlJson (fullPayload now claims ttl))) ].
Proof.
  unfold signJWT. cbv zeta.
  apply split_three; apply b64url_alphabet.
Qed.

(** What [verifyJWT] returns on a token made by [signJWT] with the same
    secret, when the runtime reads the payload text back. *)
Lemma verifyJWT_signJWT now secret claims ttl at_ms :
  JSON_parse (TextDecoder_decode (utf8_encode (JSON_stringify (fullPayload now claims ttl))))
  = inr (fullPayload now claims ttl) ->
  verifyJWT at_ms secret (signJWT now secret claims ttl)
  = inr (if nowSeconds now + ttl <? nowSeconds at_ms then None
         else Some (fullPayload now claims ttl)).
Proof.
  intros Hread. unfold verifyJWT.
  rewrite signJWT_segments, timingSafeEqual_refl. cbn [negb].
  unfold b64urlJson at 1. rewrite atob_b64url. cbn [bind].
  rewrite Hread. cbn [bind].
  assert (Hmem : getMember (fullPayload now claims ttl) "exp"
                 = inr (optGet (fullPayload now claims ttl) "exp")) by reflexivity.
  rewrite Hmem, fullPayload_exp. cbn [bind].
  now destruct (_ <? _).
Qed.

(** A token whose payload carries an expiry before the current second is
    refused, whatever its signature. *)
Lemma verifyJWT_expired at_ms secret token p1 p2 sig bytes payload e :
  split "." token = [p1; p2; sig] ->
  atob (replaceAll "_" "/" (replaceAll "-" "+" p2)) = inr bytes ->
  JSON_parse (TextDecoder_decode bytes) = inr payload ->
  optGet payload "exp" = Some (JNum e) ->
  e < nowSeconds at_ms ->
  verifyJWT at_ms secret token = inr None.
Proof.
  intros Hsplit Hatob Hparse Hexp Hlt. unfold verifyJWT.
  rewrite Hsplit. destruct (negb _); [reflexivity|].
  rewrite Hatob. cbn [bind]. rewrite Hparse. cbn [bind].
  assert (Hmem : getMember payload "exp" = inr (Some (JNum e))).
  { destruct payload; try discriminate Hexp. cbn [getMember ret]. now rewrite Hexp. }
  rewrite Hmem. cbn [bind].
  now rewrite (proj2 (Z.ltb_lt _ _) Hlt).
Qed.

End Token.

(** C9, as stated, fails: a claim named [exp] does not come back; the
    payload returned carries the expiry computed by [signJWT] under that
    name. *)
Lemma signJWT_overwrites_exp_claim :
  let claims := JObj [("role", JStr "admin"); ("exp", JNum 5)] in
  let token := signJWT (rt := Reference.platform) 1000000 "secret" claims 21600 in
  exists payload,
    verifyJWT (rt := Reference.platform) 2000000 "secret" token = inr (Some payload)
    /\ optGet claims "exp" = Some (JNum 5)
    /\ optGet payload "exp" = Some (JNum 22600)
    /\ optGet payload "exp" <> optGet claims "exp".
Proof.
  cbv zeta. eexists. split; [vm_compute; reflexivity|].
  repeat split; discriminate.
Qed.

(** C9, amended: the token made by [signJWT] has three dot-separated
    segments, and [verifyJWT] with the same secret, at any time before the
    expiry instant, returns a payload with [iat] set to the second of
    issue, [exp] to [iat + ttlSeconds], and under every other name what
    the claims object has under it: every claim not named [iat] or [exp],
    and nothing else.  The claims are any value the runtime reads back
    from its JSON text. *)
Theorem signJWT_verifyJWT_round_trip `{rt : Platform}
    (secret : string) (claims : json) (ttlSeconds issued_ms at_ms : Z) :
  JSON_parse (TextDecoder_decode
                (utf8_encode (JSON_stringify (fullPayload issued_ms claims ttlSeconds))))
  = inr (fullPayload issued_ms claims ttlSeconds) ->
  at_ms < (nowSeconds issued_ms + ttlSeconds) * 1000 ->
  length (split "." (signJWT issued_ms secret claims ttlSeconds)) = 3%nat
  /\ exists payload,
       verifyJWT at_ms secret (signJWT issued_ms secret claims ttlSeconds)
       = inr (Some payload)
       /\ optGet payload "iat" = Some (JNum (nowSeconds issued_ms))
       /\ optGet payload "exp" = Some (JNum (nowSeconds issued_ms + ttlSeconds))
       /\ (forall props k,
             claims = JObj props -> k <> "iat" -> k <> "exp" ->
             optGet payload k = assoc k props).
Proof.
  intros Hread Hbefore.
  split; [now rewrite signJWT_segments|].
  exists (fullPayload issued_ms claims ttlSeconds). split.
  - rewrite verifyJWT_signJWT by assumption.
    assert (Hnow : nowSeconds at_ms < nowSeconds issued_ms + ttlSeconds).
    { unfold nowSeconds in *. apply Z.div_lt_upper_bound; lia. }
    now rewrite (proj2 (Z.ltb_ge _ _)) by lia.
  - split; [apply fullPayload_iat|].
    split; [apply fullPayload_exp|].
    intros props k -> Hiat Hexp. now rewrite fullPayload_other.
Qed.

Lemma signJWT_verifyJWT_round_trip_witness :
  let claims := JObj [("role", JStr "admin"); ("name", JStr "Omar")] in
  length (split "." (signJWT (rt := Reference.platform) 1000000 "secret" claims 21600)) = 3%nat
  /\ exists payload,
       verifyJWT (rt := Reference.platform) 22599999 "secret"
         (signJWT (rt := Reference.platform) 1000000 "secret" claims 21600)
       = inr (Some payload)
       /\ optGet payload "iat" = Some (JNum 1000)
       /\ optGet payload "exp" = Some (JNum 22600)
       /\ optGet payload "role" = Some (JStr "admin")
       /\ optGet payload "name" = Some (JStr "Omar").
Proof.
  intros claims.
  destruct (signJWT_verifyJWT_round_trip (rt := Reference.platform)
              "secret" claims 21600 1000000 22599999
              ltac:(vm_compute; reflexivity) ltac:(vm_compute; reflexivity))
    as (H1 & payload & H2 & H3 & H4 & H5).
  split; [exact H1|]. exists payload.
  split; [exact H2|]. split; [exact H3|]. split; [exact H4|].
  split; [apply (H5 _ "role" eq_refl) | apply (H5 _ "name" eq_refl)]; discriminate.
Defined.
(** ** Conversions that may throw *)

Lemma json_nested_ind (P : json -> Prop) :
  P JNull -> (forall b, P (JBool b)) -> (forall n, P (JNum n)) -> (forall s, P (JStr s)) ->
  (forall items, Forall P items -> P (JArr items)) ->
  (forall fields, Forall (fun kv => P (snd kv)) fields -> P (JObj fields)) ->
  forall v, P v.
Proof.
  intros HN HB HZ HS HA HO. fix IH 1. intros [ | b | n | s | items | fields].
  - exact HN.
  - apply HB.
  - apply HZ.
  - apply HS.
  - apply HA. induction items as [|v items IHitems]; constructor; [apply IH | exact IHitems].
  - apply HO. induction fields as [|[k v] fields IHfields]; constructor;
      [apply IH | exact IHfields].
Qed.

Lemma mapM_cases {A B : Type} (f : A -> result B) (g : A -> B) (ok : A -> bool) (e : Exn) l :
  (forall x, In x l -> f x = if ok x then inr (g x) else inl e) ->
  mapM f l = if forallb ok l then inr (map g l) else inl e.
Proof.
  induction l as [|x l IH]; intros Hf; [reflexivity|].
  cbn [mapM forallb map]. rewrite (Hf x) by now left.
  destruct (ok x); [|reflexivity]. cbn [bind andb].
  fold (mapM f l). rewrite IH by (intros y Hy; apply Hf; now right).
  now destruct (forallb ok l).
Qed.

Section Convert.
Context `{rt : Platform}.

(** [String(v)] either returns the string [toString] gives or throws the
    one [TypeError]. *)
Lemma JS_String_converts v :
  JS_String v = if converts v then inr (toString v) else inl to_primitive_error.
Proof.
  induction v as [ | b | n | s | items IH | fields _] using json_nested_ind;
    try reflexivity.
  - now destruct b.
  - change (JS_String (JArr items))
      with (do parts <- mapM (fun e => match e with JNull => ret "" | _ => JS_String e end)
                             items;
            ret (join "," parts)).
    change (toString (JArr items))
      with (join "," (map (fun e => match e with JNull => "" | _ => toString e end) items)).
    change (converts (JArr items)) with (forallb converts items).
    rewrite (mapM_cases _ (fun e => match e with JNull => "" | _ => toString e end)
               converts to_primitive_error).
    + now destruct (forallb converts items).
    + intros x Hx. rewrite List.Forall_forall in IH. specialize (IH x Hx).
      destruct x; try exact IH. reflexivity.
  - cbn [JS_String converts toString]. now destruct (assoc "toString" fields).
Qed.

Lemma JS_String_value v s : JS_String v = inr s -> s = toString v /\ converts v = true.
Proof.
  rewrite JS_String_converts. destruct (converts v); [|discriminate].
  intros [= <-]. auto.
Qed.

Lemma JS_String_str s : JS_String (JStr s) = inr s.
Proof. reflexivity. Qed.

Lemma extraGuestNamesOf_converts v :
  extraGuestNamesOf v
  = if guestNamesConvert v then inr (guestNamesField v) else inl to_primitive_error.
Proof.
  unfold extraGuestNamesOf, guestNamesConvert, guestNamesField.
  destruct (optGet v "extraGuestNames") as [[ | | | | items | ]|]; try reflexivity.
  rewrite (mapM_cases _ (fun x => trim (toString (orEmpty (Some x))))
             (fun x => converts (orEmpty (Some x))) to_primitive_error).
  - now destruct (forallb _ items).
  - intros x _. rewrite JS_String_converts. now destruct (converts _).
Qed.

Lemma extraGuestNamesOf_value v names :
  extraGuestNamesOf v = inr names -> names = guestNamesField v /\ guestNamesConvert v = true.
Proof.
  rewrite extraGuestNamesOf_converts. destruct (guestNamesConvert v); [|discriminate].
  intros [= <-]. auto.
Qed.

Lemma mapM_map {A B C : Type} (f : A -> result B) (g : B -> C) l :
  mapM (fun x => do y <- f x; ret (g y)) l = do ys <- mapM f l; ret (map g ys).
Proof.
  induction l as [|x l IH]; [reflexivity|].
  cbn [mapM]. destruct (f x) as [e|y]; [reflexivity|]. cbn [bind ret].
  fold (mapM (fun x => do y <- f x; ret (g y)) l). fold (mapM f l). rewrite IH.
  now destruct (mapM f l).
Qed.

(** The guest names, from the strings the entries of the array convert
    to. *)
Lemma extraGuestNamesOf_entries v entries :
  mapM (fun x => JS_String (orEmpty (Some x)))
       (match optGet v "extraGuestNames" with
        | Some (JArr items) => items
        | _ => []
        end)
  = inr entries ->
  extraGuestNamesOf v = inr (List.filter nonEmpty (map trim entries)).
Proof.
  unfold extraGuestNamesOf.
  destruct (optGet v "extraGuestNames") as [[ | | | | items | ]|];
    try (intros [= <-]; reflexivity).
  intros Hentries.
  now rewrite (mapM_map (fun x => JS_String (orEmpty (Some x))) trim), Hentries.
Qed.

(** The fields of an RSVP body, when the four conversions return. *)
Lemma rsvpConverts_fields v inviteId primaryName names notes :
  JS_String (orEmpty (optGet v "inviteId")) = inr inviteId ->
  JS_String (orEmpty (optGet v "primaryName")) = inr primaryName ->
  extraGuestNamesOf v = inr names ->
  JS_String (orEmpty (optGet v "notes")) = inr notes ->
  rsvpConverts v = true
  /\ stringField v "inviteId" = inviteId
  /\ stringField v "primaryName" = primaryName
  /\ guestNamesField v = names
  /\ stringField v "notes" = notes.
Proof.
  intros [-> Hid]%JS_String_value [-> Hname]%JS_String_value
         [-> Hnames]%extraGuestNamesOf_value [-> Hnotes]%JS_String_value.
  unfold rsvpConverts. rewrite Hid, Hname, Hnames, Hnotes. repeat split.
Qed.

End Convert.

(** ** The handler *)

Section Fetch.
Context `{rt : Platform}.
Variable env : Env.
Variable amb : Ambient.
Variable req : Request.

(** Whatever [Origin] the request declares, the origin allowed is the
    configured one. *)
Lemma allowedOrigin_site : allowedOrigin env req = SITE_ORIGIN env.
Proof.
  unfold allowedOrigin, allowedOriginOf.
  destruct (header_Origin req) as [origin|]; [|reflexivity].
  destruct (nonEmpty origin); cbn [andb]; [|reflexivity].
  destruct (String.eqb_spec origin (SITE_ORIGIN env)); auto.
Qed.

Lemma fetch_route db :
  method req <> "OPTIONS" ->
  fetch env amb req db
  = match route env amb req db with
    | inr out => out
    | inl e => mkOutcome (serverError env e) db []
    end.
Proof.
  intros Hm. unfold fetch.
  now destruct (String.eqb_spec (method req) "OPTIONS").
Qed.

Lemma route_publicRsvp db :
  method req = "POST" -> pathname req = "/public/rsvp" ->
  route env amb req db = publicRsvp env amb req db.
Proof. intros Hm Hp. unfold route. now rewrite Hm, Hp. Qed.

Lemma route_adminLogin db :
  method req = "POST" -> pathname req = "/admin/login" ->
  route env amb req db = adminLogin env amb req db.
Proof. intros Hm Hp. unfold route. now rewrite Hm, Hp. Qed.

(** Every protected route starts with the auth middleware and answers
    [unauthorized] when it returns [null]. *)
Lemma route_protected db :
  protectedRoute req ->
  requireAdmin env amb req = inr None ->
  route env amb req db = unauthorized env req db.
Proof.
  intros [Hp [Hm|[Hm|Hm]]] Hadmin; unfold route; rewrite Hm, Hp; cbn [String.eqb andb].
  - change (adminListInvites env amb req db = unauthorized env req db).
    unfold adminListInvites. now rewrite Hadmin.
  - change (adminCreateInvite env amb req db = unauthorized env req db).
    unfold adminCreateInvite. now rewrite Hadmin.
  - change (adminDeleteInvite env amb req db = unauthorized env req db).
    unfold adminDeleteInvite. now rewrite Hadmin.
Qed.

(** [POST /public/rsvp] once the body has parsed: the conversions throw,
    or the handler goes on with the strings they return. *)
Lemma publicRsvp_parsed db parsed :
  JSON_parse (body req) = inr parsed ->
  publicRsvp env amb req db
  = if rsvpConverts parsed then
      let inviteId := stringField parsed "inviteId" in
      let primaryName := trim (stringField parsed "primaryName") in
      let names := guestNamesField parsed in
      if negb (nonEmpty inviteId) || negb (nonEmpty primaryName)
      then respond env req db [] (errorBody "Missing required fields.") 400
      else
        match selectInviteById db inviteId with
        | None => respond env req db [] (errorBody "Invite not found.") 404
        | Some inv =>
            if toBoolean (optGet parsed "attending")
               && (allowed_guests inv <? Z.of_nat (length names))
            then respond env req db [] (errorBody (tooManyGuests (allowed_guests inv))) 400
            else
              respond env req (upsertRsvp db inviteId (submittedRow amb req parsed))
                [rsvpNotification inv primaryName (toBoolean (optGet parsed "attending")) names
                   (orNull (trim (stringField parsed "notes")))
                   (toISOString (now_ms amb)) (clientIp req)]
                (JObj [("ok", JBool true)]) 200
        end
    else inl to_primitive_error.
Proof.
  intros Hparse. unfold publicRsvp, requestJson, rsvpConverts. rewrite Hparse. cbn [bind].
  rewrite !JS_String_converts, extraGuestNamesOf_converts.
  destruct (converts (orEmpty (optGet parsed "inviteId"))); [|reflexivity].
  destruct (converts (orEmpty (optGet parsed "primaryName"))); [|reflexivity].
  destruct (guestNamesConvert parsed); [|reflexivity].
  destruct (converts (orEmpty (optGet parsed "notes"))); reflexivity.
Qed.

(** A request whose handler throws is answered 500. *)
Lemma fetch_thrown db e :
  method req <> "OPTIONS" ->
  route env amb req db = inl e ->
  fetch env amb req db = mkOutcome (serverError env e) db [].
Proof. intros Hm Hroute. now rewrite fetch_route, Hroute. Qed.

(** An accepted submission found its invitation, passed the guest-count
    check, and wrote its row. *)
Lemma acceptedRsvp_outcome db id parsed :
  acceptedRsvp env amb req db id parsed ->
  exists inv,
    invites db !! id = Some inv
    /\ (toBoolean (optGet parsed "attending")
        && (allowed_guests inv <? Z.of_nat (length (guestNamesField parsed)))) = false
    /\ database (fetch env amb req db) = upsertRsvp db id (submittedRow amb req parsed).
Proof.
  intros (Hm & Hp & Hparse & Hid & Hstatus). revert Hstatus.
  rewrite fetch_route by (rewrite Hm; discriminate).
  rewrite route_publicRsvp, (publicRsvp_parsed db parsed) by assumption.
  destruct (rsvpConverts parsed); [|discriminate].
  cbv zeta. rewrite Hid. unfold respond, selectInviteById.
  destruct (negb (nonEmpty id) || _); [discriminate|].
  destruct (invites db !! id) as [inv|]; [|discriminate].
  destruct (toBoolean _ && _) eqn:Hcheck; [discriminate|].
  intros _. exists inv. auto.
Qed.

Lemma requireAdmin_rejected :
  TokenRejected env amb req -> requireAdmin env amb req = inr None.
Proof.
  intros Hrej. unfold requireAdmin.
  destruct Hrej as [Hb | tok Hb Hlen | tok p1 p2 sig Hb Hsplit Hsig
                   | tok p1 p2 sig bytes payload e Hb Hsplit Hatob Hparse Hexp Hlt];
    rewrite Hb; [reflexivity | | |]; destruct (negb (nonEmpty tok)); try reflexivity.
  - assert (Hverify : verifyJWT (now_ms amb) (JWT_SECRET env) tok = inr None).
    { unfold verifyJWT.
      destruct (split "." tok) as [|a [|b [|c [|d l]]]]; try reflexivity.
      now contradiction Hlen. }
    now rewrite Hverify.
  - assert (Hverify : verifyJWT (now_ms amb) (JWT_SECRET env) tok = inr None).
    { unfold verifyJWT. rewrite Hsplit.
      destruct (timingSafeEqual _ sig) eqn:Heq; [|reflexivity].
      apply timingSafeEqual_true_iff in Heq. now contradiction Hsig. }
    now rewrite Hverify.
  - now rewrite (verifyJWT_expired _ _ _ _ _ _ _ _ _ Hsplit Hatob Hparse Hexp Hlt).
Qed.

End Fetch.

(** ** Rows of a table *)



(** ** RSVP submissions *)

(** A submission that declines is accepted without the guest-count check
    and its row holds the names as they were sent. *)
Lemma declined_rsvp_row `{rt : Platform} env amb req db id parsed :
  acceptedRsvp env amb req db id parsed ->
  toBoolean (optGet parsed "attending") = false ->
  exists row,
    rsvps (database (fetch env amb req db)) !! id = Some row
    /\ attending row = 0
    /\ storesGuestNames row (guestNamesField parsed).
Proof.
  intros Hacc Hdecl.
  destruct (acceptedRsvp_outcome env amb req db id parsed Hacc) as (inv & _ & _ & ->).
  exists (submittedRow amb req parsed). split; [apply lookup_insert_eq|].
  unfold submittedRow, rsvpRow, storesGuestNames. rewrite Hdecl. auto.
Qed.

(** A submission that attends is accepted only within the allowance. *)
Lemma attending_rsvp_row `{rt : Platform} env amb req db id parsed :
  acceptedRsvp env amb req db id parsed ->
  toBoolean (optGet parsed "attending") = true ->
  exists inv row,
    invites db !! id = Some inv
    /\ rsvps (database (fetch env amb req db)) !! id = Some row
    /\ storesGuestNames row (guestNamesField parsed)
    /\ Z.of_nat (length (guestNamesField parsed)) <= allowed_guests inv.
Proof.
  intros Hacc Hatt.
  destruct (acceptedRsvp_outcome env amb req db id parsed Hacc) as (inv & Hinv & Hcheck & ->).
  exists inv, (submittedRow amb req parsed).
  rewrite Hatt in Hcheck. cbn [andb] in Hcheck. apply Z.ltb_ge in Hcheck.
  repeat split; auto. apply lookup_insert_eq.
Qed.

(** C1: a declined RSVP that carries a guest name is accepted, and the row
    stored for the invitation holds that name: the list is not emptied. *)
Theorem declined_rsvp_keeps_guest_names :
  let out := fetch (rt := Scenario.rt) Scenario.env Scenario.amb
                   Scenario.declineWithName Scenario.db in
  status (response out) = 200
  /\ rsvps (database out) !! "inv-1"
     = Some (mkRsvp "John Smith" 0
                    (JSON_stringify (rt := Scenario.rt) (JArr [JStr "Jane Smith"])) None
                    "2023-11-14T22:13:20.000Z" (Some "203.0.113.7"))
  /\ JSON_stringify (rt := Scenario.rt) (JArr [JStr "Jane Smith"])
     <> JSON_stringify (rt := Scenario.rt) (JArr []).
Proof.
  vm_compute. repeat split; discriminate.
Qed.

(** C2: a declined RSVP for an invitation that allows no extra guest is
    accepted with one guest name, and the stored list is longer than the
    allowance. *)
Theorem declined_rsvp_exceeds_allowance :
  let out := fetch (rt := Scenario.rt) Scenario.env Scenario.amb
                   Scenario.declineBeyondAllowance Scenario.db in
  status (response out) = 200
  /\ allowed_guests <$> invites Scenario.db !! "inv-0" = Some 0
  /\ extra_guest_names <$> rsvps (database out) !! "inv-0"
     = Some (JSON_stringify (rt := Scenario.rt) (JArr (map JStr ["Guest One"])))
  /\ allowed_guests <$> invites (database out) !! "inv-0" = Some 0.
Proof.
  vm_compute. repeat split; reflexivity.
Qed.

(** C7, as stated, fails: with a blank primary name the 400 returned for
    three names on an invitation that allows two is the one for missing
    fields, and does not name the allowed count. *)
Lemma too_many_guests_without_primary_name :
  let out := fetch (rt := Scenario.rt) Scenario.env Scenario.amb
                   Scenario.threeNamesNoPrimary Scenario.db in
  allowed_guests <$> invites Scenario.db !! "inv-1" = Some 2
  /\ (exists parsed,
        JSON_parse (Platform := Scenario.rt) (body Scenario.threeNamesNoPrimary) = inr parsed
        /\ stringField (rt := Scenario.rt) parsed "inviteId" = "inv-1"
        /\ toBoolean (optGet parsed "attending") = true
        /\ length (guestNamesField (rt := Scenario.rt) parsed) = 3%nat)
  /\ status (response out) = 400
  /\ responseBody (response out)
     = Some (JSON_stringify (rt := Scenario.rt) (errorBody "Missing required fields."))
  /\ responseBody (response out)
     <> Some (JSON_stringify (rt := Scenario.rt)
                (errorBody (tooManyGuests (rt := Scenario.rt) 2))).
Proof.
  cbv zeta. split; [reflexivity|]. split.
  - eexists. split; [vm_compute; reflexivity|]. vm_compute. repeat split; reflexivity.
  - vm_compute. repeat split; discriminate.
Qed.

(** A [notes] object with a [toString] property of its own makes the
    handler throw before any check: the same three names are then answered
    500, with the message of the [TypeError]. *)
Lemma too_many_guests_unconvertible_notes :
  let out := fetch (rt := Scenario.rt) Scenario.env Scenario.amb
                   Scenario.threeNamesObjectNotes Scenario.db in
  status (response out) = 500
  /\ responseBody (response out)
     = Some (JSON_stringify (rt := Scenario.rt)
               (errorBody "Cannot convert object to primitive value"))
  /\ database out = Scenario.db.
Proof.
  vm_compute. repeat split; reflexivity.
Qed.

(** C7, amended: for a [POST /public/rsvp] whose fields and guest name
    entries [String] converts, with the required fields present,
    [attending] true and an existing invitation, more names (after
    trimming and dropping the empty ones) than the invitation allows give
    status 400 with the message naming the allowed count; the database is
    unchanged and nothing is sent. *)
Theorem too_many_guests_rejected `{rt : Platform}
    (env : Env) (amb : Ambient) (req : Request) (db : DB) (parsed : json) (inv : InviteRow)
    (inviteId primaryName notes : string) (entries : list string) :
  let guests := match optGet parsed "extraGuestNames" with
                | Some (JArr items) => items
                | _ => []
                end in
  method req = "POST" ->
  pathname req = "/public/rsvp" ->
  JSON_parse (body req) = inr parsed ->
  JS_String (orEmpty (optGet parsed "inviteId")) = inr inviteId ->
  JS_String (orEmpty (optGet parsed "primaryName")) = inr primaryName ->
  mapM (fun x => JS_String (orEmpty (Some x))) guests = inr entries ->
  JS_String (orEmpty (optGet parsed "notes")) = inr notes ->
  nonEmpty inviteId = true ->
  nonEmpty (trim primaryName) = true ->
  toBoolean (optGet parsed "attending") = true ->
  invites db !! inviteId = Some inv ->
  allowed_guests inv < Z.of_nat (length (List.filter nonEmpty (map trim entries))) ->
  fetch env amb req db
  = mkOutcome
      (withCors (SITE_ORIGIN env)
         (jsonResponse
            (errorBody ("This invite allows up to " +:+ NumberToString (allowed_guests inv)
                        +:+ " additional guest(s)."))
            400))
      db [].
Proof.
  intros guests Hm Hp Hparse Hid Hname Hentries Hnotes Hidne Hnamene Hatt Hinv Hmany.
  pose proof (extraGuestNamesOf_entries parsed entries Hentries) as Hnames.
  destruct (rsvpConverts_fields parsed _ _ _ _ Hid Hname Hnames Hnotes)
    as (Hconv & Hid' & Hname' & Hnames' & _).
  rewrite fetch_route by (rewrite Hm; discriminate).
  rewrite route_publicRsvp, (publicRsvp_parsed env amb req db parsed) by assumption.
  rewrite Hconv. cbv zeta. rewrite Hid', Hname', Hnames', Hidne, Hnamene. cbn [negb orb].
  unfold selectInviteById. rewrite Hinv, Hatt.
  rewrite (proj2 (Z.ltb_lt _ _) Hmany). cbn [andb].
  unfold respond. now rewrite allowedOrigin_site.
Qed.

Lemma too_many_guests_rejected_witness :
  fetch (rt := Scenario.rt) Scenario.env Scenario.amb Scenario.threeNames Scenario.db
  = mkOutcome
      (withCors "https://wedding.example"
         (jsonResponse (rt := Scenario.rt)
            (errorBody "This invite allows up to 2 additional guest(s).") 400))
      Scenario.db [].
Proof.
  exact (too_many_guests_rejected (rt := Scenario.rt)
           Scenario.env Scenario.amb Scenario.threeNames Scenario.db
           (Scenario.rsvpBody "inv-1" "John Smith" true ["Jane Smith"; "Joe Smith"; "Jim Smith"])
           (mkInvite "John Smith" "john smith" 2 None "2023-11-01T10:00:00.000Z")
           "inv-1" "John Smith" ""
           ["Jane Smith"; "Joe Smith"; "Jim Smith"]
           eq_refl eq_refl
           ltac:(vm_compute; reflexivity) ltac:(vm_compute; reflexivity)
           ltac:(vm_compute; reflexivity)
           ltac:(vm_compute; reflexivity) ltac:(vm_compute; reflexivity)
           ltac:(vm_compute; reflexivity) ltac:(vm_compute; reflexivity)
           ltac:(vm_compute; reflexivity) ltac:(vm_compute; reflexivity)
           ltac:(vm_compute; reflexivity)).
Defined.



(** ** Token expiry *)

(** C3, as stated, fails: at the very second of its expiry a token is
    still accepted. *)
Lemma verifyJWT_accepts_at_expiry :
  optGet (fullPayload Scenario.issued_ms Scenario.adminClaims 10) "exp"
  = Some (JNum (nowSeconds (Scenario.issued_ms + 10 * 1000)))
  /\ verifyJWT (rt := Scenario.rt) (Scenario.issued_ms + 10 * 1000) "secret" Scenario.token
     = inr (Some (fullPayload Scenario.issued_ms Scenario.adminClaims 10)).
Proof.
  split; vm_compute; reflexivity.
Qed.

(** C3, amended: [verifyJWT] returns [null] for any token whose payload
    carries an expiry before the current second; a token issued with ttl
    [T] is accepted [T - 1] seconds and [T] seconds after issue, and
    refused [T + 1] seconds after issue. *)
Theorem verifyJWT_expiry `{rt : Platform}
    (secret token p1 p2 sig : string) (bytes : list ascii) (payload : json) (e at_ms : Z)
    (claims : json) (T issued_ms : Z) :
  split "." token = [p1; p2; sig] ->
  atob (replaceAll "_" "/" (replaceAll "-" "+" p2)) = inr bytes ->
  JSON_parse (TextDecoder_decode bytes) = inr payload ->
  optGet payload "exp" = Some (JNum e) ->
  e < nowSeconds at_ms ->
  JSON_parse (TextDecoder_decode (utf8_encode (JSON_stringify (fullPayload issued_ms claims T))))
  = inr (fullPayload issued_ms claims T) ->
  verifyJWT at_ms secret token = inr None
  /\ verifyJWT (issued_ms + (T - 1) * 1000) secret (signJWT issued_ms secret claims T)
     = inr (Some (fullPayload issued_ms claims T))
  /\ verifyJWT (issued_ms + T * 1000) secret (signJWT issued_ms secret claims T)
     = inr (Some (fullPayload issued_ms claims T))
  /\ verifyJWT (issued_ms + (T + 1) * 1000) secret (signJWT issued_ms secret claims T)
     = inr None.
Proof.
  intros Hsplit Hatob Hparse Hexp Hlt Hread.
  split; [now apply (verifyJWT_expired at_ms secret token p1 p2 sig bytes payload e)|].
  rewrite !verifyJWT_signJWT, !nowSeconds_add by assumption.
  rewrite !(proj2 (Z.ltb_ge _ _)) by lia.
  rewrite (proj2 (Z.ltb_lt _ _)) by lia.
  auto.
Qed.

Lemma verifyJWT_expiry_witness :
  verifyJWT (rt := Scenario.rt) 1700000000000 "secret" Scenario.staleToken = inr None
  /\ verifyJWT (rt := Scenario.rt) (Scenario.issued_ms + (10 - 1) * 1000) "secret" Scenario.token
     = inr (Some (fullPayload Scenario.issued_ms Scenario.adminClaims 10))
  /\ verifyJWT (rt := Scenario.rt) (Scenario.issued_ms + 10 * 1000) "secret" Scenario.token
     = inr (Some (fullPayload Scenario.issued_ms Scenario.adminClaims 10))
  /\ verifyJWT (rt := Scenario.rt) (Scenario.issued_ms + (10 + 1) * 1000) "secret" Scenario.token
     = inr None.
Proof.
  refine (verifyJWT_expiry (rt := Scenario.rt) "secret" Scenario.staleToken
            (b64urlJson (rt := Scenario.rt) jwtHeader)
            (b64urlJson (rt := Scenario.rt) (fullPayload 1600000000000 Scenario.adminClaims 21600))
            (b64url (hmacSha256 (rt := Scenario.rt) "secret"
                       (b64urlJson (rt := Scenario.rt) jwtHeader +:+ "." +:+
                        b64urlJson (rt := Scenario.rt)
                          (fullPayload 1600000000000 Scenario.adminClaims 21600))))
            (utf8_encode
               (JSON_stringify (rt := Scenario.rt)
                  (fullPayload 1600000000000 Scenario.adminClaims 21600)))
            (fullPayload 1600000000000 Scenario.adminClaims 21600)
            1600021600 1700000000000
            Scenario.adminClaims 10 Scenario.issued_ms
            _ _ _ _ _ _);
    vm_compute; reflexivity.
Defined.

(** ** normalizeName *)

(** C4: on a name that ends in punctuation after a space, normalizing
    leaves a final space, which normalizing again removes. *)
Theorem normalizeName_not_idempotent :
  normalizeName "John Smith :)" = "john smith "
  /\ normalizeName (normalizeName "John Smith :)") = "john smith"
  /\ normalizeName (normalizeName "John Smith :)") <> normalizeName "John Smith :)".
Proof.
  vm_compute. repeat split; discriminate.
Qed.

(** ** Uncaught exceptions *)

(** C5, as stated, fails: when the body is not JSON the 500 response
    carries the message of the exception thrown, not a generic one. *)
Lemma broken_body_error_detail :
  let out := fetch (rt := Scenario.rt) Scenario.env Scenario.amb
                   Scenario.brokenBody Scenario.db in
  route (rt := Scenario.rt) Scenario.env Scenario.amb Scenario.brokenBody Scenario.db
  = inl Reference.syntaxError
  /\ status (response out) = 500
  /\ responseBody (response out)
     = Some (JSON_stringify (rt := Scenario.rt) (errorBody (exn_message Reference.syntaxError)))
  /\ responseBody (response out)
     <> Some (JSON_stringify (rt := Scenario.rt) (errorBody "Server error")).
Proof.
  vm_compute. repeat split; discriminate.
Qed.

(** C5, amended: when a handler throws, the response is a 500 whose JSON
    body has the single field [error], holding the message of the thrown
    value, or "Server error" when that message is empty, and nothing else
    of the thrown value; its headers are those of every response made by
    [json] and [withCors]; the database is as before and nothing is
    sent. *)
Theorem fetch_catches_exceptions `{rt : Platform}
    (env : Env) (amb : Ambient) (req : Request) (db : DB) (e : Exn) :
  method req <> "OPTIONS" ->
  route env amb req db = inl e ->
  status (response (fetch env amb req db)) = 500
  /\ responseBody (response (fetch env amb req db))
     = Some (JSON_stringify
               (JObj [("error",
                       JStr (if nonEmpty (exn_message e) then exn_message e
                             else "Server error"))]))
  /\ (forall (data : json) (st : Z),
        headers (response (fetch env amb req db))
        = headers (withCors (allowedOrigin env req) (jsonResponse data st)))
  /\ database (fetch env amb req db) = db
  /\ background (fetch env amb req db) = [].
Proof.
  intros Hm Hthrow.
  rewrite fetch_route, Hthrow by assumption.
  cbn [response database background status responseBody headers serverError withCors
       jsonResponse].
  rewrite allowedOrigin_site. unfold errorMessage, errorBody. auto.
Qed.

Lemma fetch_catches_exceptions_witness :
  let out := fetch (rt := Scenario.rt) Scenario.env Scenario.amb
                   Scenario.brokenBody Scenario.db in
  status (response out) = 500
  /\ responseBody (response out)
     = Some (JSON_stringify (rt := Scenario.rt) (JObj [("error", JStr "Unexpected token in JSON")]))
  /\ headers (response out)
     = headers (withCors "https://wedding.example"
                  (jsonResponse (rt := Scenario.rt) (JObj [("ok", JBool true)]) 200)).
Proof.
  pose proof (fetch_catches_exceptions (rt := Scenario.rt)
                Scenario.env Scenario.amb Scenario.brokenBody Scenario.db Reference.syntaxError
                ltac:(discriminate) ltac:(vm_compute; reflexivity)) as (H1 & H2 & H3 & _).
  split; [exact H1|]. split; [exact H2|]. exact (H3 (JObj [("ok", JBool true)]) 200).
Defined.

(** ** Unauthorized responses *)

(** C6, as stated, fails: the 401 for a wrong password and the 401 for a
    request without a token carry different messages. *)
Lemma login_and_token_messages_differ :
  let login := response (fetch (rt := Scenario.rt) Scenario.env Scenario.amb
                           Scenario.wrongPassword Scenario.db) in
  let list := response (fetch (rt := Scenario.rt) Scenario.env Scenario.amb
                          Scenario.listWithoutToken Scenario.db) in
  status login = 401 /\ status list = 401
  /\ responseBody login = Some (JSON_stringify (rt := Scenario.rt) (errorBody "Invalid password."))
  /\ responseBody list = Some (JSON_stringify (rt := Scenario.rt) (errorBody "Unauthorized"))
  /\ responseBody login <> responseBody list.
Proof.
  vm_compute. repeat split; discriminate.
Qed.

(** C6, amended: a wrong password on [POST /admin/login] gets a 401 with
    the message "Invalid password."; a missing, malformed, tampered or
    expired token on a protected [/admin/invites] route gets a 401 with
    the one message "Unauthorized", whichever of the four it is. *)
Theorem unauthorized_messages `{rt : Platform}
    (env : Env) (amb : Ambient) (db : DB)
    (login : Request) (parsed : json) (password : string) (guarded : Request) :
  method login = "POST" ->
  pathname login = "/admin/login" ->
  JSON_parse (body login) = inr parsed ->
  JS_String (orEmpty (optGet parsed "password")) = inr password ->
  nonEmpty password = true ->
  sha256Hex (ADMIN_PASSWORD_SALT env +:+ password) <> ADMIN_PASSWORD_HASH env ->
  protectedRoute guarded ->
  TokenRejected env amb guarded ->
  fetch env amb login db
  = mkOutcome (withCors (SITE_ORIGIN env)
                 (jsonResponse (JObj [("error", JStr "Invalid password.")]) 401)) db []
  /\ fetch env amb guarded db
     = mkOutcome (withCors (SITE_ORIGIN env)
                    (jsonResponse (JObj [("error", JStr "Unauthorized")]) 401)) db [].
Proof.
  intros Hm Hp Hparse Hconv Hpw Hwrong Hroute Hrej. split.
  - rewrite fetch_route by (rewrite Hm; discriminate).
    rewrite route_adminLogin by assumption.
    unfold adminLogin, requestJson. rewrite Hparse. cbn [bind].
    rewrite Hconv. cbn [bind]. rewrite Hpw. cbn [negb].
    destruct (timingSafeEqual _ _) eqn:Heq.
    + apply timingSafeEqual_true_iff in Heq. contradiction.
    + cbn [negb]. unfold respond. now rewrite allowedOrigin_site.
  - assert (Hnot : method guarded <> "OPTIONS").
    { destruct Hroute as [_ [-> | [-> | ->]]]; discriminate. }
    rewrite fetch_route by assumption.
    rewrite route_protected by (auto using requireAdmin_rejected).
    unfold unauthorized, respond. now rewrite allowedOrigin_site.
Qed.

Lemma unauthorized_messages_witness :
  fetch (rt := Scenario.rt) Scenario.env Scenario.amb Scenario.wrongPassword Scenario.db
  = mkOutcome (withCors "https://wedding.example"
                 (jsonResponse (rt := Scenario.rt)
                    (JObj [("error", JStr "Invalid password.")]) 401))
              Scenario.db []
  /\ fetch (rt := Scenario.rt) Scenario.env Scenario.amb Scenario.listWithStaleToken Scenario.db
     = mkOutcome (withCors "https://wedding.example"
                    (jsonResponse (rt := Scenario.rt) (JObj [("error", JStr "Unauthorized")]) 401))
                 Scenario.db [].
Proof.
  refine (unauthorized_messages (rt := Scenario.rt) Scenario.env Scenario.amb Scenario.db
            Scenario.wrongPassword (JObj [("password", JStr "guess")]) "guess"
            Scenario.listWithStaleToken
            eq_refl eq_refl _ _ _ _ _ _).
  - vm_compute; reflexivity.
  - reflexivity.
  - vm_compute; reflexivity.
  - vm_compute. discriminate.
  - split; [reflexivity | left; reflexivity].
  - refine (token_expired (rt := Scenario.rt) Scenario.env Scenario.amb Scenario.listWithStaleToken
              Scenario.staleToken
              (b64urlJson (rt := Scenario.rt) jwtHeader)
              (b64urlJson (rt := Scenario.rt)
                 (fullPayload 1600000000000 Scenario.adminClaims 21600))
              (b64url (hmacSha256 (rt := Scenario.rt) "secret"
                         (b64urlJson (rt := Scenario.rt) jwtHeader +:+ "." +:+
                          b64urlJson (rt := Scenario.rt)
                            (fullPayload 1600000000000 Scenario.adminClaims 21600))))
              (utf8_encode
                 (JSON_stringify (rt := Scenario.rt)
                    (fullPayload 1600000000000 Scenario.adminClaims 21600)))
              (fullPayload 1600000000000 Scenario.adminClaims 21600)
              1600021600 _ _ _ _ _ _);
      vm_compute; reflexivity.
Defined.

(** ** Constant-time comparison *)

(** The password check of [POST /admin/login] passes exactly when the
    digest computed equals the configured one. *)
Lemma password_check_iff `{rt : Platform} (env : Env) (password : string) :
  timingSafeEqual (sha256Hex (ADMIN_PASSWORD_SALT env +:+ password)) (ADMIN_PASSWORD_HASH env)
  = true
  <-> sha256Hex (ADMIN_PASSWORD_SALT env +:+ password) = ADMIN_PASSWORD_HASH env.
Proof. apply timingSafeEqual_true_iff. Qed.

(** The signature check of [verifyJWT] passes exactly when the signature
    supplied is the one computed over the first two segments. *)
Lemma signature_check_iff `{rt : Platform} (secret p1 p2 sig : string) :
  timingSafeEqual (b64url (hmacSha256 secret (p1 +:+ "." +:+ p2))) sig = true
  <-> b64url (hmacSha256 secret (p1 +:+ "." +:+ p2)) = sig.
Proof. apply timingSafeEqual_true_iff. Qed.

(** C10: for all strings [a] and [b], [timingSafeEqual a b] is [true] if
    and only if [a] and [b] are equal. *)
Theorem timingSafeEqual_iff_eq (a b : string) :
  timingSafeEqual a b = true <-> a = b.
Proof.
  split.
  - intros Heq. now apply timingSafeEqual_true_iff.
  - intros ->. apply timingSafeEqual_refl.
Qed.

(** ** The handler on a whole visit *)

Example normalizeName_smith_family :
  normalizeName "The Smith Family!" = "the smith family"
  /\ normalizeName "the   smith family" = "the smith family".
Proof. split; reflexivity. Qed.

Example allowedGuests_bounds :
  status (response (fetch (rt := Scenario.rt) Scenario.env Scenario.amb
                      (Scenario.createInvite 11) Scenario.emptyDb)) = 400
  /\ status (response (fetch (rt := Scenario.rt) Scenario.env Scenario.amb
                         (Scenario.createInvite 10) Scenario.emptyDb)) = 200.
Proof. split; vm_compute; reflexivity. Qed.

(** An invitation is created, found by a differently written name,
    answered, listed and deleted. *)
Example create_find_answer_list_delete :
  let id := randomUUID Scenario.amb in
  let created := fetch (rt := Scenario.rt) Scenario.env Scenario.amb
                       (Scenario.createInvite 2) Scenario.emptyDb in
  let found := fetch (rt := Scenario.rt) Scenario.env Scenario.amb
                     Scenario.search (database created) in
  let answered := fetch (rt := Scenario.rt) Scenario.env Scenario.amb
                        (Scenario.post "/public/rsvp"
                           (Scenario.rsvpBody id "John Smith" true ["Jane Smith"; "Joe Smith"]))
                        (database found) in
  let listed := fetch (rt := Scenario.rt) Scenario.env Scenario.later
                      (Scenario.asAdmin "GET" [] JNull) (database answered) in
  let deleted := fetch (rt := Scenario.rt) Scenario.env Scenario.later
                       (Scenario.asAdmin "DELETE" [("id", id)] JNull) (database listed) in
  responseBody (response found) = responseBody (response created)
  /\ status (response answered) = 200
  /\ mail_total <$> background answered = [3]
  /\ responseBody (response listed)
     = Some (JSON_stringify (rt := Scenario.rt)
               (JObj [("invites",
                       JArr [JObj [("id", JStr id);
                                   ("displayName", JStr "John Smith");
                                   ("allowedGuests", JNum 2);
                                   ("message", JNull);
                                   ("rsvpAttending", JNum 1);
                                   ("rsvpUpdatedAt", JStr "2023-11-14T22:13:20.000Z")]])]))
  /\ database deleted = Scenario.emptyDb.
Proof. vm_compute. repeat split; reflexivity. Qed.

(** ** What one request does to the database *)

Section Changes.
Context `{rt : Platform}.
Variable env : Env.
Variable amb : Ambient.
Variable req : Request.

Lemma responded_unchanged db data st :
  Responded env amb req db (respond env req db [] data st).
Proof.
  exists data, st. cbn [response database background].
  split; [reflexivity|]. split; [constructor | auto].
Qed.

Lemma responded_bind {A : Type} db (m : result A) (k : A -> result Outcome) :
  (forall a, m = inr a -> Responded env amb req db (k a)) ->
  Responded env amb req db (bind m k).
Proof.
  intros Hk. destruct m as [e|a]; cbn [bind]; [exact I | now apply Hk].
Qed.

Lemma responded_publicFind db : Responded env amb req db (publicFind env req db).
Proof.
  unfold publicFind. apply responded_bind. intros parsed _.
  apply responded_bind. intros name _.
  destruct (negb _); [apply responded_unchanged|].
  destruct (selectInviteByNormName _ _) as [[id row]|]; apply responded_unchanged.
Qed.

Lemma responded_publicInvite db : Responded env amb req db (publicInvite env req db).
Proof.
  unfold publicInvite.
  destruct (searchGet req "id") as [id|]; [|apply responded_unchanged].
  destruct (negb _); [apply responded_unchanged|].
  destruct (selectInviteById db id); apply responded_unchanged.
Qed.

Lemma responded_publicRsvp db :
  method req = "POST" -> pathname req = "/public/rsvp" ->
  Responded env amb req db (publicRsvp env amb req db).
Proof.
  intros Hm Hp.
  destruct (JSON_parse (body req)) as [e|parsed] eqn:Hparse;
    [unfold publicRsvp, requestJson; rewrite Hparse; exact I|].
  rewrite (publicRsvp_parsed env amb req db parsed Hparse).
  destruct (rsvpConverts parsed) eqn:Hconv; [|exact I]. cbv zeta.
  destruct (negb (nonEmpty (stringField parsed "inviteId"))
            || negb (nonEmpty (trim (stringField parsed "primaryName")))) eqn:Hreq;
    [apply responded_unchanged|].
  apply orb_false_elim in Hreq as [Hid Hname].
  apply negb_false_iff in Hid, Hname.
  unfold selectInviteById.
  destruct (invites db !! stringField parsed "inviteId") as [inv|] eqn:Hinv;
    [|apply responded_unchanged].
  destruct (toBoolean _ && _) eqn:Hcheck; [apply responded_unchanged|].
  eexists _, 200. cbn [response database background respond ret].
  split; [reflexivity|]. split; [|intros Hst; now contradiction Hst].
  now apply (change_answer env amb req db parsed inv).
Qed.

Lemma responded_adminLogin db : Responded env amb req db (adminLogin env amb req db).
Proof.
  unfold adminLogin. apply responded_bind. intros parsed _.
  apply responded_bind. intros password _.
  destruct (negb _); [apply responded_unchanged|].
  destruct (negb _); apply responded_unchanged.
Qed.

Lemma responded_adminListInvites db :
  Responded env amb req db (adminListInvites env amb req db).
Proof.
  unfold adminListInvites. apply responded_bind. intros [admin|] _;
    apply responded_unchanged.
Qed.

Lemma responded_adminCreateInvite db :
  method req = "POST" -> pathname req = "/admin/invites" ->
  Responded env amb req db (adminCreateInvite env amb req db).
Proof.
  intros Hm Hp. unfold adminCreateInvite.
  apply responded_bind. intros [admin|] Hadmin; [|apply responded_unchanged].
  apply responded_bind. intros parsed _.
  apply responded_bind. intros displayName _.
  apply responded_bind. intros allowedGuests _.
  apply responded_bind. intros message _.
  destruct (negb (nonEmpty (trim displayName))) eqn:Hname;
    [apply responded_unchanged|].
  apply negb_false_iff in Hname.
  destruct allowedGuests as [n|]; [|apply responded_unchanged].
  destruct ((n <? 0) || (10 <? n)) eqn:Hrange; [apply responded_unchanged|].
  apply orb_false_elim in Hrange as [Hlo Hhi].
  apply Z.ltb_ge in Hlo, Hhi.
  unfold insertInvite.
  destruct (invites db !! randomUUID amb) eqn:Hfresh; cbn [bind throw ret]; [exact I|].
  eexists _, 200. cbn [response database background respond ret].
  split; [reflexivity|]. split; [|intros Hst; now contradiction Hst].
  apply (change_create env amb req db admin); auto.
  repeat split; auto.
Qed.

Lemma responded_adminDeleteInvite db :
  method req = "DELETE" -> pathname req = "/admin/invites" ->
  Responded env amb req db (adminDeleteInvite env amb req db).
Proof.
  intros Hm Hp. unfold adminDeleteInvite.
  apply responded_bind. intros [admin|] Hadmin; [|apply responded_unchanged].
  destruct (searchGet req "id") as [id|] eqn:Hid; [|apply responded_unchanged].
  destruct (negb (nonEmpty id)) eqn:Hne; [apply responded_unchanged|].
  apply negb_false_iff in Hne.
  eexists _, 200. cbn [response database background respond ret].
  split; [reflexivity|]. split; [|intros Hst; now contradiction Hst].
  now apply (change_delete env amb req db admin id).
Qed.

Lemma guard_true m path s1 s2 :
  String.eqb m s1 && String.eqb path s2 = true -> m = s1 /\ path = s2.
Proof.
  intros [H1 H2]%andb_prop. split; now apply String.eqb_eq.
Qed.

Lemma responded_route db : Responded env amb req db (route env amb req db).
Proof.
  unfold route.
  destruct (String.eqb (method req) "POST" && String.eqb (pathname req) "/public/find");
    [apply responded_publicFind|].
  destruct (String.eqb (method req) "GET" && String.eqb (pathname req) "/public/invite");
    [apply responded_publicInvite|].
  destruct (String.eqb (method req) "POST" && String.eqb (pathname req) "/public/rsvp")
    eqn:G3; [apply guard_true in G3 as [Hm Hp]; now apply responded_publicRsvp|].
  destruct (String.eqb (method req) "POST" && String.eqb (pathname req) "/admin/login");
    [apply responded_adminLogin|].
  destruct (String.eqb (method req) "GET" && String.eqb (pathname req) "/admin/invites");
    [apply responded_adminListInvites|].
  destruct (String.eqb (method req) "POST" && String.eqb (pathname req) "/admin/invites")
    eqn:G6; [apply guard_true in G6 as [Hm Hp]; now apply responded_adminCreateInvite|].
  destruct (String.eqb (method req) "DELETE" && String.eqb (pathname req) "/admin/invites")
    eqn:G7; [apply guard_true in G7 as [Hm Hp]; now apply responded_adminDeleteInvite|].
  apply responded_unchanged.
Qed.

(** The three shapes of a response. *)
Lemma fetch_cases db :
  let out := fetch env amb req db in
  (method req = "OPTIONS"
   /\ out = mkOutcome (mkResponse 200 (corsHeaders (SITE_ORIGIN env)) None) db [])
  \/ (exists e, method req <> "OPTIONS" /\ route env amb req db = inl e
                /\ out = mkOutcome (serverError env e) db [])
  \/ (exists data st,
        method req <> "OPTIONS"
        /\ route env amb req db = inr out
        /\ response out = withCors (SITE_ORIGIN env) (jsonResponse data st)
        /\ Change env amb req db (database out) (background out)
        /\ (st <> 200 -> database out = db /\ background out = [])).
Proof.
  cbv zeta. unfold fetch.
  destruct (String.eqb_spec (method req) "OPTIONS") as [Hm|Hm].
  - left. now rewrite allowedOrigin_site.
  - right. pose proof (responded_route db) as Hr.
    destruct (route env amb req db) as [e|out]; [left; now exists e|].
    right. destruct Hr as (data & st & Hresp & Hchange & Hfail).
    exists data, st. rewrite allowedOrigin_site in Hresp. auto.
Qed.

Lemma fetch_change db :
  Change env amb req db (database (fetch env amb req db)) (background (fetch env amb req db)).
Proof.
  destruct (fetch_cases db) as [[_ ->]|[(e & _ & _ & ->)|(data & st & _ & _ & _ & H & _)]];
    try constructor. exact H.
Qed.

End Changes.

(** ** Every response *)

Lemma corsHeaders_lookup origin :
  corsHeaders origin !! "Access-Control-Allow-Origin" = Some origin
  /\ corsHeaders origin !! "Access-Control-Allow-Methods" = Some "GET,POST,DELETE,OPTIONS"
  /\ corsHeaders origin !! "Access-Control-Allow-Headers" = Some "Content-Type, Authorization"
  /\ corsHeaders origin !! "Content-Type" = None.
Proof.
  unfold corsHeaders.
  rewrite lookup_insert_eq, !lookup_insert_ne, !lookup_insert_eq by discriminate.
  rewrite !lookup_insert_ne by discriminate.
  auto.
Qed.

(** X15: whatever the request and whatever [Origin] it declares, the
    response carries the three CORS headers with the configured site
    origin, and a response with a body is declared [application/json].
    This covers the preflight answer and the 500 built in [catch]. *)
Theorem every_response_has_cors `{rt : Platform}
    (env : Env) (amb : Ambient) (req : Request) (db : DB) :
  let r := response (fetch env amb req db) in
  headers r !! "Access-Control-Allow-Origin" = Some (SITE_ORIGIN env)
  /\ headers r !! "Access-Control-Allow-Methods" = Some "GET,POST,DELETE,OPTIONS"
  /\ headers r !! "Access-Control-Allow-Headers" = Some "Content-Type, Authorization"
  /\ (responseBody r = None \/ headers r !! "Content-Type" = Some "application/json").
Proof.
  cbv zeta.
  destruct (corsHeaders_lookup (SITE_ORIGIN env)) as (Ho & Hm & Hh & Hc).
  assert (Hjson : forall data st,
            let r := withCors (SITE_ORIGIN env) (jsonResponse data st) in
            headers r !! "Access-Control-Allow-Origin" = Some (SITE_ORIGIN env)
            /\ headers r !! "Access-Control-Allow-Methods" = Some "GET,POST,DELETE,OPTIONS"
            /\ headers r !! "Access-Control-Allow-Headers" = Some "Content-Type, Authorization"
            /\ headers r !! "Content-Type" = Some "application/json").
  { intros data st. cbn [withCors jsonResponse headers].
    rewrite !(lookup_union_l' _ _ _) by (rewrite ?Ho, ?Hm, ?Hh; eauto).
    rewrite lookup_union_r by exact Hc.
    rewrite lookup_insert_eq. auto. }
  destruct (fetch_cases env amb req db)
    as [[_ ->]|[(e & _ & _ & ->)|(data & st & _ & _ & -> & _)]].
  - cbn [response headers responseBody]. auto.
  - cbn [response serverError headers responseBody].
    destruct (Hjson JNull 200) as (H1 & H2 & H3 & H4).
    cbn [withCors jsonResponse headers] in H1, H2, H3, H4. auto.
  - destruct (Hjson data st) as (H1 & H2 & H3 & H4). auto.
Qed.

(** X16: a response whose status is not 200 leaves the database as it was
    and schedules no notification. *)
Theorem failure_changes_nothing `{rt : Platform}
    (env : Env) (amb : Ambient) (req : Request) (db : DB) :
  status (response (fetch env amb req db)) <> 200 ->
  database (fetch env amb req db) = db /\ background (fetch env amb req db) = [].
Proof.
  intros Hst.
  destruct (fetch_cases env amb req db)
    as [[_ Hout]|[(e & _ & _ & Hout)|(data & st & _ & _ & Hresp & _ & Hfail)]].
  - now rewrite Hout.
  - now rewrite Hout.
  - apply Hfail. intros ->. apply Hst. now rewrite Hresp.
Qed.

Lemma failure_changes_nothing_witness :
  database (fetch (rt := Scenario.rt) Scenario.env Scenario.amb Scenario.threeNames Scenario.db)
  = Scenario.db
  /\ background (fetch (rt := Scenario.rt) Scenario.env Scenario.amb
                   Scenario.threeNames Scenario.db) = [].
Proof.
  apply (failure_changes_nothing (rt := Scenario.rt)).
  vm_compute. discriminate.
Defined.

(** X17: the database changes only on [POST /public/rsvp], or on
    [POST] or [DELETE /admin/invites] from a request the auth middleware
    let through; in particular no [GET] changes it. *)
Theorem only_three_routes_write `{rt : Platform}
    (env : Env) (amb : Ambient) (req : Request) (db : DB) :
  database (fetch env amb req db) <> db ->
  (method req = "POST" /\ pathname req = "/public/rsvp")
  \/ ((method req = "POST" \/ method req = "DELETE")
      /\ pathname req = "/admin/invites"
      /\ exists admin, requireAdmin env amb req = inr (Some admin)).
Proof.
  intros Hch.
  destruct (fetch_change env amb req db); eauto 8.
  now contradiction Hch.
Qed.

Lemma only_three_routes_write_witness :
  (method Scenario.firstAnswer = "POST" /\ pathname Scenario.firstAnswer = "/public/rsvp")
  \/ ((method Scenario.firstAnswer = "POST" \/ method Scenario.firstAnswer = "DELETE")
      /\ pathname Scenario.firstAnswer = "/admin/invites"
      /\ exists admin,
           requireAdmin (rt := Scenario.rt) Scenario.env Scenario.amb Scenario.firstAnswer
           = inr (Some admin)).
Proof.
  apply (only_three_routes_write (rt := Scenario.rt) Scenario.env Scenario.amb
           Scenario.firstAnswer Scenario.db).
  intros Heq. apply (f_equal (fun d => rsvps d !! "inv-1")) in Heq.
  vm_compute in Heq. discriminate.
Defined.

(** X18: a request the auth middleware does not let through leaves the
    table of invitations as it was and removes no answer. *)
Theorem invitations_need_admin `{rt : Platform}
    (env : Env) (amb : Ambient) (req : Request) (db : DB) :
  (forall admin, requireAdmin env amb req <> inr (Some admin)) ->
  invites (database (fetch env amb req db)) = invites db
  /\ (forall id, is_Some (rsvps db !! id) ->
                 is_Some (rsvps (database (fetch env amb req db)) !! id)).
Proof.
  intros Hno.
  destruct (fetch_change env amb req db)
    as [|parsed inv _ _ _ _ _ _ _ _|admin row _ _ Hadmin _ _ _|admin id _ _ Hadmin _ _].
  - auto.
  - split; [reflexivity|]. intros id Hid. cbn [upsertRsvp rsvps].
    destruct (decide (stringField parsed "inviteId" = id)) as [->|Hne].
    + rewrite lookup_insert_eq. eauto.
    + now rewrite lookup_insert_ne.
  - now contradiction (Hno admin).
  - now contradiction (Hno admin).
Qed.

Lemma invitations_need_admin_witness :
  invites (database (fetch (rt := Scenario.rt) Scenario.env Scenario.amb
                       Scenario.listWithStaleToken Scenario.db))
  = invites Scenario.db.
Proof.
  apply (invitations_need_admin (rt := Scenario.rt) Scenario.env Scenario.amb
           Scenario.listWithStaleToken Scenario.db).
  intros admin. vm_compute. discriminate.
Defined.

(** ** Invariants of the two tables *)

Section Invariants.
Context `{rt : Platform}.
Variable env : Env.

Lemma answersHaveInvites_step amb req db :
  answersHaveInvites db -> answersHaveInvites (database (fetch env amb req db)).
Proof.
  intros Hinv.
  destruct (fetch_change env amb req db)
    as [|parsed inv _ _ _ _ _ _ Hrow _|admin row _ _ _ _ _ _|admin id _ _ _ _ _];
    [exact Hinv| | |]; intros k; cbn [upsertRsvp deleteInvite invites rsvps].
  - destruct (decide (stringField parsed "inviteId" = k)) as [<-|Hne].
    + intros _. eauto.
    + rewrite lookup_insert_ne by assumption. apply Hinv.
  - intros Hk. destruct (decide (randomUUID amb = k)) as [<-|Hne].
    + rewrite lookup_insert_eq. eauto.
    + rewrite lookup_insert_ne by assumption. now apply Hinv.
  - destruct (decide (id = k)) as [<-|Hne].
    + rewrite lookup_delete_eq. intros [row Hrow]. discriminate.
    + rewrite !lookup_delete_ne by assumption. apply Hinv.
Qed.

Lemma wellFormedInvites_step amb req db :
  wellFormedInvites db -> wellFormedInvites (database (fetch env amb req db)).
Proof.
  intros Hinv.
  destruct (fetch_change env amb req db)
    as [|parsed inv _ _ _ _ _ _ _ _|admin row _ _ _ _ Hrow _|admin id _ _ _ _ _];
    [exact Hinv| | |]; intros k r; cbn [upsertRsvp deleteInvite invites rsvps].
  - apply Hinv.
  - destruct (decide (randomUUID amb = k)) as [<-|Hne].
    + rewrite lookup_insert_eq. now intros [= <-].
    + rewrite lookup_insert_ne by assumption. apply Hinv.
  - destruct (decide (id = k)) as [<-|Hne].
    + rewrite lookup_delete_eq. discriminate.
    + rewrite lookup_delete_ne by assumption. apply Hinv.
Qed.

End Invariants.

(** X19: if every answer belongs to an invitation, it is still so after
    any list of requests: an answer is only written for an invitation that
    exists, and deleting an invitation deletes its answer. *)
Theorem answers_keep_their_invitations `{rt : Platform}
    (env : Env) (steps : list (Ambient * Request)) (db : DB) :
  answersHaveInvites db -> answersHaveInvites (serve env steps db).
Proof.
  revert db. induction steps as [|[amb req] steps IH]; intros db Hinv; [exact Hinv|].
  cbn [serve]. apply IH. now apply answersHaveInvites_step.
Qed.

Lemma answers_keep_their_invitations_witness :
  answersHaveInvites
    (serve (rt := Scenario.rt) Scenario.env
       [(Scenario.amb, Scenario.firstAnswer); (Scenario.later, Scenario.secondAnswer)]
       Scenario.db).
Proof.
  apply (answers_keep_their_invitations (rt := Scenario.rt)).
  intros id [row Hrow]. vm_compute in Hrow. discriminate.
Defined.

(** X20: if every invitation has a non-empty display name, the
    normalization of that name as its lookup key, and an allowance from 0
    to 10, it is still so after any list of requests. *)
Theorem invitations_stay_well_formed `{rt : Platform}
    (env : Env) (steps : list (Ambient * Request)) (db : DB) :
  wellFormedInvites db -> wellFormedInvites (serve env steps db).
Proof.
  revert db. induction steps as [|[amb req] steps IH]; intros db Hinv; [exact Hinv|].
  cbn [serve]. apply IH. now apply wellFormedInvites_step.
Qed.

Lemma invitations_stay_well_formed_witness :
  wellFormedInvites
    (serve (rt := Scenario.rt) Scenario.env
       [(Scenario.amb, Scenario.createInvite 2); (Scenario.later, Scenario.firstAnswer)]
       Scenario.emptyDb).
Proof.
  apply (invitations_stay_well_formed (rt := Scenario.rt)).
  intros id row Hrow. vm_compute in Hrow. discriminate.
Defined.

(** ** Notifications *)

(** X21: a notification is scheduled only together with a stored answer:
    then it is the only one, the status is 200, the row of the invitation
    named is the one submitted, the total it reports is one more than the
    number of names stored when attending and zero otherwise, and when
    attending the number of additional guests is within the allowance. *)
Theorem notification_goes_with_stored_answer `{rt : Platform}
    (env : Env) (amb : Ambient) (req : Request) (db : DB) (n : Notification) :
  In n (background (fetch env amb req db)) ->
  background (fetch env amb req db) = [n]
  /\ status (response (fetch env amb req db)) = 200
  /\ exists parsed inv,
       JSON_parse (body req) = inr parsed
       /\ invites db !! stringField parsed "inviteId" = Some inv
       /\ rsvps (database (fetch env amb req db)) !! stringField parsed "inviteId"
          = Some (submittedRow amb req parsed)
       /\ mail_invite n = display_name inv
       /\ mail_total n
          = (if toBoolean (optGet parsed "attending")
             then 1 + Z.of_nat (length (guestNamesField parsed)) else 0)
       /\ (mail_attending n = true -> mail_additional n <= allowed_guests inv).
Proof.
  intros Hin.
  destruct (fetch_cases env amb req db)
    as [[_ Hout]|[(e & _ & _ & Hout)|(data & st & _ & _ & Hresp & Hchange & Hfail)]].
  - rewrite Hout in Hin. destruct Hin.
  - rewrite Hout in Hin. destruct Hin.
  - assert (Hst : st = 200).
    { destruct (Z.eq_dec st 200) as [|Hne]; [assumption|].
      destruct (Hfail Hne) as [_ Hnone]. rewrite Hnone in Hin. destruct Hin. }
    rewrite Hresp, Hst. clear Hresp Hfail.
    remember (database (fetch env amb req db)) as db' eqn:Hdb.
    remember (background (fetch env amb req db)) as tasks eqn:Htasks.
    destruct Hchange as [|parsed inv _ _ Hparse _ _ _ Hinv Hcheck| |];
      [now destruct Hin| |now destruct Hin|now destruct Hin].
    destruct Hin as [<-|[]].
    split; [reflexivity|]. split; [reflexivity|].
    exists parsed, inv. cbn [upsertRsvp rsvps].
    rewrite lookup_insert_eq.
    repeat split; auto.
    cbn [rsvpNotification mail_attending mail_additional].
    intros Hatt. rewrite Hatt in Hcheck |- *. cbn [andb] in Hcheck.
    now apply Z.ltb_ge in Hcheck.
Qed.

Lemma notification_goes_with_stored_answer_witness :
  background (fetch (rt := Scenario.rt) Scenario.env Scenario.amb
                Scenario.firstAnswer Scenario.db)
  = [mkNotification "John Smith" true 3 "John Smith" 2 (Some "Jane Smith, Joe Smith") None
       "2023-11-14T22:13:20.000Z" (Some "203.0.113.7")].
Proof.
  apply (notification_goes_with_stored_answer (rt := Scenario.rt)).
  vm_compute. left. reflexivity.
Defined.

(** ** Looking invitations up *)

Lemma selectInviteByNormName_some db norm id row :
  selectInviteByNormName db norm = Some (id, row) ->
  invites db !! id = Some row /\ norm_name row = norm.
Proof.
  unfold selectInviteByNormName. intros Hfind.
  apply find_some in Hfind as [Hin Heq]. cbn [snd] in Heq.
  split; [|now apply String.eqb_eq].
  now apply elem_of_map_to_list, list_elem_of_In.
Qed.

Lemma selectInviteByNormName_none db norm :
  selectInviteByNormName db norm = None ->
  forall id row, invites db !! id = Some row -> norm_name row <> norm.
Proof.
  unfold selectInviteByNormName. intros Hfind id row Hrow.
  apply String.eqb_neq.
  apply (find_none _ _ Hfind (id, row)).
  now apply list_elem_of_In, elem_of_map_to_list.
Qed.


(** X22: [POST /public/find] with a body that parses and a [name] that
    [String] converts answers 400 when the normalized name is empty;
    otherwise 404 when no invitation has that normalized name, and
    otherwise 200 with an invitation that has it.  It never changes the
    database. *)
Theorem find_answers_by_normalized_name `{rt : Platform}
    (env : Env) (amb : Ambient) (req : Request) (db : DB) (parsed : json) (name : string) :
  method req = "POST" ->
  pathname req = "/public/find" ->
  JSON_parse (body req) = inr parsed ->
  JS_String (orEmpty (optGet parsed "name")) = inr name ->
  let norm := normalizeName name in
  let answer data st := mkOutcome (withCors (SITE_ORIGIN env) (jsonResponse data st)) db [] in
  (norm = "" /\
   fetch env amb req db = answer (JObj [("error", JStr "Name is required.")]) 400)
  \/ (norm <> "" /\
      (forall id row, invites db !! id = Some row -> norm_name row <> norm) /\
      fetch env amb req db
      = answer (JObj [("error", JStr "Invite not found. Please check spelling.")]) 404)
  \/ (norm <> "" /\
      exists id row,
        invites db !! id = Some row /\ norm_name row = norm /\
        fetch env amb req db
        = answer (JObj [("invite",
                         JObj [("id", JStr id);
                               ("displayName", JStr (display_name row));
                               ("allowedGuests", JNum (allowed_guests row));
                               ("message", jsonOfOption (message row))])]) 200).
Proof.
  intros Hm Hp Hparse Hname norm answer.
  rewrite fetch_route by (rewrite Hm; discriminate).
  unfold route. rewrite Hm, Hp. cbn [String.eqb andb].
  change (String.eqb "POST" "POST" && String.eqb "/public/find" "/public/find") with true.
  cbv iota. unfold publicFind, requestJson. rewrite Hparse. cbn [bind].
  rewrite Hname. cbn [bind]. fold norm.
  unfold respond. rewrite allowedOrigin_site.
  destruct norm as [|c s] eqn:Hnorm.
  - left. auto.
  - right. cbn [nonEmpty negb].
    destruct (selectInviteByNormName db (String c s)) as [[id row]|] eqn:Hsel.
    + right. split; [discriminate|].
      apply selectInviteByNormName_some in Hsel as [Hrow Hnorm'].
      exists id, row. auto.
    + left. split; [discriminate|]. split; [|reflexivity].
      now apply selectInviteByNormName_none.
Qed.

Lemma find_answers_by_normalized_name_witness :
  status (response (fetch (rt := Scenario.rt) Scenario.env Scenario.amb
                      Scenario.search Scenario.db)) = 200.
Proof.
  destruct (find_answers_by_normalized_name (rt := Scenario.rt)
              Scenario.env Scenario.amb Scenario.search Scenario.db
              (JObj [("name", JStr "john   SMITH")]) "john   SMITH"
              eq_refl eq_refl ltac:(vm_compute; reflexivity) eq_refl)
    as [[Hnorm _]|[(_ & Hnone & _)|(_ & id & row & _ & _ & ->)]].
  - vm_compute in Hnorm. discriminate.
  - exfalso.
    apply (Hnone "inv-1" (mkInvite "John Smith" "john smith" 2 None "2023-11-01T10:00:00.000Z"));
      vm_compute; reflexivity.
  - reflexivity.
Defined.

(** ** Creating and deleting invitations *)

Section Admin.
Context `{rt : Platform}.
Variable env : Env.
Variable amb : Ambient.
Variable req : Request.

Lemma route_adminCreateInvite db :
  method req = "POST" -> pathname req = "/admin/invites" ->
  route env amb req db = adminCreateInvite env amb req db.
Proof. intros Hm Hp. unfold route. now rewrite Hm, Hp. Qed.

Lemma route_adminDeleteInvite db :
  method req = "DELETE" -> pathname req = "/admin/invites" ->
  route env amb req db = adminDeleteInvite env amb req db.
Proof. intros Hm Hp. unfold route. now rewrite Hm, Hp. Qed.

Lemma route_adminListInvites db :
  method req = "GET" -> pathname req = "/admin/invites" ->
  route env amb req db = adminListInvites env amb req db.
Proof. intros Hm Hp. unfold route. now rewrite Hm, Hp. Qed.

Lemma route_publicInvite db :
  method req = "GET" -> pathname req = "/public/invite" ->
  route env amb req db = publicInvite env req db.
Proof. intros Hm Hp. unfold route. now rewrite Hm, Hp. Qed.

(** A create request answered with 200 inserted its row. *)
Lemma adminCreateInvite_outcome db :
  method req = "POST" -> pathname req = "/admin/invites" ->
  status (response (fetch env amb req db)) = 200 ->
  exists admin parsed displayName n message,
    requireAdmin env amb req = inr (Some admin)
    /\ JSON_parse (body req) = inr parsed
    /\ JS_String (orEmpty (optGet parsed "displayName")) = inr displayName
    /\ numberField (optGet parsed "allowedGuests") = inr (Some n)
    /\ messageField (optGet parsed "message") = inr message
    /\ 0 <= n <= 10
    /\ nonEmpty (trim displayName) = true
    /\ invites db !! randomUUID amb = None
    /\ let row := mkInvite (trim displayName) (normalizeName (trim displayName))
                           n message (toISOString (now_ms amb)) in
       fetch env amb req db
       = mkOutcome
           (withCors (SITE_ORIGIN env)
              (jsonResponse (JObj [("invite", inviteJson (randomUUID amb) row)]) 200))
           (mkDB (<[randomUUID amb := row]> (invites db)) (rsvps db)) [].
Proof.
  intros Hm Hp. rewrite fetch_route by (rewrite Hm; discriminate).
  rewrite route_adminCreateInvite by assumption.
  unfold adminCreateInvite, unauthorized, requestJson, respond, insertInvite.
  rewrite allowedOrigin_site.
  destruct (requireAdmin env amb req) as [e|[admin|]] eqn:Hadmin; cbn [bind];
    try discriminate.
  destruct (JSON_parse (body req)) as [e|parsed] eqn:Hparse; cbn [bind]; [discriminate|].
  destruct (JS_String (orEmpty (optGet parsed "displayName"))) as [e|displayName] eqn:Hdn;
    cbn [bind]; [discriminate|].
  destruct (numberField (optGet parsed "allowedGuests")) as [e|allowedGuests] eqn:Hnum;
    cbn [bind]; [discriminate|].
  destruct (messageField (optGet parsed "message")) as [e|message] eqn:Hmsg;
    cbn [bind]; [discriminate|].
  destruct (negb (nonEmpty (trim displayName))) eqn:Hname; [discriminate|].
  apply negb_false_iff in Hname.
  destruct allowedGuests as [n|]; [|discriminate].
  destruct ((n <? 0) || (10 <? n)) eqn:Hrange; [discriminate|].
  apply orb_false_elim in Hrange as [Hlo Hhi]. apply Z.ltb_ge in Hlo, Hhi.
  destruct (invites db !! randomUUID amb) eqn:Hfresh; cbn [bind throw ret]; [discriminate|].
  intros _. exists admin, parsed, displayName, n, message. repeat split; auto.
Qed.

(** A delete request the middleware lets through, with an id. *)
Lemma adminDeleteInvite_outcome db admin id :
  method req = "DELETE" -> pathname req = "/admin/invites" ->
  requireAdmin env amb req = inr (Some admin) ->
  searchGet req "id" = Some id -> nonEmpty id = true ->
  fetch env amb req db
  = mkOutcome (withCors (SITE_ORIGIN env) (jsonResponse (JObj [("ok", JBool true)]) 200))
              (deleteInvite db id) [].
Proof.
  intros Hm Hp Hadmin Hid Hne. rewrite fetch_route by (rewrite Hm; discriminate).
  rewrite route_adminDeleteInvite by assumption.
  unfold adminDeleteInvite, respond. rewrite Hadmin. cbn [bind].
  rewrite Hid, Hne. cbn [negb]. now rewrite allowedOrigin_site.
Qed.

End Admin.

Section Lookups.
Context `{rt : Platform}.
Variable env : Env.
Variable amb : Ambient.
Variable req : Request.

(** [GET /public/invite?id=...] with a non-empty id. *)
Lemma publicInvite_outcome db id :
  method req = "GET" -> pathname req = "/public/invite" ->
  searchGet req "id" = Some id -> nonEmpty id = true ->
  fetch env amb req db
  = mkOutcome
      (withCors (SITE_ORIGIN env)
         (match invites db !! id with
          | Some row => jsonResponse (JObj [("invite", inviteJson id row)]) 200
          | None => jsonResponse (JObj [("error", JStr "Invite not found.")]) 404
          end))
      db [].
Proof.
  intros Hm Hp Hid Hne. rewrite fetch_route by (rewrite Hm; discriminate).
  rewrite route_publicInvite by assumption.
  unfold publicInvite, respond, selectInviteById. rewrite Hid, Hne. cbn [negb].
  rewrite allowedOrigin_site. now destruct (invites db !! id).
Qed.

End Lookups.

(** X23: an invitation created with status 200 is stored under the
    identifier drawn for it, well formed, and [GET /public/invite] with
    that identifier then answers 200 with the very body the create request
    was answered with. *)
Theorem created_invitation_is_served `{rt : Platform}
    (env : Env) (amb : Ambient) (create : Request) (db : DB)
    (amb' : Ambient) (lookup : Request) :
  method create = "POST" -> pathname create = "/admin/invites" ->
  status (response (fetch env amb create db)) = 200 ->
  method lookup = "GET" -> pathname lookup = "/public/invite" ->
  searchGet lookup "id" = Some (randomUUID amb) ->
  nonEmpty (randomUUID amb) = true ->
  let db' := database (fetch env amb create db) in
  (exists row, invites db' !! randomUUID amb = Some row /\ wellFormedInvite row)
  /\ invites db !! randomUUID amb = None
  /\ status (response (fetch env amb' lookup db')) = 200
  /\ responseBody (response (fetch env amb' lookup db'))
     = responseBody (response (fetch env amb create db))
  /\ database (fetch env amb' lookup db') = db'.
Proof.
  intros Hm Hp Hst Hm' Hp' Hid Hne.
  destruct (adminCreateInvite_outcome env amb create db Hm Hp Hst)
    as (admin & parsed & displayName & n & message
        & _ & _ & _ & _ & _ & Hn & Hname & Hfresh & Hout).
  cbv zeta in *. rewrite Hout. cbn [database response responseBody].
  rewrite (publicInvite_outcome env amb' lookup _ (randomUUID amb)) by assumption.
  cbn [invites]. rewrite lookup_insert_eq.
  split.
  { eexists. split; [reflexivity|].
    unfold wellFormedInvite. cbn [display_name norm_name allowed_guests]. auto. }
  repeat split; auto.
Qed.

Lemma created_invitation_is_served_witness :
  let created := fetch (rt := Scenario.rt) Scenario.env Scenario.amb
                       (Scenario.createInvite 2) Scenario.emptyDb in
  let lookup := mkRequest "GET" "/public/invite" [("id", randomUUID Scenario.amb)]
                          None None None "" in
  responseBody (response (fetch (rt := Scenario.rt) Scenario.env Scenario.later lookup
                            (database created)))
  = responseBody (response created).
Proof.
  intros created lookup.
  apply (created_invitation_is_served (rt := Scenario.rt) Scenario.env Scenario.amb
           (Scenario.createInvite 2) Scenario.emptyDb Scenario.later lookup);
    vm_compute; reflexivity.
Defined.

(** X24: a [DELETE /admin/invites?id=...] the auth middleware lets through
    is answered 200 whether or not the invitation exists; afterwards
    neither table has a row for the identifier and every other row is as
    before.  A later RSVP whose body parses and names the identifier is
    never accepted: it is answered 400, 404 or 500 and writes and sends
    nothing; when [String] converts its fields and its trimmed primary
    name is not empty, the answer is the 404 for an invitation that is not
    found. *)
Theorem delete_removes_invitation_and_answer `{rt : Platform}
    (env : Env) (amb : Ambient) (del : Request) (db : DB) (admin : json) (id : string)
    (amb' : Ambient) (answer : Request) (parsed : json) :
  method del = "DELETE" -> pathname del = "/admin/invites" ->
  requireAdmin env amb del = inr (Some admin) ->
  searchGet del "id" = Some id -> nonEmpty id = true ->
  method answer = "POST" -> pathname answer = "/public/rsvp" ->
  JSON_parse (body answer) = inr parsed ->
  JS_String (orEmpty (optGet parsed "inviteId")) = inr id ->
  let db' := database (fetch env amb del db) in
  let out := fetch env amb' answer db' in
  let guests := match optGet parsed "extraGuestNames" with
                | Some (JArr items) => items
                | _ => []
                end in
  status (response (fetch env amb del db)) = 200
  /\ invites db' !! id = None /\ rsvps db' !! id = None
  /\ (forall k, k <> id -> invites db' !! k = invites db !! k /\ rsvps db' !! k = rsvps db !! k)
  /\ (status (response out) = 400 \/ status (response out) = 404
      \/ status (response out) = 500)
  /\ database out = db' /\ background out = []
  /\ (forall primaryName entries notes,
        JS_String (orEmpty (optGet parsed "primaryName")) = inr primaryName ->
        mapM (fun x => JS_String (orEmpty (Some x))) guests = inr entries ->
        JS_String (orEmpty (optGet parsed "notes")) = inr notes ->
        nonEmpty (trim primaryName) = true ->
        out = mkOutcome (withCors (SITE_ORIGIN env)
                           (jsonResponse (JObj [("error", JStr "Invite not found.")]) 404))
                        db' []).
Proof.
  intros Hm Hp Hadmin Hid Hne Hm' Hp' Hparse Hnamed.
  cbv zeta.
  rewrite (adminDeleteInvite_outcome env amb del db admin id) by assumption.
  cbn [database response status withCors jsonResponse deleteInvite].
  split; [reflexivity|].
  unfold deleteInvite. cbn [invites rsvps]. rewrite !lookup_delete_eq.
  split; [reflexivity|]. split; [reflexivity|]. split.
  { intros k Hk. now rewrite !lookup_delete_ne by congruence. }
  set (db' := {| invites := delete id (invites db); rsvps := delete id (rsvps db) |}).
  assert (Hnot : method answer <> "OPTIONS") by (rewrite Hm'; discriminate).
  assert (Hroute : route env amb' answer db'
                   = if rsvpConverts parsed then
                       if nonEmpty (trim (stringField parsed "primaryName"))
                       then respond env answer db' [] (errorBody "Invite not found.") 404
                       else respond env answer db' [] (errorBody "Missing required fields.") 400
                     else inl to_primitive_error).
  { rewrite route_publicRsvp, (publicRsvp_parsed env amb' answer db' parsed) by assumption.
    destruct (rsvpConverts parsed); [|reflexivity]. cbv zeta.
    assert (Hid' : stringField parsed "inviteId" = id).
    { apply JS_String_value in Hnamed as [Hnamed _]. now rewrite Hnamed. }
    rewrite Hid', Hne. cbn [negb orb].
    destruct (nonEmpty (trim (stringField parsed "primaryName"))); [|reflexivity].
    cbn [negb]. unfold selectInviteById, db'. cbn [invites].
    now rewrite lookup_delete_eq. }
  rewrite (fetch_route env amb' answer db' Hnot), Hroute.
  split; [|split; [|split]].
  - destruct (rsvpConverts parsed); [|now right; right].
    destruct (nonEmpty (trim (stringField parsed "primaryName")));
      [right; left | left]; reflexivity.
  - destruct (rsvpConverts parsed); [|reflexivity].
    now destruct (nonEmpty (trim (stringField parsed "primaryName"))).
  - destruct (rsvpConverts parsed); [|reflexivity].
    now destruct (nonEmpty (trim (stringField parsed "primaryName"))).
  - intros primaryName entries notes Hprimary Hentries Hnotes Hblack.
    pose proof (extraGuestNamesOf_entries parsed entries Hentries) as Hnames.
    destruct (rsvpConverts_fields parsed _ _ _ _ Hnamed Hprimary Hnames Hnotes)
      as (-> & _ & -> & _).
    rewrite Hblack. unfold respond. now rewrite allowedOrigin_site.
Qed.

Lemma delete_removes_invitation_and_answer_witness :
  let answered := database (fetch (rt := Scenario.rt) Scenario.env Scenario.amb
                              Scenario.firstAnswer Scenario.db) in
  let del := Scenario.asAdmin "DELETE" [("id", "inv-1")] JNull in
  let db' := database (fetch (rt := Scenario.rt) Scenario.env Scenario.later del answered) in
  rsvps answered !! "inv-1" <> None
  /\ invites db' !! "inv-1" = None /\ rsvps db' !! "inv-1" = None
  /\ status (response (fetch (rt := Scenario.rt) Scenario.env Scenario.later
                         Scenario.firstAnswer db')) = 404.
Proof.
  intros answered del db'.
  split; [vm_compute; discriminate|].
  destruct (delete_removes_invitation_and_answer (rt := Scenario.rt)
              Scenario.env Scenario.later del answered
              (fullPayload (now_ms Scenario.amb) Scenario.adminClaims 21600) "inv-1"
              Scenario.later Scenario.firstAnswer
              (Scenario.rsvpBody "inv-1" "John Smith" true ["Jane Smith"; "Joe Smith"])
              eq_refl eq_refl ltac:(vm_compute; reflexivity) eq_refl eq_refl
              eq_refl eq_refl ltac:(vm_compute; reflexivity) eq_refl)
    as (_ & H1 & H2 & _ & _ & _ & _ & H3).
  split; [exact H1|]. split; [exact H2|].
  fold answered del db' in H3 |- *. subst db'.
  rewrite (H3 "John Smith" ["Jane Smith"; "Joe Smith"] "" eq_refl eq_refl eq_refl eq_refl).
  reflexivity.
Defined.
(** ** getBearer *)

Lemma length_toLowerCase s : String.length (toLowerCase s) = String.length s.
Proof.
  induction s as [|c s IH]; [reflexivity|]. cbn [toLowerCase String.length]. now rewrite IH.
Qed.

Lemma substring_prefix p r : substring 0 (String.length p) (p +:+ r) = p.
Proof.
  induction p as [|c p IH]; cbn [String.length].
  - destruct r; reflexivity.
  - rewrite app_cons. cbn [substring]. now rewrite IH.
Qed.

Lemma dropStr_prefix p r : dropStr (String.length p) (p +:+ r) = r.
Proof.
  induction p as [|c p IH]; [reflexivity|].
  rewrite app_cons. cbn [String.length dropStr]. exact IH.
Qed.

Lemma substring_dropStr n s : s = substring 0 n s +:+ dropStr n s.
Proof.
  revert s. induction n as [|n IH]; intros [|c s]; try reflexivity.
  cbn [substring dropStr]. rewrite app_cons. now rewrite <- IH.
Qed.

Lemma trimStart_spaces ws s :
  allStr isWhiteSpace ws = true -> trimStart (ws +:+ s) = trimStart s.
Proof.
  induction ws as [|c ws IH]; [reflexivity|].
  cbn [allStr]. intros [Hc Hws]%andb_prop.
  rewrite app_cons. cbn [trimStart]. rewrite Hc. now apply IH.
Qed.

Lemma trimStart_black s : startsBlack s = true -> trimStart s = s.
Proof.
  destruct s as [|c s]; [discriminate|]. cbn [startsBlack trimStart].
  intros Hc%negb_true_iff. now rewrite Hc.
Qed.

(** The white space a string starts with, and what follows it. *)
Lemma leadingSpace_split s :
  forall acc,
  exists ws,
    s = string_of_list_ascii ws +:+ trimStart s
    /\ forallb isWhiteSpace ws = true
    /\ leadingSpace acc s = (rev ws ++ acc)%list.
Proof.
  induction s as [|c s IH]; intros acc.
  - exists []. auto.
  - cbn [trimStart leadingSpace]. destruct (isWhiteSpace c) eqn:Hc.
    + destruct (IH (c :: acc)) as (ws & Hs & Hws & Hlead).
      exists (c :: ws). cbn [string_of_list_ascii forallb rev].
      rewrite app_cons, <- Hs, Hc, Hws, Hlead, <- app_assoc. auto.
    + exists []. auto.
Qed.

Lemma allStr_string_of_list p l :
  allStr p (string_of_list_ascii l) = forallb p l.
Proof.
  induction l as [|c l IH]; [reflexivity|].
  cbn [string_of_list_ascii allStr forallb]. now rewrite IH.
Qed.

Lemma string_of_list_app l1 l2 :
  string_of_list_ascii (l1 ++ l2)%list
  = string_of_list_ascii l1 +:+ string_of_list_ascii l2.
Proof.
  induction l1 as [|c l1 IH]; [reflexivity|].
  cbn [app string_of_list_ascii]. now rewrite app_cons, IH.
Qed.

Lemma getBearer_scheme_token
    (req : Request) (scheme spaces token : string) :
  header_Authorization req = Some (scheme +:+ spaces +:+ token) ->
  toLowerCase scheme = "bearer" ->
  nonEmpty spaces = true ->
  allStr isWhiteSpace spaces = true ->
  startsBlack token = true ->
  existsStr isLineTerminator token = false ->
  getBearer req = Some token.
Proof.
  intros Hh Hscheme Hne Hws Hblack Hline.
  unfold getBearer. rewrite Hh. cbn [default from_option id]. unfold matchBearer.
  assert (Hlen : String.length scheme = 6%nat).
  { rewrite <- length_toLowerCase, Hscheme. reflexivity. }
  rewrite <- Hlen, substring_prefix, dropStr_prefix, Hscheme.
  cbn [String.eqb Ascii.eqb Bool.eqb andb].
  change (String.eqb "bearer" "bearer") with true. cbv iota.
  rewrite trimStart_spaces, (trimStart_black token) by assumption.
  destruct (leadingSpace_split (spaces +:+ token) []) as (ws & Hs & _ & Hlead).
  rewrite Hlead, app_nil_r.
  destruct spaces as [|c spaces]; [discriminate|].
  destruct ws as [|w ws].
  - exfalso. cbn [string_of_list_ascii] in Hs.
    rewrite trimStart_spaces, trimStart_black in Hs by assumption.
    apply (f_equal String.length) in Hs.
    rewrite app_nil_l, length_app_str in Hs. cbn [String.length] in Hs. lia.
  - cbn [rev]. destruct (rev ws ++ [w])%list as [|lastSpace before] eqn:Hrev.
    + now apply app_eq_nil in Hrev as [_ Hrev].
    + rewrite Hline. destruct token; [discriminate|]. reflexivity.
Qed.

(** X5: from an [Authorization] header made of the word "Bearer" in any
    letter case, one or more white-space code units, and a token that
    starts with something other than white space and holds no line
    terminator, [getBearer] returns the token. *)
Theorem getBearer_reads_the_token
    (req : Request) (scheme spaces token : string) :
  header_Authorization req = Some (scheme +:+ spaces +:+ token) ->
  toLowerCase scheme = "bearer" ->
  nonEmpty spaces = true ->
  allStr isWhiteSpace spaces = true ->
  startsBlack token = true ->
  existsStr isLineTerminator token = false ->
  getBearer req = Some token.
Proof. exact (getBearer_scheme_token req scheme spaces token). Qed.

Lemma getBearer_reads_the_token_witness :
  getBearer (Scenario.withAuthorization "GET" (Some "BEARER   abc.def.ghi"))
  = Some "abc.def.ghi".
Proof.
  apply (getBearer_reads_the_token _ "BEARER" "   " "abc.def.ghi"); reflexivity.
Defined.

(** X6: whatever [getBearer] returns is a non-empty token without line
    terminator, and the header was the word "Bearer" in some letter case,
    then one or more white-space code units, then that token; without the
    header it returns [null]. *)
Theorem getBearer_token_shape (req : Request) (token : string) :
  getBearer req = Some token ->
  nonEmpty token = true
  /\ existsStr isLineTerminator token = false
  /\ exists scheme spaces,
       header_Authorization req = Some (scheme +:+ spaces +:+ token)
       /\ toLowerCase scheme = "bearer"
       /\ nonEmpty spaces = true
       /\ allStr isWhiteSpace spaces = true.
Proof.
  unfold getBearer.
  destruct (header_Authorization req) as [h|]; cbn [default from_option id];
    [|intros Hnone; vm_compute in Hnone; discriminate].
  unfold matchBearer.
  destruct (String.eqb_spec (toLowerCase (substring 0 6 h)) "bearer") as [Hscheme|];
    [|discriminate].
  destruct (leadingSpace_split (dropStr 6 h) []) as (ws & Hs & Hws & Hlead).
  rewrite Hlead, app_nil_r.
  pose proof (substring_dropStr 6 h) as Hh.
  destruct (rev ws) as [|lastSpace before] eqn:Hrev; [discriminate|].
  assert (Hws' : ws = (rev before ++ [lastSpace])%list).
  { rewrite <- (rev_involutive ws), Hrev. reflexivity. }
  destruct (existsStr isLineTerminator (trimStart (dropStr 6 h))) eqn:Hline; [discriminate|].
  destruct (nonEmpty (trimStart (dropStr 6 h))) eqn:Hne.
  - intros Heq.
    assert (Htoken : trimStart (dropStr 6 h) = token) by congruence.
    clear Heq. subst token. split; [exact Hne|]. split; [exact Hline|].
    exists (substring 0 6 h), (string_of_list_ascii ws).
    rewrite <- Hs, <- Hh, allStr_string_of_list.
    repeat split; auto. rewrite Hws'.
    rewrite string_of_list_app. now destruct (string_of_list_ascii (rev before)).
  - destruct before as [|b before]; [discriminate|].
    destruct (isLineTerminator lastSpace) eqn:Hlast; [discriminate|].
    intros Heq.
    assert (Htoken : String lastSpace "" = token) by congruence.
    clear Heq. subst token. split; [reflexivity|].
    split; [cbn [existsStr]; now rewrite Hlast|].
    destruct (trimStart (dropStr 6 h)); [|discriminate].
    rewrite app_empty_r in Hs.
    exists (substring 0 6 h), (string_of_list_ascii (rev (b :: before))).
    rewrite allStr_string_of_list.
    assert (Hall : forallb isWhiteSpace (rev (b :: before)) = true).
    { rewrite Hws', forallb_app in Hws. now apply andb_prop in Hws as [Hws _]. }
    repeat split; auto.
    + f_equal. rewrite Hh at 1. f_equal. rewrite Hs, Hws', string_of_list_app. reflexivity.
    + cbn [rev]. rewrite string_of_list_app.
      destruct (string_of_list_ascii (rev before)); reflexivity.
Qed.

Lemma getBearer_token_shape_witness :
  nonEmpty "abc.def.ghi" = true
  /\ existsStr isLineTerminator "abc.def.ghi" = false
  /\ exists scheme spaces,
       header_Authorization (Scenario.withAuthorization "GET" (Some "bearer abc.def.ghi"))
       = Some (scheme +:+ spaces +:+ "abc.def.ghi")
       /\ toLowerCase scheme = "bearer"
       /\ nonEmpty spaces = true
       /\ allStr isWhiteSpace spaces = true.
Proof.
  apply (getBearer_token_shape (Scenario.withAuthorization "GET" (Some "bearer abc.def.ghi"))).
  reflexivity.
Defined.

(** ** What verifyJWT accepts *)

(** X3: a payload returned by [verifyJWT] comes from a token of exactly
    three segments whose third is the signature computed over the first
    two with the secret, whose second decodes and parses to that payload,
    and whose [exp] is a number not before the current second. *)
Theorem verifyJWT_accepts_only_signed_unexpired `{rt : Platform}
    (at_ms : Z) (secret token : string) (payload : json) :
  verifyJWT at_ms secret token = inr (Some payload) ->
  exists p1 p2 sig bytes e,
    split "." token = [p1; p2; sig]
    /\ sig = b64url (hmacSha256 secret (p1 +:+ "." +:+ p2))
    /\ atob (replaceAll "_" "/" (replaceAll "-" "+" p2)) = inr bytes
    /\ JSON_parse (TextDecoder_decode bytes) = inr payload
    /\ optGet payload "exp" = Some (JNum e)
    /\ nowSeconds at_ms <= e.
Proof.
  unfold verifyJWT.
  destruct (split "." token) as [|p1 [|p2 [|sig [|x l]]]]; try discriminate.
  destruct (timingSafeEqual _ sig) eqn:Hsig; [|discriminate]. cbn [negb].
  apply timingSafeEqual_true_iff in Hsig.
  destruct (atob _) as [e|bytes] eqn:Hatob; [discriminate|]. cbn [bind].
  destruct (JSON_parse _) as [e|parsed] eqn:Hparse; [discriminate|]. cbn [bind].
  unfold getMember.
  destruct parsed as [|b|n|s|items|fields]; cbn [bind ret throw optGet]; try discriminate.
  destruct (assoc "exp" fields) as [[|b|e|s|items|fields']|] eqn:Hexp; try discriminate.
  destruct (Z.ltb_spec e (nowSeconds at_ms)); [discriminate|].
  intros [= <-]. exists p1, p2, sig, bytes, e. repeat split; auto.
Qed.

Lemma verifyJWT_accepts_only_signed_unexpired_witness :
  exists p1 p2 sig bytes e,
    split "." Scenario.token = [p1; p2; sig]
    /\ sig = b64url (hmacSha256 (rt := Scenario.rt) "secret" (p1 +:+ "." +:+ p2))
    /\ atob (rt := Scenario.rt) (replaceAll "_" "/" (replaceAll "-" "+" p2)) = inr bytes
    /\ JSON_parse (Platform := Scenario.rt) (TextDecoder_decode (Platform := Scenario.rt) bytes)
       = inr (fullPayload Scenario.issued_ms Scenario.adminClaims 10)
    /\ optGet (fullPayload Scenario.issued_ms Scenario.adminClaims 10) "exp" = Some (JNum e)
    /\ nowSeconds Scenario.issued_ms <= e.
Proof.
  apply (verifyJWT_accepts_only_signed_unexpired (rt := Scenario.rt)
           Scenario.issued_ms "secret" Scenario.token).
  vm_compute. reflexivity.
Defined.

(** X4: [verifyJWT] throws only on a token of three segments that carries
    the right signature: a token that is not signed with the secret is
    answered with [null], whatever its payload segment holds. *)
Theorem verifyJWT_throws_only_when_signed `{rt : Platform}
    (at_ms : Z) (secret token : string) (e : Exn) :
  verifyJWT at_ms secret token = inl e ->
  exists p1 p2 sig,
    split "." token = [p1; p2; sig]
    /\ sig = b64url (hmacSha256 secret (p1 +:+ "." +:+ p2)).
Proof.
  unfold verifyJWT.
  destruct (split "." token) as [|p1 [|p2 [|sig [|x l]]]]; try discriminate.
  destruct (timingSafeEqual _ sig) eqn:Hsig; [|discriminate].
  apply timingSafeEqual_true_iff in Hsig.
  intros _. now exists p1, p2, sig.
Qed.

Lemma verifyJWT_throws_only_when_signed_witness :
  let signed := "e30.bnVsbA" in
  let token := signed +:+ "." +:+ b64url (hmacSha256 (rt := Scenario.rt) "secret" signed) in
  exists p1 p2 sig,
    split "." token = [p1; p2; sig]
    /\ sig = b64url (hmacSha256 (rt := Scenario.rt) "secret" (p1 +:+ "." +:+ p2)).
Proof.
  intros signed token.
  apply (verifyJWT_throws_only_when_signed (rt := Scenario.rt) 0 "secret" token
           (null_property_error (Platform := Scenario.rt) "exp")).
  vm_compute. reflexivity.
Defined.


(** ** From login to the protected routes *)

Lemma existsStr_app p s1 s2 :
  existsStr p (s1 +:+ s2) = existsStr p s1 || existsStr p s2.
Proof.
  induction s1 as [|c s1 IH]; [reflexivity|].
  rewrite app_cons. cbn [existsStr]. now rewrite IH, orb_assoc.
Qed.

Lemma isUrlChar_not_lineTerminator c : isUrlChar c = true -> isLineTerminator c = false.
Proof.
  destruct (isLineTerminator c) eqn:Hline; [|reflexivity].
  unfold isLineTerminator in Hline.
  apply orb_prop in Hline as [Heq|Heq]; apply Z.eqb_eq in Heq;
    unfold isUrlChar, between; rewrite Heq; discriminate.
Qed.

Lemma segment_without_lineTerminator s :
  allStr isUrlChar s = true -> existsStr isLineTerminator s = false.
Proof.
  induction s as [|c s IH]; [reflexivity|].
  cbn [allStr existsStr]. intros [Hc Hs]%andb_prop.
  now rewrite (isUrlChar_not_lineTerminator c Hc), IH.
Qed.

Lemma b64urlJson_jwtHeader `{rt : Platform} :
  b64urlJson jwtHeader = "eyJhbGciOiJIUzI1NiIsInR5cCI6IkpXVCJ9".
Proof. vm_compute. reflexivity. Qed.

Section Session.
Context `{rt : Platform}.

(** A token made by [signJWT] can travel in an [Authorization] header. *)
Lemma getBearer_signJWT_if req now secret claims ttl :
  header_Authorization req = Some ("Bearer " +:+ signJWT now secret claims ttl) ->
  startsBlack (signJWT now secret claims ttl) = true ->
  existsStr isLineTerminator (signJWT now secret claims ttl) = false ->
  getBearer req = Some (signJWT now secret claims ttl).
Proof.
  intros Hh.
  assert (Hword : forall tok, "Bearer " +:+ tok = "Bearer" +:+ " " +:+ tok) by reflexivity.
  rewrite Hword in Hh. generalize dependent (signJWT now secret claims ttl).
  intros token Hh Hblack Hline.
  now apply (getBearer_scheme_token req "Bearer" " " token).
Qed.

Lemma signJWT_travels now secret claims ttl :
  startsBlack (signJWT now secret claims ttl) = true
  /\ existsStr isLineTerminator (signJWT now secret claims ttl) = false.
Proof.
  split.
  - unfold signJWT. cbv zeta. rewrite b64urlJson_jwtHeader, !app_cons. reflexivity.
  - unfold signJWT, b64urlJson. cbv zeta. rewrite !existsStr_app.
    rewrite !(segment_without_lineTerminator (b64url _)) by apply b64url_alphabet.
    reflexivity.
Qed.

Lemma getBearer_signJWT req now secret claims ttl :
  header_Authorization req = Some ("Bearer " +:+ signJWT now secret claims ttl) ->
  getBearer req = Some (signJWT now secret claims ttl).
Proof.
  intros Hh. destruct (signJWT_travels now secret claims ttl) as [Hblack Hline].
  now apply getBearer_signJWT_if.
Qed.

Lemma nonEmpty_signJWT now secret claims ttl :
  nonEmpty (signJWT now secret claims ttl) = true.
Proof.
  unfold signJWT. cbv zeta. rewrite b64urlJson_jwtHeader, !app_cons. reflexivity.
Qed.

End Session.

(** X7: the token [POST /admin/login] returns for a [password] field
    that [String] converts to the right password, sent back as
    [Authorization: Bearer <token>] less than six hours later, passes the
    auth middleware, and [GET /admin/invites] then answers 200.  The
    runtime is assumed to read the payload text back. *)
Theorem login_token_opens_admin_routes `{rt : Platform}
    (env : Env) (amb : Ambient) (login : Request) (parsed : json) (password : string)
    (db : DB) (amb' : Ambient) (guarded : Request) (db' : DB) :
  let claims := JObj [("role", JStr "admin")] in
  let token := signJWT (now_ms amb) (JWT_SECRET env) claims 21600 in
  method login = "POST" -> pathname login = "/admin/login" ->
  JSON_parse (body login) = inr parsed ->
  JS_String (orEmpty (optGet parsed "password")) = inr password ->
  nonEmpty password = true ->
  sha256Hex (ADMIN_PASSWORD_SALT env +:+ password) = ADMIN_PASSWORD_HASH env ->
  JSON_parse (TextDecoder_decode
                (utf8_encode (JSON_stringify (fullPayload (now_ms amb) claims 21600))))
  = inr (fullPayload (now_ms amb) claims 21600) ->
  method guarded = "GET" -> pathname guarded = "/admin/invites" ->
  header_Authorization guarded = Some ("Bearer " +:+ token) ->
  now_ms amb' < (nowSeconds (now_ms amb) + 21600) * 1000 ->
  fetch env amb login db
  = mkOutcome (withCors (SITE_ORIGIN env) (jsonResponse (JObj [("token", JStr token)]) 200))
              db []
  /\ requireAdmin env amb' guarded = inr (Some (fullPayload (now_ms amb) claims 21600))
  /\ status (response (fetch env amb' guarded db')) = 200.
Proof.
  intros claims token Hm Hp Hparse Hconv Hpw Hhash Hread Hm' Hp' Hauth Hsoon.
  unfold token in *. clear token.
  assert (Hadmin : requireAdmin env amb' guarded
                   = inr (Some (fullPayload (now_ms amb) claims 21600))).
  { unfold requireAdmin. rewrite (getBearer_signJWT guarded _ _ _ _ Hauth).
    rewrite nonEmpty_signJWT. cbn [negb].
    rewrite verifyJWT_signJWT by assumption.
    assert (Hnow : nowSeconds (now_ms amb') < nowSeconds (now_ms amb) + 21600).
    { unfold nowSeconds in *. apply Z.div_lt_upper_bound; lia. }
    rewrite (proj2 (Z.ltb_ge _ _)) by lia. cbn [bind].
    reflexivity. }
  split; [|split; [exact Hadmin|]].
  - rewrite fetch_route by (rewrite Hm; discriminate).
    rewrite route_adminLogin by assumption.
    unfold adminLogin, requestJson. rewrite Hparse. cbn [bind].
    rewrite Hconv. cbn [bind].
    rewrite Hpw, Hhash, timingSafeEqual_refl. cbn [negb].
    unfold respond. now rewrite allowedOrigin_site.
  - rewrite fetch_route by (rewrite Hm'; discriminate).
    rewrite route_adminListInvites by assumption.
    unfold adminListInvites. rewrite Hadmin. reflexivity.
Qed.

Lemma login_token_opens_admin_routes_witness :
  let login := Scenario.post "/admin/login" (JObj [("password", JStr "correct horse")]) in
  let listing := Scenario.asAdmin "GET" [] JNull in
  responseBody (response (fetch (rt := Scenario.rt) Scenario.env Scenario.amb login Scenario.db))
  = Some (JSON_stringify (rt := Scenario.rt) (JObj [("token", JStr Scenario.adminToken)]))
  /\ status (response (fetch (rt := Scenario.rt) Scenario.env Scenario.later listing
                         Scenario.db)) = 200.
Proof.
  intros login listing.
  destruct (login_token_opens_admin_routes (rt := Scenario.rt)
              Scenario.env Scenario.amb login (JObj [("password", JStr "correct horse")])
              "correct horse"
              Scenario.db Scenario.later listing Scenario.db
              eq_refl eq_refl ltac:(vm_compute; reflexivity) eq_refl
              ltac:(vm_compute; reflexivity)
              ltac:(vm_compute; reflexivity) ltac:(vm_compute; reflexivity)
              eq_refl eq_refl eq_refl ltac:(vm_compute; reflexivity))
    as (H1 & _ & H2).
  split; [now rewrite H1 | exact H2].
Defined.

(** X8: a token that verifies but whose [role] is not the string "admin"
    is turned away from the protected routes with the same 401, and
    nothing changes. *)
Theorem other_roles_are_unauthorized `{rt : Platform}
    (env : Env) (amb : Ambient) (req : Request) (db : DB) (token : string) (payload : json) :
  pathname req = "/admin/invites" ->
  method req = "GET" \/ method req = "POST" \/ method req = "DELETE" ->
  getBearer req = Some token ->
  verifyJWT (now_ms amb) (JWT_SECRET env) token = inr (Some payload) ->
  optGet payload "role" <> Some (JStr "admin") ->
  fetch env amb req db
  = mkOutcome (withCors (SITE_ORIGIN env)
                 (jsonResponse (JObj [("error", JStr "Unauthorized")]) 401)) db [].
Proof.
  intros Hp Hm Hbearer Hverify Hrole.
  assert (Hadmin : requireAdmin env amb req = inr None).
  { unfold requireAdmin. rewrite Hbearer.
    destruct (negb (nonEmpty token)); [reflexivity|].
    rewrite Hverify. cbn [bind].
    assert (Hno : roleIsAdmin payload = false).
    { unfold roleIsAdmin.
      destruct (optGet payload "role") as [[|b|n|r|items|fields]|]; try reflexivity.
      destruct (String.eqb_spec r "admin") as [->|]; [now contradiction Hrole | reflexivity]. }
    rewrite Hno. now destruct (negb (truthy payload)). }
  rewrite fetch_route by (destruct Hm as [-> | [-> | ->]]; discriminate).
  rewrite route_protected by (unfold protectedRoute; auto).
  unfold unauthorized, respond. now rewrite allowedOrigin_site.
Qed.

Lemma other_roles_are_unauthorized_witness :
  let token := signJWT (rt := Scenario.rt) (now_ms Scenario.amb) "secret"
                       (JObj [("role", JStr "guest")]) 21600 in
  let req := Scenario.withAuthorization "DELETE" (Some ("Bearer " +:+ token)) in
  fetch (rt := Scenario.rt) Scenario.env Scenario.amb req Scenario.db
  = mkOutcome (withCors "https://wedding.example"
                 (jsonResponse (rt := Scenario.rt)
                    (JObj [("error", JStr "Unauthorized")]) 401)) Scenario.db [].
Proof.
  intros token req.
  refine (other_roles_are_unauthorized (rt := Scenario.rt) Scenario.env Scenario.amb req
            Scenario.db token
            (fullPayload (now_ms Scenario.amb) (JObj [("role", JStr "guest")]) 21600)
            eq_refl (or_intror (or_intror eq_refl)) _ _ _).
  - vm_compute. reflexivity.
  - vm_compute. reflexivity.
  - vm_compute. discriminate.
Defined.

(** ** The list of invitations *)

Lemma newerFirst_total : Total newerFirst.
Proof.
  intros a b. unfold newerFirst.
  destruct (total String.le (created_at (snd b)) (created_at (snd a))); auto.
Qed.

(** X25: [GET /admin/invites] from a request the auth middleware lets
    through answers 200 with one entry per invitation, each with the
    answer stored for it if there is one, ordered by [created_at] from the
    newest to the oldest; the database is not changed. *)
Theorem admin_list_has_every_invitation `{rt : Platform}
    (env : Env) (amb : Ambient) (req : Request) (db : DB) (admin : json) :
  method req = "GET" -> pathname req = "/admin/invites" ->
  requireAdmin env amb req = inr (Some admin) ->
  exists rows : list (string * InviteRow * option RsvpRow),
    fetch env amb req db
    = mkOutcome
        (withCors (SITE_ORIGIN env)
           (jsonResponse (JObj [("invites", JArr (map listedInvite rows))]) 200)) db []
    /\ Permutation (map fst rows) (map_to_list (invites db))
    /\ Forall (fun r => snd r = rsvps db !! fst (fst r)) rows
    /\ Sorted newerFirst (map fst rows).
Proof.
  intros Hm Hp Hadmin. exists (selectInvitesWithRsvp db).
  assert (Hfst : map fst (selectInvitesWithRsvp db)
                 = merge_sort newerFirst (map_to_list (invites db))).
  { unfold selectInvitesWithRsvp. rewrite map_map. cbn [fst]. apply map_id. }
  split; [|split; [|split]].
  - rewrite fetch_route by (rewrite Hm; discriminate).
    rewrite route_adminListInvites by assumption.
    unfold adminListInvites, respond. rewrite Hadmin. cbn [bind].
    now rewrite allowedOrigin_site.
  - rewrite Hfst. apply merge_sort_Permutation.
  - unfold selectInvitesWithRsvp. apply Forall_forall. intros r Hr.
    apply list_elem_of_In, in_map_iff in Hr as (kv & <- & _). reflexivity.
  - rewrite Hfst. apply (@Sorted_merge_sort _ newerFirst _ newerFirst_total).
Qed.

Lemma admin_list_has_every_invitation_witness :
  exists rows : list (string * InviteRow * option RsvpRow),
    fetch (rt := Scenario.rt) Scenario.env Scenario.later (Scenario.asAdmin "GET" [] JNull)
          Scenario.db
    = mkOutcome
        (withCors "https://wedding.example"
           (jsonResponse (rt := Scenario.rt)
              (JObj [("invites", JArr (map listedInvite rows))]) 200))
        Scenario.db []
    /\ Permutation (map fst rows) (map_to_list (invites Scenario.db))
    /\ Forall (fun r => snd r = rsvps Scenario.db !! fst (fst r)) rows
    /\ Sorted newerFirst (map fst rows).
Proof.
  apply (admin_list_has_every_invitation (rt := Scenario.rt) Scenario.env Scenario.later
           (Scenario.asAdmin "GET" [] JNull) Scenario.db
           (fullPayload (now_ms Scenario.amb) Scenario.adminClaims 21600));
    vm_compute; reflexivity.
Defined.

(** ** base64url *)

(** X1: the decoding [verifyJWT] applies to a segment (the two
    replacements, then [atob], which accepts the missing padding) returns
    the bytes [b64url] encoded, for every byte sequence. *)
Theorem b64url_decodes_to_its_bytes `{rt : Platform} (bytes : list ascii) :
  atob (replaceAll "_" "/" (replaceAll "-" "+" (b64url bytes))) = inr bytes.
Proof.
  rewrite b64url_digits, verify_replacements_digits by apply sextets_range.
  rewrite atob_digits.
  - now rewrite b64bytes_sextets.
  - apply sextets_range.
  - apply sextets_length.
Qed.

Lemma length_sextets bytes :
  Z.of_nat (length (sextets bytes)) = (4 * Z.of_nat (length bytes) + 2) / 3.
Proof.
  induction bytes as [|a|a b|a b c rest IH] using list_ind3; try reflexivity.
  cbn [sextets length].
  replace (4 * Z.of_nat (S (S (S (length rest)))) + 2)
    with (4 * Z.of_nat (length rest) + 2 + 4 * 3) by lia.
  rewrite Z.div_add by lia. lia.
Qed.

(** X2: [b64url] writes only letters, digits, [-] and [_] (so no [+],
    [/], [=] or [.]), and [ceil(4n/3)] of them for [n] bytes: the
    padding is gone. *)
Theorem b64url_is_url_safe_and_unpadded (bytes : list ascii) :
  allStr isUrlChar (b64url bytes) = true
  /\ existsStr (fun c => Ascii.eqb c "+" || Ascii.eqb c "/" || Ascii.eqb c "="
                         || Ascii.eqb c ".") (b64url bytes) = false
  /\ Z.of_nat (String.length (b64url bytes)) = (4 * Z.of_nat (length bytes) + 2) / 3.
Proof.
  rewrite b64url_digits, length_digitString, length_sextets.
  pose proof (sextets_range bytes) as Hvs.
  split; [|split; [|reflexivity]].
  - induction Hvs as [|v vs Hv _ IH]; [reflexivity|].
    cbn [digitString allStr]. now rewrite isUrlChar_urlchar, IH.
  - induction Hvs as [|v vs Hv _ IH]; [reflexivity|].
    cbn [digitString existsStr]. rewrite IH, orb_false_r.
    pose proof (isUrlChar_urlchar v Hv) as Hc.
    destruct (Ascii.eqb_spec (urlchar v) "+") as [Heq|_];
      [rewrite Heq in Hc; discriminate|].
    destruct (Ascii.eqb_spec (urlchar v) "/") as [Heq|_];
      [rewrite Heq in Hc; discriminate|].
    destruct (Ascii.eqb_spec (urlchar v) "=") as [Heq|_];
      [rewrite Heq in Hc; discriminate|].
    destruct (Ascii.eqb_spec (urlchar v) ".") as [Heq|_];
      [rewrite Heq in Hc; discriminate|].
    reflexivity.
Qed.

(** ** sha256Hex *)

Lemma hexDigit_isHexDigit n : 0 <= n < 16 -> isHexDigit (hexDigit n) = true.
Proof.
  intros Hn.
  assert (Hcases : In n (map Z.of_nat (seq 0 16))).
  { apply in_map_iff. exists (Z.to_nat n). split; [lia|]. apply in_seq. lia. }
  cbn in Hcases.
  repeat (destruct Hcases as [<-|Hcases]; [reflexivity|]). destruct Hcases.
Qed.

Lemma hexString_shape bytes :
  String.length (hexString bytes) = (2 * length bytes)%nat
  /\ allStr isHexDigit (hexString bytes) = true.
Proof.
  induction bytes as [|b bytes [IHlen IHall]]; [split; reflexivity|].
  cbn [hexString]. unfold hexByte. rewrite !app_cons, app_nil_l.
  cbn [String.length allStr length]. rewrite IHlen, IHall.
  pose proof (code_range b).
  rewrite !hexDigit_isHexDigit
    by (split; [apply Z.div_pos || apply Z.mod_pos_bound; lia
               | apply Z.div_lt_upper_bound || apply Z.mod_pos_bound; lia]).
  split; [lia | reflexivity].
Qed.

Lemma hexByte_inj a b : hexByte a = hexByte b -> a = b.
Proof.
  unfold hexByte. intros Heq. injection Heq as Hhi Hlo.
  pose proof (code_range a). pose proof (code_range b).
  assert (Hdigit : forall x y, 0 <= x < 16 -> 0 <= y < 16 -> hexDigit x = hexDigit y -> x = y).
  { intros x y Hx Hy Hxy. apply (f_equal code) in Hxy. unfold hexDigit in Hxy.
    destruct (Z.ltb_spec x 10), (Z.ltb_spec y 10);
      rewrite !code_chr in Hxy by lia; lia. }
  apply code_inj.
  assert (code a / 16 = code b / 16).
  { apply Hdigit; auto; split;
      try (apply Z.div_pos; lia); apply Z.div_lt_upper_bound; lia. }
  assert (code a mod 16 = code b mod 16).
  { apply Hdigit; auto; apply Z.mod_pos_bound; lia. }
  rewrite (Z.div_mod (code a) 16), (Z.div_mod (code b) 16) by lia. congruence.
Qed.

(** X26: [sha256Hex] writes two lower-case hexadecimal digits per byte of
    the digest. *)
Theorem sha256Hex_is_lowercase_hex `{rt : Platform} (input : string) :
  String.length (sha256Hex input) = (2 * length (sha256 (utf8_encode input)))%nat
  /\ allStr isHexDigit (sha256Hex input) = true.
Proof.
  unfold sha256Hex. apply hexString_shape.
Qed.

Lemma hexString_inj xs : forall ys, hexString xs = hexString ys -> xs = ys.
Proof.
  induction xs as [|x xs IH]; intros [|y ys]; cbn [hexString]; try reflexivity.
  - unfold hexByte. rewrite !app_cons. discriminate.
  - unfold hexByte. rewrite !app_cons. discriminate.
  - intros Heq.
    assert (Hsplit : hexByte x = hexByte y /\ hexString xs = hexString ys).
    { unfold hexByte in *. rewrite !app_cons, !app_nil_l in Heq.
      injection Heq as H1 H2 H3. now rewrite H1, H2. }
    destruct Hsplit as [Hx Hs]. f_equal; [now apply hexByte_inj | now apply IH].
Qed.

(** X27: two inputs have the same [sha256Hex] text only when their
    digests are the same bytes: comparing the hexadecimal texts, as the
    password check does, compares the digests. *)
Theorem sha256Hex_equal_only_for_equal_digests `{rt : Platform} (input other : string) :
  sha256Hex input = sha256Hex other ->
  sha256 (utf8_encode input) = sha256 (utf8_encode other).
Proof.
  unfold sha256Hex. apply hexString_inj.
Qed.

Lemma sha256Hex_equal_only_for_equal_digests_witness :
  sha256 (Platform := Scenario.rt) (utf8_encode "saltcorrect horse")
  = sha256 (Platform := Scenario.rt) (utf8_encode "saltcorrect horse").
Proof.
  apply (sha256Hex_equal_only_for_equal_digests (rt := Scenario.rt)). reflexivity.
Defined.

(** ** escapeHtml *)

Lemma escapeHtml_app s1 s2 : escapeHtml (s1 +:+ s2) = escapeHtml s1 +:+ escapeHtml s2.
Proof.
  unfold escapeHtml. now rewrite !replaceAll_app.
Qed.

(** What becomes of one code unit. *)
Lemma escapeHtml_char c :
  escapeHtml (String c "")
  = if Ascii.eqb c "&" then "&amp;"
    else if Ascii.eqb c "<" then "&lt;"
    else if Ascii.eqb c ">" then "&gt;"
    else if Ascii.eqb c dquote then "&quot;"
    else if Ascii.eqb c apostrophe then "&#039;"
    else String c "".
Proof.
  unfold escapeHtml. cbn [replaceAll].
  destruct (Ascii.eqb c "&"); [reflexivity|]. cbn [replaceAll].
  destruct (Ascii.eqb c "<"); [reflexivity|]. cbn [replaceAll].
  destruct (Ascii.eqb c ">"); [reflexivity|]. cbn [replaceAll].
  destruct (Ascii.eqb c dquote); [reflexivity|]. cbn [replaceAll].
  destruct (Ascii.eqb c apostrophe); reflexivity.
Qed.

Lemma escapeHtml_cons c s : escapeHtml (String c s) = escapeHtml (String c "") +:+ escapeHtml s.
Proof.
  now rewrite <- escapeHtml_app.
Qed.

Lemma allStr_app p s1 s2 : allStr p (s1 +:+ s2) = allStr p s1 && allStr p s2.
Proof.
  induction s1 as [|c s1 IH]; [reflexivity|].
  rewrite app_cons. cbn [allStr]. now rewrite IH, andb_assoc.
Qed.

(** X9: [escapeHtml] works one code unit at a time, so it distributes
    over concatenation, and its result holds none of [<], [>], the double
    quote and the apostrophe. *)
Theorem escapeHtml_leaves_no_markup (s1 s2 : string) :
  escapeHtml (s1 +:+ s2) = escapeHtml s1 +:+ escapeHtml s2
  /\ allStr (fun c => negb (isMarkup c)) (escapeHtml s1) = true.
Proof.
  split; [apply escapeHtml_app|].
  induction s1 as [|c s IH]; [reflexivity|].
  rewrite escapeHtml_cons, allStr_app, IH, andb_true_r, escapeHtml_char.
  unfold isMarkup.
  destruct (Ascii.eqb c "&"); [reflexivity|].
  destruct (Ascii.eqb c "<") eqn:Hlt; [reflexivity|].
  destruct (Ascii.eqb c ">") eqn:Hgt; [reflexivity|].
  destruct (Ascii.eqb c dquote) eqn:Hdq; [reflexivity|].
  destruct (Ascii.eqb c apostrophe) eqn:Hap; [reflexivity|].
  cbn [allStr]. now rewrite Hlt, Hgt, Hdq, Hap.
Qed.

(** X10: [escapeHtml] loses nothing: two strings with the same escaped
    text are the same string. *)
Theorem escapeHtml_injective (s1 s2 : string) :
  escapeHtml s1 = escapeHtml s2 -> s1 = s2.
Proof.
  revert s2. induction s1 as [|c s1 IH]; intros [|d s2].
  - reflexivity.
  - rewrite (escapeHtml_cons d), escapeHtml_char.
    change (escapeHtml "") with "".
    repeat match goal with |- context [Ascii.eqb d ?x] => destruct (Ascii.eqb d x) end;
      rewrite !app_cons; discriminate.
  - rewrite (escapeHtml_cons c), escapeHtml_char.
    change (escapeHtml "") with "".
    repeat match goal with |- context [Ascii.eqb c ?x] => destruct (Ascii.eqb c x) end;
      rewrite !app_cons; discriminate.
  - rewrite (escapeHtml_cons c), (escapeHtml_cons d), !escapeHtml_char.
    destruct (Ascii.eqb_spec c "&") as [->|Hc1];
      [|destruct (Ascii.eqb_spec c "<") as [->|Hc2];
        [|destruct (Ascii.eqb_spec c ">") as [->|Hc3];
          [|destruct (Ascii.eqb_spec c dquote) as [->|Hc4];
            [|destruct (Ascii.eqb_spec c apostrophe) as [->|Hc5]]]]];
      (destruct (Ascii.eqb_spec d "&") as [->|Hd1];
        [|destruct (Ascii.eqb_spec d "<") as [->|Hd2];
          [|destruct (Ascii.eqb_spec d ">") as [->|Hd3];
            [|destruct (Ascii.eqb_spec d dquote) as [->|Hd4];
              [|destruct (Ascii.eqb_spec d apostrophe) as [->|Hd5]]]]]);
      rewrite !app_cons, !app_nil_l; intros Heq;
      try discriminate Heq;
      try (injection Heq as Heq; f_equal; now apply IH);
      try (injection Heq as Hhead Heq; congruence).
    injection Heq as -> Heq. f_equal. now apply IH.
Qed.

Lemma escapeHtml_injective_witness : "Tom & <Jerry>" = "Tom & <Jerry>".
Proof.
  apply (escapeHtml_injective "Tom & <Jerry>" "Tom & <Jerry>"). reflexivity.
Defined.

(** ** Trimming *)

Ltac ascii_cases c := destruct c as [[] [] [] [] [] [] [] []].

Lemma lowerChar_idempotent c : lowerChar (lowerChar c) = lowerChar c.
Proof. ascii_cases c; reflexivity. Qed.

Lemma isWhiteSpace_lowerChar c : isWhiteSpace (lowerChar c) = isWhiteSpace c.
Proof. ascii_cases c; reflexivity. Qed.

Lemma isKept_lowerChar c : isKept (lowerChar c) = isKept c.
Proof. ascii_cases c; reflexivity. Qed.

Lemma isNameChar_cases c :
  isNameChar c = true -> isKept c = true /\ isWhiteSpace c = Ascii.eqb c " ".
Proof. ascii_cases c; intros Hc; try discriminate Hc; split; reflexivity. Qed.

Lemma isKept_nameChar c :
  isKept c = true -> isWhiteSpace c = false -> isNameChar c = true.
Proof. ascii_cases c; intros Hk Hw; try discriminate; reflexivity. Qed.

Lemma space_is_whiteSpace c : Ascii.eqb c " " = true -> isWhiteSpace c = true.
Proof. intros ->%Ascii.eqb_eq. reflexivity. Qed.

Lemma rev_app_acc s : forall acc, String.rev_app s acc = String.rev s +:+ acc.
Proof.
  unfold String.rev. induction s as [|c s IH]; intros acc; [reflexivity|].
  cbn [String.rev_app]. rewrite (IH (String c acc)), (IH (String c "")).
  now rewrite app_assoc_str.
Qed.

Lemma rev_cons c s : String.rev (String c s) = String.rev s +:+ String c "".
Proof. unfold String.rev at 1. cbn [String.rev_app]. apply rev_app_acc. Qed.

Lemma rev_app_str s1 s2 : String.rev (s1 +:+ s2) = String.rev s2 +:+ String.rev s1.
Proof.
  induction s1 as [|c s1 IH].
  - rewrite app_nil_l. change (String.rev "") with "". now rewrite app_empty_r.
  - rewrite app_cons, !rev_cons, IH. now rewrite app_assoc_str.
Qed.

Lemma rev_rev s : String.rev (String.rev s) = s.
Proof.
  induction s as [|c s IH]; [reflexivity|].
  rewrite rev_cons, rev_app_str, IH. reflexivity.
Qed.

Lemma trimStart_all_space s : allStr isWhiteSpace s = true -> trimStart s = "".
Proof.
  induction s as [|c s IH]; [reflexivity|].
  cbn [allStr trimStart]. intros [-> Hs]%andb_prop. now apply IH.
Qed.

Lemma trimStart_app s w :
  trimStart (s +:+ w) = if allStr isWhiteSpace s then trimStart w else trimStart s +:+ w.
Proof.
  induction s as [|c s IH]; [reflexivity|].
  rewrite app_cons. cbn [trimStart allStr].
  destruct (isWhiteSpace c); [exact IH | reflexivity].
Qed.

Lemma dropEnd_empty_iff s : dropEnd s = "" <-> allStr isWhiteSpace s = true.
Proof.
  induction s as [|c s IH]; [easy|].
  cbn [dropEnd allStr].
  destruct (dropEnd s) as [|d r].
  - rewrite (proj1 IH eq_refl), andb_true_r.
    destruct (isWhiteSpace c); easy.
  - destruct (allStr isWhiteSpace s).
    + now pose proof (proj2 IH eq_refl).
    + rewrite andb_false_r. easy.
Qed.

Lemma dropEnd_app_char s c :
  dropEnd (s +:+ String c "")
  = if isWhiteSpace c then dropEnd s else s +:+ String c "".
Proof.
  induction s as [|d s IH].
  - rewrite app_nil_l. cbn [dropEnd]. now destruct (isWhiteSpace c).
  - rewrite app_cons. cbn [dropEnd]. rewrite IH.
    destruct (isWhiteSpace c); [reflexivity|].
    destruct (s +:+ String c "") eqn:Happ; [|reflexivity].
    destruct s; discriminate.
Qed.

(** [trimEnd], defined through reversal, is [dropEnd]. *)
Lemma trimEnd_dropEnd s : trimEnd s = dropEnd s.
Proof.
  unfold trimEnd. rewrite <- (rev_rev s) at 2.
  induction (String.rev s) as [|c r IH]; [reflexivity|].
  cbn [trimStart]. rewrite rev_cons, dropEnd_app_char.
  destruct (isWhiteSpace c); [exact IH | now rewrite rev_cons].
Qed.

Lemma trim_dropEnd s : trim s = dropEnd (trimStart s).
Proof. unfold trim. apply trimEnd_dropEnd. Qed.

Lemma dropEnd_idempotent s : dropEnd (dropEnd s) = dropEnd s.
Proof.
  induction s as [|c s IH]; [reflexivity|].
  cbn [dropEnd]. destruct (dropEnd s) as [|d r] eqn:Hs.
  - destruct (isWhiteSpace c) eqn:Hc; [reflexivity|]. cbn [dropEnd]. now rewrite Hc.
  - cbn [dropEnd] in IH |- *. now rewrite IH.
Qed.

Lemma trimStart_starts s : trimStart s = "" \/ startsBlack (trimStart s) = true.
Proof.
  induction s as [|c s IH]; [now left|].
  cbn [trimStart]. destruct (isWhiteSpace c) eqn:Hc; [exact IH|].
  right. cbn [startsBlack]. now rewrite Hc.
Qed.

Lemma dropEnd_starts s : startsBlack s = true -> startsBlack (dropEnd s) = true.
Proof.
  destruct s as [|c s]; [discriminate|].
  cbn [startsBlack dropEnd]. intros Hc.
  destruct (dropEnd s); [|exact Hc].
  apply negb_true_iff in Hc. rewrite Hc. cbn [startsBlack]. now rewrite Hc.
Qed.

Lemma trim_idempotent s : trim (trim s) = trim s.
Proof.
  rewrite !trim_dropEnd.
  destruct (trimStart_starts s) as [->|Hblack]; [reflexivity|].
  rewrite (trimStart_black (dropEnd (trimStart s))) by now apply dropEnd_starts.
  apply dropEnd_idempotent.
Qed.

Lemma dropEnd_app_spaces s w :
  allStr isWhiteSpace w = true -> dropEnd (s +:+ w) = dropEnd s.
Proof.
  intros Hw. induction s as [|c s IH].
  - rewrite app_nil_l. now apply dropEnd_empty_iff.
  - rewrite app_cons. cbn [dropEnd]. now rewrite IH.
Qed.

Lemma dropEnd_app_black s t :
  endsBlack t = true -> dropEnd (s +:+ t) = s +:+ t.
Proof.
  unfold endsBlack. intros [Hne Heq%String.eqb_eq]%andb_prop.
  induction s as [|c s IH]; [exact Heq|].
  rewrite app_cons. cbn [dropEnd]. rewrite IH.
  destruct (s +:+ t) eqn:Happ; [|reflexivity].
  destruct s; [destruct t|]; discriminate.
Qed.

(** A string that starts and ends with something other than white space
    is its own trimming. *)
Lemma trim_black s t :
  startsBlack s = true -> endsBlack t = true -> trim (s +:+ t) = s +:+ t.
Proof.
  intros Hs Ht. rewrite trim_dropEnd, trimStart_black.
  - now apply dropEnd_app_black.
  - destruct s; [discriminate | exact Hs].
Qed.


(** ** normalizeName *)

Lemma allStr_removeAll p q s : allStr p s = true -> allStr p (removeAll q s) = true.
Proof.
  induction s as [|c s IH]; [reflexivity|].
  cbn [allStr removeAll]. intros [Hc Hs]%andb_prop.
  destruct (q c); cbn [allStr]; rewrite ?Hc; now apply IH.
Qed.

Lemma allStr_collapseRuns p s :
  p " "%char = true -> allStr p s = true -> forall b, allStr p (collapseRuns b s) = true.
Proof.
  intros Hsp. induction s as [|c s IH]; [reflexivity|].
  cbn [allStr collapseRuns]. intros [Hc Hs]%andb_prop b.
  destruct (isWhiteSpace c); [destruct b|]; cbn [allStr]; rewrite ?Hsp, ?Hc; now apply IH.
Qed.

Lemma allStr_trimStart p s : allStr p s = true -> allStr p (trimStart s) = true.
Proof.
  induction s as [|c s IH]; [reflexivity|].
  cbn [allStr trimStart]. intros Hcs.
  destruct (isWhiteSpace c); [|exact Hcs].
  apply andb_prop in Hcs as [_ Hs]. now apply IH.
Qed.

Lemma allStr_dropEnd p s : allStr p s = true -> allStr p (dropEnd s) = true.
Proof.
  induction s as [|c s IH]; [reflexivity|].
  cbn [allStr dropEnd]. intros [Hc Hs]%andb_prop.
  specialize (IH Hs).
  destruct (dropEnd s); [destruct (isWhiteSpace c)|]; cbn [allStr] in *; now rewrite ?Hc, ?IH.
Qed.

Lemma allStr_trim p s : allStr p s = true -> allStr p (trim s) = true.
Proof.
  intros Hs. rewrite trim_dropEnd. now apply allStr_dropEnd, allStr_trimStart.
Qed.

Lemma allStr_lowered s : allStr isLowered (toLowerCase s) = true.
Proof.
  induction s as [|c s IH]; [reflexivity|].
  cbn [toLowerCase allStr]. rewrite IH, andb_true_r.
  unfold isLowered. rewrite lowerChar_idempotent. apply Ascii.eqb_refl.
Qed.

Lemma toLowerCase_lowered s : allStr isLowered s = true -> toLowerCase s = s.
Proof.
  induction s as [|c s IH]; [reflexivity|].
  cbn [allStr toLowerCase]. intros [Hc Hs]%andb_prop.
  apply Ascii.eqb_eq in Hc. now rewrite Hc, IH.
Qed.

Lemma removeAll_kept s :
  allStr isKept s = true -> removeAll (fun c => negb (isKept c)) s = s.
Proof.
  induction s as [|c s IH]; [reflexivity|].
  cbn [allStr removeAll]. intros [-> Hs]%andb_prop. cbn [negb]. now rewrite IH.
Qed.

Lemma allStr_kept_removeAll s : allStr isKept (removeAll (fun c => negb (isKept c)) s) = true.
Proof.
  induction s as [|c s IH]; [reflexivity|].
  cbn [removeAll]. destruct (isKept c) eqn:Hc; cbn [negb allStr]; [now rewrite Hc|exact IH].
Qed.

Lemma singleSpaced_collapseRuns s : forall b, singleSpaced b (collapseRuns b s) = true.
Proof.
  induction s as [|c s IH]; intros b; [reflexivity|].
  cbn [collapseRuns]. destruct (isWhiteSpace c) eqn:Hc.
  - destruct b; [apply IH|]. cbn [singleSpaced Ascii.eqb Bool.eqb negb andb].
    change (Ascii.eqb " " " ") with true. cbv iota. apply IH.
  - cbn [singleSpaced].
    destruct (Ascii.eqb c " ") eqn:Hsp; [|apply IH].
    apply space_is_whiteSpace in Hsp. congruence.
Qed.

Lemma nameChars_collapseRuns s :
  allStr isKept s = true -> forall b, allStr isNameChar (collapseRuns b s) = true.
Proof.
  induction s as [|c s IH]; [reflexivity|].
  cbn [allStr collapseRuns]. intros [Hc Hs]%andb_prop b.
  destruct (isWhiteSpace c) eqn:Hw; [destruct b|]; cbn [allStr];
    rewrite ?(isKept_nameChar c Hc Hw); now apply IH.
Qed.

Lemma singleSpaced_weaken s : singleSpaced true s = true -> singleSpaced false s = true.
Proof.
  destruct s as [|c s]; [reflexivity|]. cbn [singleSpaced].
  destruct (Ascii.eqb c " "); [discriminate | auto].
Qed.

Lemma singleSpaced_trimStart s :
  forall b, singleSpaced b s = true -> singleSpaced false (trimStart s) = true.
Proof.
  induction s as [|c s IH]; intros b; [reflexivity|].
  cbn [singleSpaced trimStart].
  destruct (Ascii.eqb c " ") eqn:Hsp.
  - rewrite (space_is_whiteSpace c Hsp). intros [_ Hs]%andb_prop. now apply (IH true).
  - destruct (isWhiteSpace c); [apply IH|].
    cbn [singleSpaced]. now rewrite Hsp.
Qed.

Lemma singleSpaced_cons b c s :
  singleSpaced b (String c s)
  = if Ascii.eqb c " " then negb b && singleSpaced true s else singleSpaced false s.
Proof. reflexivity. Qed.

Lemma singleSpaced_dropEnd s :
  forall b, singleSpaced b s = true -> singleSpaced b (dropEnd s) = true.
Proof.
  induction s as [|c s IH]; intros b; [reflexivity|].
  rewrite singleSpaced_cons. cbn [dropEnd].
  destruct (Ascii.eqb c " ") eqn:Hsp.
  - intros [Hb Hs]%andb_prop. specialize (IH true Hs).
    destruct (dropEnd s) as [|a r].
    + now rewrite (space_is_whiteSpace c Hsp).
    + rewrite singleSpaced_cons, Hsp, Hb. exact IH.
  - intros Hs. specialize (IH false Hs).
    destruct (dropEnd s) as [|a r].
    + destruct (isWhiteSpace c); [reflexivity|].
      rewrite singleSpaced_cons, Hsp. reflexivity.
    + rewrite singleSpaced_cons, Hsp. exact IH.
Qed.

Lemma collapseRuns_fixed s :
  allStr isNameChar s = true ->
  forall b, singleSpaced b s = true -> collapseRuns b s = s.
Proof.
  induction s as [|c s IH]; [reflexivity|].
  cbn [allStr singleSpaced collapseRuns]. intros [Hc Hs]%andb_prop b.
  destruct (isNameChar_cases c Hc) as [_ ->].
  destruct (Ascii.eqb_spec c " ") as [->|_].
  - intros [Hb Hsp]%andb_prop. apply negb_true_iff in Hb. subst b.
    now rewrite (IH Hs true Hsp).
  - intros Hsp. now rewrite (IH Hs false Hsp).
Qed.

Lemma allStr_impl (p q : ascii -> bool) s :
  (forall c, p c = true -> q c = true) -> allStr p s = true -> allStr q s = true.
Proof.
  intros Hpq. induction s as [|c s IH]; [reflexivity|].
  cbn [allStr]. intros [Hc Hs]%andb_prop. now rewrite (Hpq c Hc), IH.
Qed.

(** The shape of a normalized name. *)
Lemma normalizeName_shape s :
  allStr isNameChar (normalizeName s) = true
  /\ singleSpaced false (normalizeName s) = true
  /\ allStr isLowered (normalizeName s) = true.
Proof.
  unfold normalizeName. fold isKept.
  change (fun c => negb (isLetter c || isNumber c || isWhiteSpace c))
    with (fun c => negb (isKept c)).
  split; [|split].
  - apply nameChars_collapseRuns, allStr_kept_removeAll.
  - apply singleSpaced_collapseRuns.
  - apply allStr_collapseRuns; [reflexivity|].
    apply allStr_removeAll, allStr_lowered.
Qed.

(** On a string of that shape [normalizeName] only trims. *)
Lemma normalizeName_of_shape t :
  allStr isNameChar t = true ->
  singleSpaced false t = true ->
  allStr isLowered t = true ->
  normalizeName t = trim t.
Proof.
  intros Hname Hsingle Hlow. unfold normalizeName.
  change (fun c => negb (isLetter c || isNumber c || isWhiteSpace c))
    with (fun c => negb (isKept c)).
  rewrite (toLowerCase_lowered (trim t)) by now apply allStr_trim.
  assert (Hname' : allStr isNameChar (trim t) = true) by now apply allStr_trim.
  rewrite removeAll_kept
    by (apply (allStr_impl isNameChar); [intros c Hc; apply (isNameChar_cases c Hc) | exact Hname']).
  apply collapseRuns_fixed; [exact Hname'|].
  rewrite trim_dropEnd. apply singleSpaced_dropEnd.
  now apply (singleSpaced_trimStart t false).
Qed.

(** X11: a normalized name is made of letters, numbers and spaces only,
    no space follows a space in it, and lower-casing leaves it as it
    is. *)
Theorem normalizeName_writes_only_name_characters (s : string) :
  allStr isNameChar (normalizeName s) = true
  /\ singleSpaced false (normalizeName s) = true
  /\ toLowerCase (normalizeName s) = normalizeName s.
Proof.
  destruct (normalizeName_shape s) as (Hname & Hsingle & Hlow).
  split; [exact Hname|]. split; [exact Hsingle|].
  now apply toLowerCase_lowered.
Qed.

(** X12: normalizing a normalized name only trims it, and normalizing a
    third time changes nothing: what a second pass can still remove is the
    space left at either end by punctuation that stood there. *)
Theorem normalizeName_twice_only_trims (s : string) :
  normalizeName (normalizeName s) = trim (normalizeName s)
  /\ normalizeName (normalizeName (normalizeName s)) = normalizeName (normalizeName s).
Proof.
  destruct (normalizeName_shape s) as (Hname & Hsingle & Hlow).
  assert (Htwice : normalizeName (normalizeName s) = trim (normalizeName s))
    by now apply normalizeName_of_shape.
  split; [exact Htwice|].
  rewrite Htwice. rewrite normalizeName_of_shape.
  - apply trim_idempotent.
  - now apply allStr_trim.
  - rewrite trim_dropEnd. apply singleSpaced_dropEnd.
    now apply (singleSpaced_trimStart _ false).
  - now apply allStr_trim.
Qed.


(** *** Names that differ by case, white space or punctuation *)

Lemma toLowerCase_idempotent s : toLowerCase (toLowerCase s) = toLowerCase s.
Proof. apply toLowerCase_lowered, allStr_lowered. Qed.

Lemma toLowerCase_app s1 s2 : toLowerCase (s1 +:+ s2) = toLowerCase s1 +:+ toLowerCase s2.
Proof.
  induction s1 as [|c s1 IH]; [reflexivity|].
  rewrite app_cons. cbn [toLowerCase]. now rewrite IH, app_cons.
Qed.

Lemma removeAll_app q s1 s2 : removeAll q (s1 +:+ s2) = removeAll q s1 +:+ removeAll q s2.
Proof.
  induction s1 as [|c s1 IH]; [reflexivity|].
  rewrite app_cons. cbn [removeAll]. rewrite IH. now destruct (q c).
Qed.

Lemma trimStart_toLowerCase s : trimStart (toLowerCase s) = toLowerCase (trimStart s).
Proof.
  induction s as [|c s IH]; [reflexivity|].
  cbn [toLowerCase trimStart]. rewrite isWhiteSpace_lowerChar.
  now destruct (isWhiteSpace c).
Qed.

Lemma dropEnd_toLowerCase s : dropEnd (toLowerCase s) = toLowerCase (dropEnd s).
Proof.
  induction s as [|c s IH]; [reflexivity|].
  cbn [toLowerCase dropEnd]. rewrite IH, isWhiteSpace_lowerChar.
  destruct (dropEnd s); [now destruct (isWhiteSpace c) | reflexivity].
Qed.

Lemma trim_toLowerCase s : trim (toLowerCase s) = toLowerCase (trim s).
Proof.
  now rewrite !trim_dropEnd, trimStart_toLowerCase, dropEnd_toLowerCase.
Qed.

Lemma normalizeName_toLowerCase s : normalizeName (toLowerCase s) = normalizeName s.
Proof.
  unfold normalizeName. now rewrite trim_toLowerCase, toLowerCase_idempotent.
Qed.

(** X13: two names with the same lower-case form, that is, names that
    differ only by letter case, have the same normalized name. *)
Theorem normalizeName_ignores_case (a b : string) :
  toLowerCase a = toLowerCase b -> normalizeName a = normalizeName b.
Proof.
  intros Heq.
  now rewrite <- (normalizeName_toLowerCase a), Heq, normalizeName_toLowerCase.
Qed.

Lemma normalizeName_ignores_case_witness :
  normalizeName "John SMITH" = normalizeName "jOHN Smith".
Proof.
  apply normalizeName_ignores_case. reflexivity.
Defined.

Lemma trim_surrounded w1 s w2 :
  allStr isWhiteSpace w1 = true -> allStr isWhiteSpace w2 = true ->
  trim (w1 +:+ s +:+ w2) = trim s.
Proof.
  intros Hw1 Hw2. rewrite !trim_dropEnd, trimStart_spaces, trimStart_app by assumption.
  destruct (allStr isWhiteSpace s) eqn:Hs.
  - now rewrite (trimStart_all_space w2), (trimStart_all_space s).
  - now apply dropEnd_app_spaces.
Qed.

(** X14: white space before and after a name does not change its
    normalized name. *)
Theorem normalizeName_ignores_surrounding_space (before name after : string) :
  allStr isWhiteSpace before = true ->
  allStr isWhiteSpace after = true ->
  normalizeName (before +:+ name +:+ after) = normalizeName name.
Proof.
  intros Hb Ha. unfold normalizeName. now rewrite trim_surrounded.
Qed.

Lemma normalizeName_ignores_surrounding_space_witness :
  normalizeName ("  " +:+ "John Smith" +:+ " ") = normalizeName "John Smith".
Proof.
  apply normalizeName_ignores_surrounding_space; reflexivity.
Defined.

Lemma endsBlack_app s t : endsBlack t = true -> endsBlack (s +:+ t) = true.
Proof.
  intros Ht. unfold endsBlack. rewrite (dropEnd_app_black s t Ht), String.eqb_refl, andb_true_r.
  unfold endsBlack in Ht. apply andb_prop in Ht as [Hne _].
  destruct s; [exact Hne | reflexivity].
Qed.

Lemma removeAll_unkept p :
  allStr (fun c => negb (isKept c)) p = true ->
  removeAll (fun c => negb (isKept c)) (toLowerCase p) = "".
Proof.
  induction p as [|c p IH]; [reflexivity|].
  cbn [allStr toLowerCase removeAll]. intros [Hc Hp]%andb_prop.
  rewrite isKept_lowerChar, Hc. now apply IH.
Qed.

(** X28: for names of code units below [0x100], punctuation standing
    inside a name (after something that is not white space at the start,
    before something that is not white space at the end) does not change
    its normalized name. *)
Theorem normalizeName_ignores_inner_punctuation (a p b : string) :
  startsBlack a = true ->
  endsBlack b = true ->
  allStr (fun c => negb (isLetter c || isNumber c || isWhiteSpace c)) p = true ->
  normalizeName (a +:+ p +:+ b) = normalizeName (a +:+ b).
Proof.
  intros Ha Hb Hp. unfold normalizeName.
  change (fun c => negb (isLetter c || isNumber c || isWhiteSpace c))
    with (fun c => negb (isKept c)) in *.
  rewrite (trim_black a (p +:+ b)), (trim_black a b)
    by (try assumption; now apply endsBlack_app).
  rewrite !toLowerCase_app, !removeAll_app, (removeAll_unkept p Hp).
  reflexivity.
Qed.

Lemma normalizeName_ignores_inner_punctuation_witness :
  normalizeName ("Smith" +:+ ", " +:+ "J.") = normalizeName ("Smith" +:+ "," +:+ " J.")
  /\ normalizeName ("O" +:+ "'" +:+ "Neil") = normalizeName ("O" +:+ "Neil").
Proof.
  split; [reflexivity|].
  apply normalizeName_ignores_inner_punctuation; reflexivity.
Defined.

Lemma collapseRuns_true_spaces w s :
  allStr isWhiteSpace w = true -> collapseRuns true (w +:+ s) = collapseRuns true s.
Proof.
  induction w as [|c w IH]; [reflexivity|].
  cbn [allStr]. intros [Hc Hw]%andb_prop.
  rewrite app_cons. cbn [collapseRuns]. rewrite Hc. now apply IH.
Qed.

Lemma collapseRuns_spaces w s b :
  nonEmpty w = true -> allStr isWhiteSpace w = true ->
  collapseRuns b (w +:+ s) = (if b then "" else " ") +:+ collapseRuns true s.
Proof.
  destruct w as [|c w]; [discriminate|]. intros _.
  cbn [allStr]. intros [Hc Hw]%andb_prop.
  rewrite app_cons. cbn [collapseRuns]. rewrite Hc, collapseRuns_true_spaces by assumption.
  now destruct b.
Qed.

Lemma collapseRuns_run a w s :
  nonEmpty w = true -> allStr isWhiteSpace w = true ->
  forall b, collapseRuns b (a +:+ w +:+ s) = collapseRuns b (a +:+ " " +:+ s).
Proof.
  intros Hne Hw. induction a as [|c a IH]; intros b.
  - rewrite !app_nil_l, (collapseRuns_spaces w s b Hne Hw).
    now rewrite (collapseRuns_spaces " " s b).
  - rewrite !app_cons. cbn [collapseRuns].
    destruct (isWhiteSpace c); [destruct b|]; now rewrite IH.
Qed.

Lemma removeAll_spaces w :
  allStr isWhiteSpace w = true ->
  removeAll (fun c => negb (isKept c)) (toLowerCase w) = toLowerCase w
  /\ allStr isWhiteSpace (toLowerCase w) = true
  /\ nonEmpty (toLowerCase w) = nonEmpty w.
Proof.
  induction w as [|c w IH]; [auto|].
  cbn [allStr toLowerCase removeAll nonEmpty]. intros [Hc Hw]%andb_prop.
  destruct (IH Hw) as (-> & -> & _).
  rewrite isWhiteSpace_lowerChar, Hc.
  assert (Hk : isKept (lowerChar c) = true).
  { rewrite isKept_lowerChar. unfold isKept. now rewrite Hc, orb_true_r. }
  now rewrite Hk.
Qed.

(** X29: for names of code units below [0x100], a run of white space
    inside a name counts as one space, however long it is and whichever of
    the white-space code units below [0x100] it is made of (tab, line
    feed, vertical tab, form feed, carriage return, space, no-break
    space). *)
Theorem normalizeName_ignores_run_length (a run b : string) :
  startsBlack a = true ->
  endsBlack b = true ->
  nonEmpty run = true ->
  allStr isWhiteSpace run = true ->
  normalizeName (a +:+ run +:+ b) = normalizeName (a +:+ " " +:+ b).
Proof.
  intros Ha Hb Hne Hrun. unfold normalizeName.
  change (fun c => negb (isLetter c || isNumber c || isWhiteSpace c))
    with (fun c => negb (isKept c)).
  rewrite (trim_black a (run +:+ b)), (trim_black a (" " +:+ b))
    by (try assumption; now apply endsBlack_app).
  rewrite !toLowerCase_app, !removeAll_app.
  destruct (removeAll_spaces run Hrun) as (-> & Hws & Hne').
  rewrite Hne in Hne'.
  change (removeAll (fun c => negb (isKept c)) (toLowerCase " ")) with " ".
  now apply collapseRuns_run.
Qed.

Lemma normalizeName_ignores_run_length_witness :
  normalizeName ("john" +:+ "   " +:+ "SMITH") = normalizeName ("john" +:+ " " +:+ "SMITH").
Proof.
  apply normalizeName_ignores_run_length; reflexivity.
Defined.

